(** * The natural-language query pipeline of the Airtable MCP server

    A shallow embedding of the TypeScript classes that turn a query in
    Spanish into an intent with parameters, followed by their properties:

    - [NaturalLanguageProcessor]
      (src/typescript/app/nlp/natural-language-processor.ts),
    - [ContextHandler] (src/typescript/app/nlp/context-handler.ts),
    - [IntentMapper] and [ValidationEngine] (nlp/intent-mapper.ts and
      nlp/validation-engine.ts, both in unnamed/part_009),
    - [SemanticAnalyzer] (nlp/semantic-analyzer.ts, in unnamed/part_010),
    - the types of src/typescript/app/types/nlp.ts,
    - the tool that owns the processor, with its configuration and the
      handler of [process_natural_language] (unnamed/part_008).

    Conventions.
    - A JavaScript string is a sequence of UTF-16 code units.  Every
      pattern, keyword and message of the program lies in the Latin-1 range,
      so a string is a [string] whose characters are the code units U+0000
      to U+00FF: an [ascii] is one code unit, not a UTF-8 byte, and the
      accented letters are written by their codes.
    - A number that holds a score is an IEEE-754 double, Rocq's primitive
      [float]; a number that holds a count or a bound is a [Z].
    - An object with optional properties is a record of [option]s: a
      property is present exactly when its field is [Some _].
    - A [RegExp] object is its pattern, its flags and its [lastIndex]; a
      method that moves [lastIndex] returns the new object.
    - [async] and [await] are plain sequencing: no step of the pipeline
      suspends on I/O, so a call runs to completion.
    - Logging has no part in any result and is left out. *)

From Stdlib Require Import String Ascii List ZArith Bool Lia PrimFloat Uint63
  DecimalString.
From stdpp Require Import gmap strings.
Import ListNotations.

Set Warnings "-inexact-float,-register-all".
Local Open Scope string_scope.
Local Open Scope bool_scope.

(** ** JavaScript strings *)

Module Js.

Definition code (c : ascii) : nat := nat_of_ascii c.

Definition between (lo hi : nat) (c : ascii) : bool :=
  (lo <=? code c)%nat && (code c <=? hi)%nat.

(** [WhiteSpace] and [LineTerminator] of ECMAScript, below U+0100: TAB, LF,
    VT, FF, CR, SP, NBSP.  This is the set of [\s] and of [trim]. *)
Definition is_space (c : ascii) : bool :=
  between 9 13 c || (code c =? 32)%nat || (code c =? 160)%nat.

Definition is_digit (c : ascii) : bool := between 48 57 c.

(** [\w] without the [u] flag: [A-Za-z0-9_]. *)
Definition is_word (c : ascii) : bool :=
  between 65 90 c || between 97 122 c || is_digit c || (code c =? 95)%nat.

Definition is_line_terminator (c : ascii) : bool :=
  (code c =? 10)%nat || (code c =? 13)%nat.

(** Lower-case mapping: A-Z and the Latin-1 capitals U+00C0..U+00DE
    (the multiplication sign U+00D7 apart). *)
Definition lower (c : ascii) : ascii :=
  if between 65 90 c || (between 192 222 c && negb (code c =? 215)%nat)
  then ascii_of_nat (code c + 32) else c.

(** Upper-case mapping as the regular-expression [Canonicalize] uses it:
    a-z and U+00E0..U+00FE (the division sign U+00F7 apart).  U+00B5,
    U+00DF and U+00FF have no single-unit Latin-1 capital and stay. *)
Definition upper (c : ascii) : ascii :=
  if between 97 122 c || (between 224 254 c && negb (code c =? 247)%nat)
  then ascii_of_nat (code c - 32) else c.

Fixpoint map_chars (f : ascii -> ascii) (s : string) : string :=
  match s with
  | EmptyString => EmptyString
  | String c t => String (f c) (map_chars f t)
  end.

Definition toLowerCase (s : string) : string := map_chars lower s.
Definition toUpperCase (s : string) : string := map_chars upper s.

Fixpoint trimStart (s : string) : string :=
  match s with
  | String c t => if is_space c then trimStart t else s
  | EmptyString => EmptyString
  end.

Fixpoint trimEnd (s : string) : string :=
  match s with
  | EmptyString => EmptyString
  | String c t =>
      match trimEnd t with
      | EmptyString => if is_space c then EmptyString else String c EmptyString
      | t' => String c t'
      end
  end.

Definition trim (s : string) : string := trimEnd (trimStart s).

(** [s.includes(sub)] *)
Fixpoint includes (s sub : string) : bool :=
  String.prefix sub s ||
  match s with
  | EmptyString => false
  | String _ t => includes t sub
  end.

(** [xs.includes(x)] on an array of strings. *)
Definition mem (x : string) (xs : list string) : bool :=
  existsb (String.eqb x) xs.

(** [[...new Set(xs)]]: first occurrences, in order. *)
Fixpoint dedupe_from (seen : list string) (xs : list string) : list string :=
  match xs with
  | [] => []
  | x :: t => if mem x seen then dedupe_from seen t
              else x :: dedupe_from (x :: seen) t
  end.

Definition dedupe (xs : list string) : list string := dedupe_from [] xs.

(** A string is truthy when it is not empty; [undefined] and [null] are
    falsy. *)
Definition truthy (v : option string) : bool :=
  match v with
  | Some (String _ _) => true
  | _ => false
  end.

(** The code unit with the given Latin-1 code, as a one-character string. *)
Definition u (n : nat) : string := String (ascii_of_nat n) EmptyString.

(** The accented letters of the program's patterns and messages. *)
Definition a' : string := u 225.
Definition e' : string := u 233.
Definition i' : string := u 237.
Definition o' : string := u 243.
Definition u' : string := u 250.
Definition n' : string := u 241.
Definition iq : string := u 191.
(** The double quote, for the messages that hold one. *)
Definition quote : string := u 34.

(** Every character of [s] satisfies [p]. *)
Fixpoint every (p : ascii -> bool) (s : string) : bool :=
  match s with
  | EmptyString => true
  | String c t => p c && every p t
  end.

End Js.

(** ** Regular expressions

    The fragment of ECMAScript regular expressions the program uses, with
    the backtracking semantics of the language: alternatives are tried left
    to right, a greedy quantifier tries one more iteration before it tries
    to go on, a lazy one the other way round, and the first success wins. *)

Module RegExp.

Inductive ClassItem : Type :=
| CChar (c : ascii)
| CRange (lo hi : ascii)
| CWord
| CSpace
| CDigit.

Inductive Re : Type :=
| Eps
| Chr (c : ascii)
| Dot
| Class (negated : bool) (items : list ClassItem)
| Seq (a b : Re)
| Alt (a b : Re)
| Star (greedy : bool) (a : Re)
| Group (n : nat) (a : Re)
| Bol
| Eol
| WordB.

(** Derived forms. *)
Definition Plus (greedy : bool) (a : Re) : Re := Seq a (Star greedy a).
Definition Opt (a : Re) : Re := Alt a Eps.
Definition Cat (rs : list Re) : Re := fold_right Seq Eps rs.
Definition Or (rs : list Re) : Re :=
  match rs with
  | [] => Eps
  | r :: t => fold_left Alt t r
  end.

Fixpoint Lit (s : string) : Re :=
  match s with
  | EmptyString => Eps
  | String c EmptyString => Chr c
  | String c t => Seq (Chr c) (Lit t)
  end.

Definition w : Re := Class false [CWord].
Definition d : Re := Class false [CDigit].
Definition s : Re := Class false [CSpace].
(** [\s+], [\s*], [\w+], [\d+] *)
Definition sp : Re := Plus true s.
Definition sp0 : Re := Star true s.
Definition word : Re := Plus true w.
Definition digits : Re := Plus true d.

(** The class fragment of the accented letters a, e, i, o, u with acute,
    n with tilde and N with tilde, which the program's classes share. *)
Definition letters_es : list ClassItem :=
  map (fun n => CChar (ascii_of_nat n)) [225; 233; 237; 243; 250; 241; 209].

(** [ph "crear webhook"] is [crear\s+webhook]: the words of a phrase,
    joined by [\s+]. *)
Fixpoint tokens (acc : string) (s : string) : list string :=
  match s with
  | EmptyString => [acc]
  | String c t =>
      if Ascii.eqb c " " then acc :: tokens EmptyString t
      else tokens (acc ++ String c EmptyString) t
  end.

Fixpoint join_sp (ws : list string) : Re :=
  match ws with
  | [] => Eps
  | [x] => Lit x
  | x :: t => Seq (Lit x) (Seq sp (join_sp t))
  end.

Definition ph (s : string) : Re := join_sp (tokens EmptyString s).

Definition raw_item (it : ClassItem) (c : ascii) : bool :=
  match it with
  | CChar x => Ascii.eqb x c
  | CRange lo hi => Js.between (Js.code lo) (Js.code hi) c
  | CWord => Js.is_word c
  | CSpace => Js.is_space c
  | CDigit => Js.is_digit c
  end.

(** With the [i] flag a character matches when a case variant of it does. *)
Definition in_item (ic : bool) (it : ClassItem) (c : ascii) : bool :=
  raw_item it c ||
  (ic && (raw_item it (Js.lower c) || raw_item it (Js.upper c))).

Definition in_class (ic : bool) (negated : bool) (items : list ClassItem)
    (c : ascii) : bool :=
  xorb negated (existsb (fun it => in_item ic it c) items).

Definition chr_eq (ic : bool) (x c : ascii) : bool :=
  if ic then Ascii.eqb (Js.upper x) (Js.upper c) else Ascii.eqb x c.

(** The matcher's state: the character before the current position (for
    [\b] and [^]), the input from the current position on, the position,
    and the captures made so far (most recent first). *)
Record MState : Type := mkMState {
  prev : option ascii;
  rest : string;
  pos : nat;
  caps : list (nat * string)
}.

(** The latest capture of group [n]. *)
Definition captured (n : nat) (cs : list (nat * string)) : option string :=
  snd <$> List.find (fun c => (fst c =? n)%nat) cs.

Definition step (c : ascii) (t : string) (x : MState) : MState :=
  {| prev := Some c; rest := t; pos := S (pos x); caps := caps x |}.

Definition capture (n : nat) (from : MState) (x : MState) : MState :=
  {| prev := prev x; rest := rest x; pos := pos x;
     caps := (n, String.substring 0 (pos x - pos from) (rest from))
         :: caps x |}.

Definition is_word_opt (c : option ascii) : bool :=
  match c with
  | Some c => Js.is_word c
  | None => false
  end.

Definition next (x : MState) : option ascii :=
  match rest x with
  | String c _ => Some c
  | EmptyString => None
  end.

Definition one (p : ascii -> bool) (k : MState -> option MState)
    (x : MState) : option MState :=
  match rest x with
  | String c t => if p c then k (step c t x) else None
  | EmptyString => None
  end.

Definition orelse (a b : option MState) : option MState :=
  match a with
  | Some z => Some z
  | None => b
  end.

(** A quantified sub-pattern: [iter k x] matches one more iteration at [x]
    and goes on with [k].  An iteration that consumes nothing is rejected
    (as ECMAScript's RepeatMatcher does), so a loop runs at most once per
    remaining character and [fuel] never runs out ([star_fuel]). *)
Fixpoint repeat (greedy : bool)
    (iter : (MState -> option MState) -> MState -> option MState)
    (k : MState -> option MState) (fuel : nat) (x : MState)
    {struct fuel} : option MState :=
  match fuel with
  | O => k x
  | S fuel' =>
      let again :=
        iter (fun y => if (pos x <? pos y)%nat
                       then repeat greedy iter k fuel' y else None) x in
      if greedy then orelse again (k x) else orelse (k x) again
  end.

(** [m ic r k x]: match [r] at [x] and go on with [k]. *)
Fixpoint m (ic : bool) (r : Re) (k : MState -> option MState) (x : MState)
    {struct r} : option MState :=
  match r with
  | Eps => k x
  | Chr c => one (chr_eq ic c) k x
  | Dot => one (fun c => negb (Js.is_line_terminator c)) k x
  | Class negated items => one (in_class ic negated items) k x
  | Seq a b => m ic a (m ic b k) x
  | Alt a b => orelse (m ic a k x) (m ic b k x)
  | Star greedy a =>
      repeat greedy (m ic a) k (S (String.length (rest x))) x
  | Group n a => m ic a (fun y => k (capture n x y)) x
  | Bol => match prev x with None => k x | Some _ => None end
  | Eol => match rest x with EmptyString => k x | String _ _ => None end
  | WordB =>
      if xorb (is_word_opt (prev x)) (is_word_opt (next x)) then k x else None
  end.

(** [groupless r]: no capture group occurs in [r]. *)
Fixpoint groupless (r : Re) : bool :=
  match r with
  | Seq a b | Alt a b => groupless a && groupless b
  | Star _ a => groupless a
  | Group _ _ => false
  | _ => true
  end.

(** [defines n r]: group [n] lies on every path through [r], under no
    alternative and no quantifier. *)
Fixpoint defines (n : nat) (r : Re) : bool :=
  match r with
  | Group k a => (k =? n)%nat || defines n a
  | Seq a b => defines n a || defines n b
  | _ => false
  end.

(** [y] is further on in the input of [x]. *)
Definition ahead (x y : MState) : Prop :=
  (pos x <= pos y)%nat
  /\ (String.length (rest y) + pos y = String.length (rest x) + pos x)%nat.

(** [y] is reached from [x] by reading the characters between them. *)
Definition follows (x y : MState) : Prop :=
  exists read, rest x = read ++ rest y
               /\ pos y = (pos x + String.length read)%nat.

(** The 256 code units. *)
Definition all_chars : list ascii := map ascii_of_nat (seq 0 256).

(** Every match of [r] reads a character that is none of [chars], in
    either case when [ic] is set: [r] holds such a character where no
    alternative, option or loop avoids it. *)
Fixpoint needs_other (chars : list ascii) (ic : bool) (r : Re) : bool :=
  match r with
  | Chr c => negb (existsb (chr_eq ic c) chars)
  | Seq a b => if needs_other chars ic a then true else needs_other chars ic b
  | Alt a b => if needs_other chars ic a then needs_other chars ic b else false
  | Group _ a => needs_other chars ic a
  | _ => false
  end.

(** Every match of [r] reads a character that [allowed] rejects.  An
    expression of this kind has no match in an input made of allowed
    characters ([needs_none]). *)
Definition needs (allowed : ascii -> bool) (ic : bool) (r : Re) : bool :=
  needs_other (List.filter allowed all_chars) ic r.

(** How the state moves from the start of a match of [r] to the entry of
    its continuation: forward in the same input; with the same captures if
    [r] has no group; never losing a capture. *)
Definition moves (r : Re) (x y : MState) : Prop :=
  ahead x y
  /\ (groupless r = true -> caps y = caps x)
  /\ (forall n, is_Some (captured n (caps x)) ->
                is_Some (captured n (caps y))).

Definition match_at (ic : bool) (r : Re) (p : option ascii) (t : string)
    (i : nat) : option MState :=
  m ic r Some {| prev := p; rest := t; pos := i; caps := [] |}.

(** Leftmost match at or after position [i], where [t] is the input from
    [i] on: the start index and the final matcher state. *)
Fixpoint search (ic : bool) (r : Re) (p : option ascii) (t : string)
    (i : nat) : option (nat * MState) :=
  match match_at ic r p t i with
  | Some y => Some (i, y)
  | None =>
      match t with
      | EmptyString => None
      | String c t' => search ic r (Some c) t' (S i)
      end
  end.

(** The input from index [n] on, with the character before it; [None] when
    [n] is past the end. *)
Fixpoint seek (n : nat) (p : option ascii) (t : string)
    : option (option ascii * string) :=
  match n with
  | O => Some (p, t)
  | S n' =>
      match t with
      | EmptyString => None
      | String c t' => seek n' (Some c) t'
      end
  end.

(** A [RegExp] object: pattern, flags, and the mutable [lastIndex]. *)
Record t : Type := mk {
  source : Re;
  global : bool;
  ignoreCase : bool;
  lastIndex : nat
}.

Definition re (r : Re) : t := mk r false false 0.
Definition re_g (r : Re) : t := mk r true false 0.
Definition re_i (r : Re) : t := mk r false true 0.
Definition re_gi (r : Re) : t := mk r true true 0.

Definition set_lastIndex (i : nat) (rx : t) : t :=
  mk (source rx) (global rx) (ignoreCase rx) i.

(** The result of one successful [exec]. *)
Record Match : Type := mkMatch {
  index : nat;
  endIndex : nat;
  matched : string;
  groups : list (nat * string)
}.

(** [res[n]]; a group that took no part in the match is [undefined], shown
    as [None]. *)
Definition group (n : nat) (r : Match) : option string :=
  captured n (groups r).

Definition mk_match (i : nat) (t : string) (b : nat) (y : MState) : Match :=
  {| index := b; endIndex := pos y;
     matched := String.substring (b - i) (pos y - b) t;
     groups := caps y |}.

(** [rx.exec(str)] (RegExpBuiltinExec): a global expression starts at
    [lastIndex] and leaves the end of the match there, or 0 on failure;
    any other starts at 0 and leaves [lastIndex] alone. *)
Definition exec (rx : t) (str : string) : option Match * t :=
  let start := if global rx then lastIndex rx else 0 in
  let fail := if global rx then set_lastIndex 0 rx else rx in
  match seek start None str with
  | None => (None, fail)
  | Some (p, t) =>
      match search (ignoreCase rx) (source rx) p t start with
      | None => (None, fail)
      | Some (b, y) =>
          (Some (mk_match start t b y),
           if global rx then set_lastIndex (pos y) rx else rx)
      end
  end.

(** [rx.test(str)] *)
Definition test (rx : t) (str : string) : bool * t :=
  let '(r, rx') := exec rx str in
  (match r with Some _ => true | None => false end, rx').

(** Successive matches of a global expression, as the loops of
    [String.prototype.match], [matchAll] and [replace] find them: each
    search starts where the previous match ended, one character further
    after an empty match.  Every round starts at a later position, so
    [S (length str)] rounds are enough ([all_matches_fuel]). *)
Fixpoint matches_from (fuel : nat) (ic : bool) (r : Re) (p : option ascii)
    (t : string) (i : nat) : list Match :=
  match fuel with
  | O => []
  | S fuel' =>
      match search ic r p t i with
      | None => []
      | Some (b, y) =>
          let hit := mk_match i t b y in
          if (b <? pos y)%nat
          then hit :: matches_from fuel' ic r (prev y) (rest y) (pos y)
          else match rest y with
               | EmptyString => [hit]
               | String c t' =>
                   hit :: matches_from fuel' ic r (Some c) t' (S (pos y))
               end
      end
  end.

Definition all_matches (rx : t) (str : string) : list Match :=
  matches_from (S (String.length str)) (ignoreCase rx) (source rx) None str 0.

(** [str.match(rx)] for an expression without the [g] flag. *)
Definition match_ (str : string) (rx : t) : option Match :=
  fst (exec (set_lastIndex 0 rx) str).

(** [str.match(rx)] for a global expression: the matched substrings, or
    [null] when there is none.  [lastIndex] is reset before and is 0 after,
    so the expression object is unchanged. *)
Definition match_g (str : string) (rx : t) : option (list string) :=
  match all_matches rx str with
  | [] => None
  | ms => Some (map matched ms)
  end.

(** [Array.from(str.matchAll(rx))] *)
Definition matchAll (str : string) (rx : t) : list Match :=
  all_matches rx str.

Fixpoint splice (str : string) (cursor : nat) (ms : list Match)
    (by_ : string) : string :=
  match ms with
  | [] => String.substring cursor (String.length str - cursor) str
  | h :: ms' =>
      String.substring cursor (index h - cursor) str ++ by_ ++
      splice str (endIndex h) ms' by_
  end.

(** [str.replace(rx, by_)] where [by_] holds no [$] pattern (none of the
    program's replacement strings does). *)
Definition replace (str : string) (rx : t) (by_ : string) : string :=
  if global rx then splice str 0 (all_matches rx str) by_
  else match match_ str rx with
       | Some h => splice str 0 [h] by_
       | None => str
       end.

(** [str.split(rx)] for an expression without capture groups: at each
    position [q] the separator is tried in place; a match that ends at the
    start [p] of the current piece is skipped.  Two rounds per character
    are enough ([split_fuel]). *)
Fixpoint split_from (fuel : nat) (ic : bool) (r : Re) (p : nat)
    (piece : string) (pv : option ascii) (t : string) (q : nat)
    : list string :=
  match fuel with
  | O => [piece ++ t]
  | S fuel' =>
      match t with
      | EmptyString => [piece]
      | String c t' =>
          let skip :=
            split_from fuel' ic r p (piece ++ String c EmptyString)
              (Some c) t' (S q) in
          match match_at ic r pv t q with
          | Some y =>
              if (pos y =? p)%nat then skip
              else piece ::
                   split_from fuel' ic r (pos y) EmptyString (prev y)
                     (rest y) (pos y)
          | None => skip
          end
      end
  end.

Definition split (str : string) (rx : t) : list string :=
  match str with
  | EmptyString =>
      match match_at (ignoreCase rx) (source rx) None str 0 with
      | Some _ => []
      | None => [str]
      end
  | _ =>
      split_from (2 * String.length str + 2) (ignoreCase rx) (source rx)
        0 EmptyString None str 0
  end.

End RegExp.

(** ** Types ([types/nlp.ts]) *)

(** A JavaScript value, where the program handles one as [any]. *)
Inductive Value : Type :=
| VUndefined
| VString (s : string)
| VNumber (n : Z)
| VObject (props : list (string * Value)).

Definition truthy_value (v : Value) : bool :=
  match v with
  | VUndefined => false
  | VString s => Js.truthy (Some s)
  | VNumber n => negb (n =? 0)%Z
  | VObject _ => true
  end.

(** [a || b] on values. *)
Definition or_value (a b : Value) : Value :=
  if truthy_value a then a else b.

Definition prop (name : string) (props : list (string * Value)) : Value :=
  match List.find (fun kv => String.eqb (fst kv) name) props with
  | Some kv => snd kv
  | None => VUndefined
  end.

Inductive IntentType : Type :=
| LIST_BASES
| LIST_RECORDS
| CREATE_RECORD
| UPDATE_RECORD
| DELETE_RECORD
| SEARCH_RECORDS
| LIST_TABLES
| GET_RECORD
| CREATE_WEBHOOK
| LIST_WEBHOOKS
| DELETE_WEBHOOK
| GET_WEBHOOK_PAYLOADS
| GET_BASE_SCHEMA
| DESCRIBE_TABLE
| CREATE_TABLE
| DELETE_TABLE
| UPDATE_TABLE
| CREATE_FIELD
| DELETE_FIELD
| UPDATE_FIELD
| LIST_FIELD_TYPES
| BATCH_CREATE_RECORDS
| BATCH_UPDATE_RECORDS
| BATCH_DELETE_RECORDS
| BATCH_UPSERT_RECORDS
| UPLOAD_ATTACHMENT
| LIST_COLLABORATORS
| LIST_SHARES
| CREATE_VIEW
| GET_VIEW_METADATA
| GET_TABLE_VIEWS
| CREATE_BASE
| ANALYZE_DATA
| CREATE_REPORT
| DATA_INSIGHTS
| OPTIMIZE_WORKFLOW
| SMART_SCHEMA_DESIGN
| DATA_QUALITY_AUDIT
| PREDICTIVE_ANALYTICS
| NATURAL_LANGUAGE_QUERY
| SMART_DATA_TRANSFORMATION
| AUTOMATION_RECOMMENDATIONS
| UNKNOWN.

(** The enumeration's string values; the program compares intents as
    strings. *)
Definition intent_value (i : IntentType) : string :=
  match i with
  | LIST_BASES => "list_bases"
  | LIST_RECORDS => "list_records"
  | CREATE_RECORD => "create_record"
  | UPDATE_RECORD => "update_record"
  | DELETE_RECORD => "delete_record"
  | SEARCH_RECORDS => "search_records"
  | LIST_TABLES => "list_tables"
  | GET_RECORD => "get_record"
  | CREATE_WEBHOOK => "create_webhook"
  | LIST_WEBHOOKS => "list_webhooks"
  | DELETE_WEBHOOK => "delete_webhook"
  | GET_WEBHOOK_PAYLOADS => "get_webhook_payloads"
  | GET_BASE_SCHEMA => "get_base_schema"
  | DESCRIBE_TABLE => "describe_table"
  | CREATE_TABLE => "create_table"
  | DELETE_TABLE => "delete_table"
  | UPDATE_TABLE => "update_table"
  | CREATE_FIELD => "create_field"
  | DELETE_FIELD => "delete_field"
  | UPDATE_FIELD => "update_field"
  | LIST_FIELD_TYPES => "list_field_types"
  | BATCH_CREATE_RECORDS => "batch_create_records"
  | BATCH_UPDATE_RECORDS => "batch_update_records"
  | BATCH_DELETE_RECORDS => "batch_delete_records"
  | BATCH_UPSERT_RECORDS => "batch_upsert_records"
  | UPLOAD_ATTACHMENT => "upload_attachment"
  | LIST_COLLABORATORS => "list_collaborators"
  | LIST_SHARES => "list_shares"
  | CREATE_VIEW => "create_view"
  | GET_VIEW_METADATA => "get_view_metadata"
  | GET_TABLE_VIEWS => "get_table_views"
  | CREATE_BASE => "create_base"
  | ANALYZE_DATA => "analyze_data"
  | CREATE_REPORT => "create_report"
  | DATA_INSIGHTS => "data_insights"
  | OPTIMIZE_WORKFLOW => "optimize_workflow"
  | SMART_SCHEMA_DESIGN => "smart_schema_design"
  | DATA_QUALITY_AUDIT => "data_quality_audit"
  | PREDICTIVE_ANALYTICS => "predictive_analytics"
  | NATURAL_LANGUAGE_QUERY => "natural_language_query"
  | SMART_DATA_TRANSFORMATION => "smart_data_transformation"
  | AUTOMATION_RECOMMENDATIONS => "automation_recommendations"
  | UNKNOWN => "unknown"
  end.

(** [intent === v] *)
Definition intent_is (i : IntentType) (v : IntentType) : bool :=
  String.eqb (intent_value i) (intent_value v).

Module ExtractedEntities.

Record t : Type := mk {
  tableName : option (string);
  recordId : option (string);
  fieldName : option (string);
  fieldValue : option (string);
  fieldType : option (string);
  baseId : option (string);
  webhookUrl : option (string);
  webhookId : option (string);
  attachmentUrl : option (string);
  priority : option (string);
  status : option (string);
  dateReference : option (string);
  count : option (Z);
  fieldNames : option (list string);
  viewName : option (string);
  permissions : option (string);
  shareUrl : option (string);
  extra : option (list (string * Value))
}.

(** [{}] *)
Definition empty : t :=
  mk None None None None None None None None None None None None None None
     None None None None.

Definition has {A : Type} (v : option A) : nat :=
  match v with Some _ => 1 | None => 0 end.

(** [Object.keys(e).length] *)
Definition keys (e : t) : nat :=
  has (tableName e) +
  has (recordId e) +
  has (fieldName e) +
  has (fieldValue e) +
  has (fieldType e) +
  has (baseId e) +
  has (webhookUrl e) +
  has (webhookId e) +
  has (attachmentUrl e) +
  has (priority e) +
  has (status e) +
  has (dateReference e) +
  has (count e) +
  has (fieldNames e) +
  has (viewName e) +
  has (permissions e) +
  has (shareUrl e) +
  has (extra e).

(** [e.tableName = v] *)
Definition set_tableName (v : string) (e : t) : t :=
  mk (Some v) (recordId e) (fieldName e) (fieldValue e) (fieldType e)
      (baseId e) (webhookUrl e) (webhookId e) (attachmentUrl e) (priority e)
      (status e) (dateReference e) (count e) (fieldNames e) (viewName e)
      (permissions e) (shareUrl e) (extra e).

(** [e.recordId = v] *)
Definition set_recordId (v : string) (e : t) : t :=
  mk (tableName e) (Some v) (fieldName e) (fieldValue e) (fieldType e)
      (baseId e) (webhookUrl e) (webhookId e) (attachmentUrl e) (priority e)
      (status e) (dateReference e) (count e) (fieldNames e) (viewName e)
      (permissions e) (shareUrl e) (extra e).

(** [e.priority = v] *)
Definition set_priority (v : string) (e : t) : t :=
  mk (tableName e) (recordId e) (fieldName e) (fieldValue e) (fieldType e)
      (baseId e) (webhookUrl e) (webhookId e) (attachmentUrl e) (Some v)
      (status e) (dateReference e) (count e) (fieldNames e) (viewName e)
      (permissions e) (shareUrl e) (extra e).

(** [e.status = v] *)
Definition set_status (v : string) (e : t) : t :=
  mk (tableName e) (recordId e) (fieldName e) (fieldValue e) (fieldType e)
      (baseId e) (webhookUrl e) (webhookId e) (attachmentUrl e) (priority e)
      (Some v) (dateReference e) (count e) (fieldNames e) (viewName e)
      (permissions e) (shareUrl e) (extra e).

(** [e.webhookUrl = v] *)
Definition set_webhookUrl (v : string) (e : t) : t :=
  mk (tableName e) (recordId e) (fieldName e) (fieldValue e) (fieldType e)
      (baseId e) (Some v) (webhookId e) (attachmentUrl e) (priority e)
      (status e) (dateReference e) (count e) (fieldNames e) (viewName e)
      (permissions e) (shareUrl e) (extra e).

(** [e.webhookId = v] *)
Definition set_webhookId (v : string) (e : t) : t :=
  mk (tableName e) (recordId e) (fieldName e) (fieldValue e) (fieldType e)
      (baseId e) (webhookUrl e) (Some v) (attachmentUrl e) (priority e)
      (status e) (dateReference e) (count e) (fieldNames e) (viewName e)
      (permissions e) (shareUrl e) (extra e).

(** [e.attachmentUrl = v] *)
Definition set_attachmentUrl (v : string) (e : t) : t :=
  mk (tableName e) (recordId e) (fieldName e) (fieldValue e) (fieldType e)
      (baseId e) (webhookUrl e) (webhookId e) (Some v) (priority e)
      (status e) (dateReference e) (count e) (fieldNames e) (viewName e)
      (permissions e) (shareUrl e) (extra e).

(** [e.count = v] *)
Definition set_count (v : Z) (e : t) : t :=
  mk (tableName e) (recordId e) (fieldName e) (fieldValue e) (fieldType e)
      (baseId e) (webhookUrl e) (webhookId e) (attachmentUrl e) (priority e)
      (status e) (dateReference e) (Some v) (fieldNames e) (viewName e)
      (permissions e) (shareUrl e) (extra e).

(** [e.fieldNames = v] *)
Definition set_fieldNames (v : list string) (e : t) : t :=
  mk (tableName e) (recordId e) (fieldName e) (fieldValue e) (fieldType e)
      (baseId e) (webhookUrl e) (webhookId e) (attachmentUrl e) (priority e)
      (status e) (dateReference e) (count e) (Some v) (viewName e)
      (permissions e) (shareUrl e) (extra e).

(** [e.dateReference = v] *)
Definition set_dateReference (v : string) (e : t) : t :=
  mk (tableName e) (recordId e) (fieldName e) (fieldValue e) (fieldType e)
      (baseId e) (webhookUrl e) (webhookId e) (attachmentUrl e) (priority e)
      (status e) (Some v) (count e) (fieldNames e) (viewName e)
      (permissions e) (shareUrl e) (extra e).

End ExtractedEntities.

(** [obj[k] = v] on a property list: an existing key keeps its place. *)
Fixpoint set_prop (k : string) (v : Value) (props : list (string * Value))
    : list (string * Value) :=
  match props with
  | [] => [(k, v)]
  | (k', v') :: t =>
      if String.eqb k' k then (k, v) :: t else (k', v') :: set_prop k v t
  end.

Module QueryParameters.

Record t : Type := mk {
  table : option (string);
  baseId : option (string);
  recordId : option (string);
  fields : option (list (string * Value));
  filterByFormula : option (string);
  maxRecords : option (Z);
  sort : option (list (string * string));
  view : option (string);
  webhookConfig : option (list (string * Value));
  attachmentData : option (list (string * Value));
  extra : option (list (string * Value))
}.

(** [{}] *)
Definition empty : t :=
  mk None None None None None None None None None None None.

(** [p.table = v] *)
Definition set_table (v : string) (p : t) : t :=
  mk (Some v) (baseId p) (recordId p) (fields p) (filterByFormula p)
      (maxRecords p) (sort p) (view p) (webhookConfig p) (attachmentData p)
      (extra p).

(** [p.baseId = v] *)
Definition set_baseId (v : string) (p : t) : t :=
  mk (table p) (Some v) (recordId p) (fields p) (filterByFormula p)
      (maxRecords p) (sort p) (view p) (webhookConfig p) (attachmentData p)
      (extra p).

(** [p.recordId = v] *)
Definition set_recordId (v : string) (p : t) : t :=
  mk (table p) (baseId p) (Some v) (fields p) (filterByFormula p)
      (maxRecords p) (sort p) (view p) (webhookConfig p) (attachmentData p)
      (extra p).

(** [p.fields = v] *)
Definition set_fields (v : list (string * Value)) (p : t) : t :=
  mk (table p) (baseId p) (recordId p) (Some v) (filterByFormula p)
      (maxRecords p) (sort p) (view p) (webhookConfig p) (attachmentData p)
      (extra p).

(** [p.filterByFormula = v] *)
Definition set_filterByFormula (v : string) (p : t) : t :=
  mk (table p) (baseId p) (recordId p) (fields p) (Some v) (maxRecords p)
      (sort p) (view p) (webhookConfig p) (attachmentData p) (extra p).

(** [p.maxRecords = v] *)
Definition set_maxRecords (v : Z) (p : t) : t :=
  mk (table p) (baseId p) (recordId p) (fields p) (filterByFormula p)
      (Some v) (sort p) (view p) (webhookConfig p) (attachmentData p) (extra p).

(** [p.webhookConfig = v] *)
Definition set_webhookConfig (v : list (string * Value)) (p : t) : t :=
  mk (table p) (baseId p) (recordId p) (fields p) (filterByFormula p)
      (maxRecords p) (sort p) (view p) (Some v) (attachmentData p) (extra p).

(** [p.attachmentData = v] *)
Definition set_attachmentData (v : list (string * Value)) (p : t) : t :=
  mk (table p) (baseId p) (recordId p) (fields p) (filterByFormula p)
      (maxRecords p) (sort p) (view p) (webhookConfig p) (Some v) (extra p).

Definition opt {A : Type} (f : A -> Value) (v : option A) : Value :=
  match v with
  | Some a => f a
  | None => VUndefined
  end.

(** [p[name]] *)
Definition get (p : t) (name : string) : Value :=
  if String.eqb name "table" then opt VString (table p)
  else if String.eqb name "baseId" then opt VString (baseId p)
  else if String.eqb name "recordId" then opt VString (recordId p)
  else if String.eqb name "fields" then opt VObject (fields p)
  else if String.eqb name "filterByFormula" then opt VString (filterByFormula p)
  else if String.eqb name "maxRecords" then opt VNumber (maxRecords p)
  else if String.eqb name "sort"
  then opt (fun l => VObject (map (fun kv => (fst kv, VString (snd kv))) l))
         (sort p)
  else if String.eqb name "view" then opt VString (view p)
  else if String.eqb name "webhookConfig" then opt VObject (webhookConfig p)
  else if String.eqb name "attachmentData" then opt VObject (attachmentData p)
  else if String.eqb name "extra" then opt VObject (extra p)
  else VUndefined.

End QueryParameters.

Module PreviousQuery.
Record t : Type := mk {
  query : string;
  intent : string;
  timestamp : option Z;
  result : option Value
}.
End PreviousQuery.

Module MentionedEntities.
Record t : Type := mk {
  tables : list string;
  fields : list string;
  records : list string
}.
End MentionedEntities.

Module ConversationPreferences.
Record t : Type := mk {
  language : string;
  dateFormat : string;
  responseFormat : string
}.
End ConversationPreferences.

Module ConversationContext.
Record t : Type := mk {
  sessionId : string;
  userId : string;
  currentBaseId : option string;
  currentTable : option string;
  currentRecordId : option string;
  previousQueries : list PreviousQuery.t;
  mentionedEntities : MentionedEntities.t;
  preferences : ConversationPreferences.t
}.
End ConversationContext.

Inductive ClarificationType : Type :=
| MISSING_TABLE
| MISSING_FIELD
| MISSING_VALUE
| AMBIGUOUS_REFERENCE
| PERMISSION_ISSUE.

Module Clarification.
Record t : Type := mk {
  question : string;
  type : ClarificationType;
  suggestions : option (list string);
  required : bool
}.
End Clarification.

Module ProcessedQuery.
Record t : Type := mk {
  intent : IntentType;
  entities : ExtractedEntities.t;
  parameters : QueryParameters.t;
  confidence : float;
  requiresClarification : bool;
  clarifications : list Clarification.t
}.
End ProcessedQuery.

Module NaturalLanguageQuery.
Record t : Type := mk {
  query : string;
  userId : option string;
  sessionId : option string
}.
End NaturalLanguageQuery.

Inductive ValidationSeverity : Type :=
| ERROR
| CRITICAL.

Module ValidationError.
Record t : Type := mk {
  field : string;
  message : string;
  code : string;
  severity : ValidationSeverity
}.
End ValidationError.

Module ValidationWarning.
Record t : Type := mk {
  field : string;
  message : string;
  code : string;
  suggestion : option string
}.
End ValidationWarning.

Module ValidationResult.
Record t : Type := mk {
  isValid : bool;
  errors : list ValidationError.t;
  warnings : list ValidationWarning.t;
  suggestions : list string
}.
End ValidationResult.

Inductive Sentiment : Type :=
| positive
| negative
| neutral.

Inductive Urgency : Type :=
| high
| medium
| low.

Module NLPConfig.
Record t : Type := mk {
  confidenceThreshold : float;
  maxContextQueries : Z;
  enableDateProcessing : bool;
  enableContextualReferences : bool;
  supportedLanguages : list string;
  synonyms : list (string * list string);
  entityPatterns : list (string * list string);
  datePatterns : list string;
  prioritySynonyms : list (string * string)
}.
End NLPConfig.

(** [SemanticAnalysis] as [semantic-analyzer.ts] declares and returns it. *)
Module SemanticAnalysis.
Record t : Type := mk {
  confidence : float;
  entities : list string;
  actions : list string;
  context : list string;
  sentiment : Sentiment;
  urgency : Urgency
}.
End SemanticAnalysis.


(** A reference the context handler has tried to resolve. *)
Module ContextReference.
Record t : Type := mk {
  referenceType : string;
  reference : string;
  resolved : bool;
  alternatives : option (list string);
  confidence : float
}.
End ContextReference.

(** [Partial<ConversationPreferences>]: the properties that are given. *)
Module PartialPreferences.
Record t : Type := mk {
  language : option string;
  dateFormat : option string;
  responseFormat : option string
}.
End PartialPreferences.

(** An entry of [recentQueries]: a history entry without its result. *)
Module RecentQuery.
Record t : Type := mk {
  query : string;
  intent : string;
  timestamp : option Z
}.
End RecentQuery.

(** What [getCurrentEntities] returns. *)
Module CurrentEntities.
Record t : Type := mk {
  currentTable : option string;
  currentRecordId : option string;
  currentBaseId : option string;
  mentionedEntities : MentionedEntities.t;
  recentQueries : list RecentQuery.t
}.
End CurrentEntities.

(** ** Exceptions

    The numbered steps of [processQuery] (the comments [// 1.] to [// 11.]
    of its body). *)
Inductive Stage : Type :=
| Normalize
| GetContext
| Analyze
| MapIntent
| ExtractEntities
| RelativeValues
| BuildParameters
| Validate
| Clarifications
| Confidence
| UpdateContext.

(** What a [catch] receives: an [Error] the program throws itself, or an
    unexpected exception of the runtime raised while a step runs. *)
Inductive Exn : Type :=
| JsError (message : string)
| Unexpected (at_ : Stage).

Inductive Result (A : Type) : Type :=
| Ok (a : A)
| Throw (e : Exn).
Arguments Ok {A} a.
Arguments Throw {A} e.

(** ** Context handler ([context-handler.ts]) *)

(** [xs.slice(start)]: a negative start counts from the end. *)
Definition slice {A : Type} (start : Z) (xs : list A) : list A :=
  let len := Z.of_nat (length xs) in
  let k := if (start <? 0)%Z then Z.max (len + start) 0
           else Z.min start len in
  skipn (Z.to_nat k) xs.

(** [if (!xs.includes(x)) xs.push(x)] *)
Definition push_new (x : string) (xs : list string) : list string :=
  if Js.mem x xs then xs else (xs ++ [x])%list.

Module QueryData.
Record t : Type := mk {
  query : string;
  intent : string;
  timestamp : option Z;
  entities : option ExtractedEntities.t;
  result : option Value
}.
End QueryData.

Module ContextHandler.
Import ConversationContext.

Record t : Type := mk {
  contexts : gmap string ConversationContext.t;
  maxContextQueries : Z
}.

(** [new ContextHandler(maxContextQueries = 10)] *)
Definition new (maxContextQueries : option Z) : t :=
  mk ∅ (default 10%Z maxContextQueries).

Definition set_contexts (m : gmap string ConversationContext.t) (h : t) : t :=
  mk m (maxContextQueries h).

Definition createNewContext (sessionId userId : string)
    : ConversationContext.t :=
  {| sessionId := sessionId;
     userId := userId;
     currentBaseId := None;
     currentTable := None;
     currentRecordId := None;
     previousQueries := [];
     mentionedEntities := MentionedEntities.mk [] [] [];
     preferences := ConversationPreferences.mk "es" "YYYY-MM-DD" "natural" |}.

Definition getContext (sessionId userId : string) (h : t)
    : ConversationContext.t * t :=
  match contexts h !! sessionId with
  | Some context => (context, h)
  | None =>
      let context := createNewContext sessionId userId in
      (context, set_contexts (<[sessionId := context]> (contexts h)) h)
  end.

Definition set_previousQueries (v : list PreviousQuery.t)
    (c : ConversationContext.t) : ConversationContext.t :=
  ConversationContext.mk (sessionId c) (userId c) (currentBaseId c)
      (currentTable c)
     (currentRecordId c) v (mentionedEntities c) (preferences c).

Definition set_mentionedEntities (v : MentionedEntities.t)
    (c : ConversationContext.t) : ConversationContext.t :=
  ConversationContext.mk (sessionId c) (userId c) (currentBaseId c)
      (currentTable c)
     (currentRecordId c) (previousQueries c) v (preferences c).

Definition set_currentTable (v : string) (c : ConversationContext.t)
    : ConversationContext.t :=
  ConversationContext.mk (sessionId c) (userId c) (currentBaseId c) (Some v)
     (currentRecordId c) (previousQueries c) (mentionedEntities c)
     (preferences c).

Definition set_currentRecordId (v : string) (c : ConversationContext.t)
    : ConversationContext.t :=
  ConversationContext.mk (sessionId c) (userId c) (currentBaseId c)
      (currentTable c)
     (Some v) (previousQueries c) (mentionedEntities c) (preferences c).

Definition set_currentBaseId (v : string) (c : ConversationContext.t)
    : ConversationContext.t :=
  ConversationContext.mk (sessionId c) (userId c) (Some v) (currentTable c)
     (currentRecordId c) (previousQueries c) (mentionedEntities c)
     (preferences c).

Definition set_preferences (v : ConversationPreferences.t)
    (c : ConversationContext.t) : ConversationContext.t :=
  ConversationContext.mk (sessionId c) (userId c) (currentBaseId c)
      (currentTable c)
     (currentRecordId c) (previousQueries c) (mentionedEntities c) v.

Definition mention_table (x : string) (c : ConversationContext.t)
    : ConversationContext.t :=
  let e := mentionedEntities c in
  set_mentionedEntities
    (MentionedEntities.mk (push_new x (MentionedEntities.tables e))
       (MentionedEntities.fields e) (MentionedEntities.records e)) c.

Definition mention_record (x : string) (c : ConversationContext.t)
    : ConversationContext.t :=
  let e := mentionedEntities c in
  set_mentionedEntities
    (MentionedEntities.mk (MentionedEntities.tables e)
       (MentionedEntities.fields e) (push_new x (MentionedEntities.records e)))
    c.

Definition mention_field (x : string) (c : ConversationContext.t)
    : ConversationContext.t :=
  let e := mentionedEntities c in
  set_mentionedEntities
    (MentionedEntities.mk (MentionedEntities.tables e)
       (push_new x (MentionedEntities.fields e)) (MentionedEntities.records e))
    c.

(** [if (v) ...] for an optional string property [v]. *)
Definition when_set (v : option string)
    (f : string -> ConversationContext.t -> ConversationContext.t)
    (c : ConversationContext.t) : ConversationContext.t :=
  match v with
  | Some x => if Js.truthy v then f x c else c
  | None => c
  end.

(** The history step of [updateContext]: push, then keep the tail. *)
Definition remember (maxContextQueries : Z) (q : PreviousQuery.t)
    (history : list PreviousQuery.t) : list PreviousQuery.t :=
  let history := (history ++ [q])%list in
  if (Z.of_nat (length history) >? maxContextQueries)%Z
  then slice (- maxContextQueries) history
  else history.

(** The history entry of a turn. *)
Definition previousQuery_of (queryData : QueryData.t) : PreviousQuery.t :=
  PreviousQuery.mk (QueryData.query queryData) (QueryData.intent queryData)
    (QueryData.timestamp queryData) (QueryData.result queryData).

Definition updateContext (sessionId : string) (queryData : QueryData.t)
    (h : t) : Result unit * t :=
  match contexts h !! sessionId with
  | None => (Throw (JsError
      ("Context not found for session: " ++ sessionId)), h)
  | Some context =>
      let previousQuery := previousQuery_of queryData in
      let context :=
        set_previousQueries
          (remember (maxContextQueries h) previousQuery
             (previousQueries context)) context in
      let context :=
        match QueryData.entities queryData with
        | None => context
        | Some entities =>
            let context :=
              when_set (ExtractedEntities.tableName entities)
                (fun tableName c => set_currentTable tableName
                                      (mention_table tableName c)) context in
            let context :=
              when_set (ExtractedEntities.recordId entities)
                (fun recordId c => mention_record recordId
                                     (set_currentRecordId recordId c))
                                         context in
            let context :=
              when_set (ExtractedEntities.baseId entities)
                set_currentBaseId context in
            when_set (ExtractedEntities.fieldName entities)
              mention_field context
        end in
      (Ok tt, set_contexts (<[sessionId := context]> (contexts h)) h)
  end.

Definition clearContext (sessionId : string) (h : t) : t :=
  set_contexts (delete sessionId (contexts h)) h.

Definition setCurrentContext (sessionId : string)
    (table recordId baseId : option string) (h : t) : t :=
  match contexts h !! sessionId with
  | None => h
  | Some context =>
      let context := when_set table set_currentTable context in
      let context := when_set recordId set_currentRecordId context in
      let context := when_set baseId set_currentBaseId context in
      set_contexts (<[sessionId := context]> (contexts h)) h
  end.

(** The current table of every stored context is [null] or a name: never
    the empty string. *)
Definition tables_named (h : t) : Prop :=
  map_Forall (fun _ context => currentTable context <> Some EmptyString)
    (contexts h).

(** [resolveReference].  The three blocks of the method test [type] against
    three different strings, so at most one of them runs; each returns or
    falls through to the last [return]. *)
Definition resolveReference (sessionId reference type : string) (h : t)
    : ContextReference.t :=
  let unresolved := ContextReference.mk type "" false None 0 in
  match contexts h !! sessionId with
  | None => unresolved
  | Some context =>
      let lowerReference := Js.toLowerCase reference in
      if String.eqb type "table" then
        if (Js.includes lowerReference "esa tabla"
            || Js.includes lowerReference "la tabla")
           && Js.truthy (currentTable context)
        then ContextReference.mk "table" (default "" (currentTable context))
               true None 0.9
        else
          let mentionedTables :=
            MentionedEntities.tables (mentionedEntities context) in
          if (0 <? length mentionedTables)%nat
          then ContextReference.mk "table" (List.last mentionedTables "")
                 true (Some (slice (-3) mentionedTables)) 0.7
          else unresolved
      else if String.eqb type "record" then
        if (Js.includes lowerReference "ese registro"
            || Js.includes lowerReference "el registro")
           && Js.truthy (currentRecordId context)
        then ContextReference.mk "record"
               (default "" (currentRecordId context)) true None 0.9
        else
          let mentionedRecords :=
            MentionedEntities.records (mentionedEntities context) in
          if (0 <? length mentionedRecords)%nat
          then ContextReference.mk "record" (List.last mentionedRecords "")
                 true (Some (slice (-3) mentionedRecords)) 0.7
          else unresolved
      else if String.eqb type "base" then
        if Js.truthy (currentBaseId context)
        then ContextReference.mk "base" (default "" (currentBaseId context))
               true None 0.9
        else unresolved
      else unresolved
  end.

Definition getCurrentEntities (sessionId : string) (h : t)
    : CurrentEntities.t :=
  match contexts h !! sessionId with
  | None => CurrentEntities.mk None None None (MentionedEntities.mk [] [] []) []
  | Some context =>
      CurrentEntities.mk (currentTable context) (currentRecordId context)
        (currentBaseId context) (mentionedEntities context)
        (map (fun q => RecentQuery.mk (PreviousQuery.query q)
                         (PreviousQuery.intent q) (PreviousQuery.timestamp q))
           (slice (-5) (previousQueries context)))
  end.

(** [{ ...old, ...given }] *)
Definition merge (old : ConversationPreferences.t)
    (given : PartialPreferences.t) : ConversationPreferences.t :=
  ConversationPreferences.mk
    (default (ConversationPreferences.language old)
       (PartialPreferences.language given))
    (default (ConversationPreferences.dateFormat old)
       (PartialPreferences.dateFormat given))
    (default (ConversationPreferences.responseFormat old)
       (PartialPreferences.responseFormat given)).

Definition updatePreferences (sessionId : string)
    (given : PartialPreferences.t) (h : t) : t :=
  match contexts h !! sessionId with
  | None => h
  | Some context =>
      let context :=
        set_preferences (merge (preferences context) given) context in
      set_contexts (<[sessionId := context]> (contexts h)) h
  end.

Definition getContextualTableSuggestion (sessionId : string) (h : t)
    : option string :=
  match contexts h !! sessionId with
  | None => None
  | Some context =>
      if Js.truthy (currentTable context) then currentTable context
      else
        let mentionedTables :=
          MentionedEntities.tables (mentionedEntities context) in
        if (0 <? length mentionedTables)%nat
        then Some (List.last mentionedTables "")
        else None
  end.

Definition getContextualRecordSuggestion (sessionId : string) (h : t)
    : option string :=
  match contexts h !! sessionId with
  | None => None
  | Some context =>
      if Js.truthy (currentRecordId context) then currentRecordId context
      else
        let mentionedRecords :=
          MentionedEntities.records (mentionedEntities context) in
        if (0 <? length mentionedRecords)%nat
        then Some (List.last mentionedRecords "")
        else None
  end.

(** [findRecentQueryByIntent(sessionId, intent, limit = 3)] *)
Definition findRecentQueryByIntent (sessionId intent : string)
    (limit : option Z) (h : t) : list PreviousQuery.t :=
  match contexts h !! sessionId with
  | None => []
  | Some context =>
      slice (- default 3%Z limit)
        (filter (fun query => String.eqb (PreviousQuery.intent query) intent)
           (previousQueries context))
  end.

(** The names a context has collected are told apart: no list of mentioned
    names holds a name twice, and none holds the empty string. *)
Definition names_ok (names : list string) : Prop :=
  NoDup names /\ EmptyString ∉ names.

Definition mentions_ok (h : t) : Prop :=
  map_Forall
    (fun _ context =>
       let mentioned := mentionedEntities context in
       names_ok (MentionedEntities.tables mentioned)
       /\ names_ok (MentionedEntities.records mentioned)
       /\ names_ok (MentionedEntities.fields mentioned))
    (contexts h).

End ContextHandler.

(** ** Intent mapper ([intent-mapper.ts]) *)

Module IntentMapper.
Import RegExp.

(** The mapper's only field: [intentPatterns], a [Map] from intent to
    [RegExp] objects, in insertion order.  The objects are created once, in
    the constructor, and every one of them carries the [g] flag, so each
    keeps its own [lastIndex] from one [test] to the next. *)
Record t : Type := mk {
  intentPatterns : list (IntentType * list RegExp.t)
}.

Definition initializePatterns : list (IntentType * list RegExp.t) :=
   [
    (LIST_BASES,
     (* /listar\s+(todas\s+mis\s+)?bases\s+airtable\s+accesibles/gi *)
     [re_gi (Cat [Lit "listar"; sp; Opt (Group 1 (Cat [ph "todas mis"; sp]));
         ph "bases airtable accesibles"]);
     (* /mostrarme\s+todas\s+mis\s+bases/gi *)
      re_gi (ph "mostrarme todas mis bases");
     (* /que'\s+bases\s+tengo\s+accesibles/gi *)
      re_gi (ph ("qu" ++ Js.e' ++ " bases tengo accesibles"));
     (* /listar\s+bases/gi *)
      re_gi (ph "listar bases")]);
    (LIST_RECORDS,
     (* /mostrarme\s+todos\s+los\s+registros\s+(?:en|en\s+la)\s+tabla\s+\w+/gi *)
     [re_gi (Cat [ph "mostrarme todos los registros"; sp; Or [Lit "en";
         ph "en la"]; sp; Lit "tabla"; sp; word]);
     (* /listar\s+registros\s+(?:de|en)\s+\w+/gi *)
      re_gi (Cat [ph "listar registros"; sp; Or [Lit "de"; Lit "en"]; sp;
          word]);
     (* /ver\s+registros\s+de\s+\w+/gi *)
      re_gi (Cat [ph "ver registros de"; sp; word]);
     (* /obtener\s+registros\s+de\s+\w+/gi *)
      re_gi (Cat [ph "obtener registros de"; sp; word])]);
    (CREATE_RECORD,
     (* /crear\s+(?:una\s+)?nueva\s+tarea/gi *)
     [re_gi (Cat [Lit "crear"; sp; Opt (Cat [Lit "una"; sp]);
         ph "nueva tarea"]);
     (* /crear\s+registro\s+nuevo/gi *)
      re_gi (ph "crear registro nuevo");
     (* /agregar\s+registro/gi *)
      re_gi (ph "agregar registro");
     (* /insertar\s+registro/gi *)
      re_gi (ph "insertar registro");
     (* /an'adir\s+nuevo\s+registro/gi *)
      re_gi (ph ("a" ++ Js.n' ++ "adir nuevo registro"))]);
    (UPDATE_RECORD,
     (* /actualizar\s+(?:el\s+)?estado\s+de\s+(?:la\s+)?tarea/gi *)
     [re_gi (Cat [Lit "actualizar"; sp; Opt (Cat [Lit "el"; sp]);
         ph "estado de"; sp; Opt (Cat [Lit "la"; sp]); Lit "tarea"]);
     (* /cambiar\s+estado\s+de/gi *)
      re_gi (ph "cambiar estado de");
     (* /modificar\s+registro/gi *)
      re_gi (ph "modificar registro");
     (* /editar\s+registro/gi *)
      re_gi (ph "editar registro");
     (* /actualizar\s+registro/gi *)
      re_gi (ph "actualizar registro")]);
    (DELETE_RECORD,
     (* /eliminar\s+(?:todos\s+los\s+)?registros\s+donde\s+el\s+estado\s+sea/gi *)
     [re_gi (Cat [Lit "eliminar"; sp; Opt (Cat [ph "todos los"; sp]);
         ph "registros donde el estado sea"]);
     (* /borrar\s+registros\s+con\s+estado/gi *)
      re_gi (ph "borrar registros con estado");
     (* /suprimir\s+registros/gi *)
      re_gi (ph "suprimir registros");
     (* /eliminar\s+registros/gi *)
      re_gi (ph "eliminar registros")]);
    (SEARCH_RECORDS,
     (* /buscar\s+registros\s+donde\s+\w+\s+sea\s+igual\s+a/gi *)
     [re_gi (Cat [ph "buscar registros donde"; sp; word; sp; ph "sea igual a"]);
     (* /filtrar\s+registros\s+por/gi *)
      re_gi (ph "filtrar registros por");
     (* /encontrar\s+registros\s+con/gi *)
      re_gi (ph "encontrar registros con");
     (* /buscar\s+registros\s+que/gi *)
      re_gi (ph "buscar registros que")]);
    (LIST_TABLES,
     (* /que'\s+tablas\s+hay\s+en\s+mi\s+base/gi *)
     [re_gi (ph ("qu" ++ Js.e' ++ " tablas hay en mi base"));
     (* /mostrar\s+tablas\s+de\s+la\s+base/gi *)
      re_gi (ph "mostrar tablas de la base");
     (* /listar\s+tablas/gi *)
      re_gi (ph "listar tablas");
     (* /que'\s+tablas\s+tengo/gi *)
      re_gi (ph ("qu" ++ Js.e' ++ " tablas tengo"))]);
    (CREATE_WEBHOOK,
     (* /crear\s+un\s+webhook\s+para\s+mi\s+tabla/gi *)
     [re_gi (ph "crear un webhook para mi tabla");
     (* /crear\s+webhook/gi *)
      re_gi (ph "crear webhook");
     (* /configurar\s+webhook/gi *)
      re_gi (ph "configurar webhook");
     (* /establecer\s+webhook/gi *)
      re_gi (ph "establecer webhook")]);
    (LIST_WEBHOOKS,
     (* /listar\s+todos\s+los\s+webhooks\s+activos/gi *)
     [re_gi (ph "listar todos los webhooks activos");
     (* /mostrar\s+webhooks/gi *)
      re_gi (ph "mostrar webhooks");
     (* /ver\s+webhooks/gi *)
      re_gi (ph "ver webhooks");
     (* /que'\s+webhooks\s+tengo/gi *)
      re_gi (ph ("qu" ++ Js.e' ++ " webhooks tengo"))]);
    (DELETE_WEBHOOK,
     (* /eliminar\s+webhook\s+\w+/gi *)
     [re_gi (Cat [ph "eliminar webhook"; sp; word]);
     (* /borrar\s+webhook/gi *)
      re_gi (ph "borrar webhook");
     (* /remover\s+webhook/gi *)
      re_gi (ph "remover webhook")]);
    (GET_BASE_SCHEMA,
     (* /mostrarme\s+el\s+esquema\s+completo\s+para\s+(?:esta|la)\s+base/gi *)
     [re_gi (Cat [ph "mostrarme el esquema completo para"; sp;
         Or [Lit "esta"; Lit "la"]; sp; Lit "base"]);
     (* /obtener\s+esquema\s+de\s+base/gi *)
      re_gi (ph "obtener esquema de base");
     (* /describir\s+base/gi *)
      re_gi (ph "describir base")]);
    (DESCRIBE_TABLE,
     (* /describir\s+la\s+tabla\s+\w+\s+con\s+todos\s+los\s+detalles\s+de\s+campo/gi *)
     [re_gi (Cat [ph "describir la tabla"; sp; word; sp;
         ph "con todos los detalles de campo"]);
     (* /mostrar\s+estructura\s+de\s+tabla/gi *)
      re_gi (ph "mostrar estructura de tabla");
     (* /ver\s+campos\s+de\s+tabla/gi *)
      re_gi (ph "ver campos de tabla")]);
    (CREATE_TABLE,
     (* /crear\s+una\s+nueva\s+tabla\s+llamada\s+\w+/gi *)
     [re_gi (Cat [ph "crear una nueva tabla llamada"; sp; word]);
     (* /crear\s+tabla\s+nueva/gi *)
      re_gi (ph "crear tabla nueva");
     (* /an'adir\s+tabla/gi *)
      re_gi (ph ("a" ++ Js.n' ++ "adir tabla"))]);
    (CREATE_FIELD,
     (* /agregar\s+un\s+campo\s+de\s+\w+\s+a\s+la\s+tabla/gi *)
     [re_gi (Cat [ph "agregar un campo de"; sp; word; sp; ph "a la tabla"]);
     (* /an'adir\s+campo/gi *)
      re_gi (ph ("a" ++ Js.n' ++ "adir campo"));
     (* /crear\s+campo/gi *)
      re_gi (ph "crear campo")]);
    (LIST_FIELD_TYPES,
     (* /que'\s+tipos\s+de\s+campos\s+esta'n\s+disponibles\s+en\s+airtable/gi *)
     [re_gi (ph
         ("qu" ++ Js.e' ++ " tipos de campos est" ++ Js.a' ++ "n disponibles en airtable"));
     (* /tipos\s+de\s+campos\s+disponibles/gi *)
      re_gi (ph "tipos de campos disponibles");
     (* /campos\s+disponibles/gi *)
      re_gi (ph "campos disponibles")]);
    (BATCH_CREATE_RECORDS,
     (* /crear\s+\d+\s+registros\s+nuevos\s+a\s+la\s+vez/gi *)
     [re_gi (Cat [Lit "crear"; sp; digits; sp; ph "registros nuevos a la vez"]);
     (* /crear\s+mu'ltiples\s+registros/gi *)
      re_gi (ph ("crear m" ++ Js.u' ++ "ltiples registros"));
     (* /an'adir\s+varios\s+registros/gi *)
      re_gi (ph ("a" ++ Js.n' ++ "adir varios registros"))]);
    (BATCH_UPDATE_RECORDS,
     (* /actualizar\s+mu'ltiples\s+registros/gi *)
     [re_gi (ph ("actualizar m" ++ Js.u' ++ "ltiples registros"));
     (* /modificar\s+varios\s+registros/gi *)
      re_gi (ph "modificar varios registros");
     (* /cambiar\s+varios\s+registros/gi *)
      re_gi (ph "cambiar varios registros")]);
    (BATCH_DELETE_RECORDS,
     (* /eliminar\s+estos\s+\d+\s+registros\s+en\s+una\s+operacio'n/gi *)
     [re_gi (Cat [ph "eliminar estos"; sp; digits; sp; ph
         ("registros en una operaci" ++ Js.o' ++ "n")]);
     (* /borrar\s+mu'ltiples\s+registros/gi *)
      re_gi (ph ("borrar m" ++ Js.u' ++ "ltiples registros"));
     (* /eliminar\s+varios\s+registros/gi *)
      re_gi (ph "eliminar varios registros")]);
    (UPLOAD_ATTACHMENT,
     (* /adjuntar\s+esta\s+url\s+de\s+imagen/gi *)
     [re_gi (ph "adjuntar esta url de imagen");
     (* /subir\s+archivo/gi *)
      re_gi (ph "subir archivo");
     (* /adjuntar\s+archivo/gi *)
      re_gi (ph "adjuntar archivo");
     (* /an'adir\s+adjunto/gi *)
      re_gi (ph ("a" ++ Js.n' ++ "adir adjunto"))]);
    (LIST_COLLABORATORS,
     (* /quie'nes\s+son\s+los\s+colaboradores\s+en\s+esta\s+base/gi *)
     [re_gi (ph ("qui" ++ Js.e' ++ "nes son los colaboradores en esta base"));
     (* /mostrar\s+colaboradores/gi *)
      re_gi (ph "mostrar colaboradores");
     (* /ver\s+colaboradores/gi *)
      re_gi (ph "ver colaboradores")]);
    (LIST_SHARES,
     (* /mostrarme\s+todas\s+las\s+vistas\s+compartidas\s+en\s+esta\s+base/gi *)
     [re_gi (ph "mostrarme todas las vistas compartidas en esta base");
     (* /ver\s+vistas\s+compartidas/gi *)
      re_gi (ph "ver vistas compartidas");
     (* /mostrar\s+compartidos/gi *)
      re_gi (ph "mostrar compartidos")]);
    (ANALYZE_DATA,
     (* /analizar\s+datos\s+de/gi *)
     [re_gi (ph "analizar datos de");
     (* /analizar\s+tabla/gi *)
      re_gi (ph "analizar tabla");
     (* /estudiar\s+datos/gi *)
      re_gi (ph "estudiar datos")])
   ].

(** [new IntentMapper()] *)
Definition new : t := mk initializePatterns.

(** The inner loop of [mapIntent]: [test] the patterns in order and stop at
    the first that matches; every pattern tested gets its new
    [lastIndex]. *)
Fixpoint test_patterns (patterns : list RegExp.t) (query : string)
    : bool * list RegExp.t :=
  match patterns with
  | [] => (false, [])
  | pattern :: others =>
      let '(hit, pattern') := RegExp.test pattern query in
      if hit then (true, pattern' :: others)
      else let '(found, others') := test_patterns others query in
           (found, pattern' :: others')
  end.

(** The outer loop: the first intent one of whose patterns matches. *)
Fixpoint scan (entries : list (IntentType * list RegExp.t)) (query : string)
    : option IntentType * list (IntentType * list RegExp.t) :=
  match entries with
  | [] => (None, [])
  | (intent, patterns) :: others =>
      let '(hit, patterns') := test_patterns patterns query in
      if hit then (Some intent, (intent, patterns') :: others)
      else let '(found, others') := scan others query in
           (found, (intent, patterns') :: others')
  end.

(** [keywords.some(keyword => query.includes(keyword))] *)
Definition some_included (keywords : list string) (query : string) : bool :=
  existsb (Js.includes query) keywords.

Definition actionKeywords : list string :=
  ["crear"; "nuevo"; "a" ++ Js.n' ++ "adir"; "insertar"; "agregar"].
Definition displayKeywords : list string :=
  ["mostrar"; "listar"; "ver"; "obtener"].
Definition updateKeywords : list string :=
  ["actualizar"; "modificar"; "cambiar"; "editar"].
Definition deleteKeywords : list string :=
  ["eliminar"; "borrar"; "suprimir"; "remover"].

(** The keyword analysis at the end of [mapIntent]. *)
Definition by_keywords (query : string) : IntentType :=
  if some_included actionKeywords query then
    if Js.includes query "tabla" then CREATE_TABLE
    else if Js.includes query "campo" then CREATE_FIELD
    else CREATE_RECORD
  else if some_included displayKeywords query then
    if Js.includes query "base" then LIST_BASES
    else if Js.includes query "tabla" || Js.includes query "tablas"
    then LIST_TABLES
    else if Js.includes query "webhook" then LIST_WEBHOOKS
    else LIST_RECORDS
  else if some_included updateKeywords query then UPDATE_RECORD
  else if some_included deleteKeywords query then
    if Js.includes query "webhook" then DELETE_WEBHOOK else DELETE_RECORD
  else UNKNOWN.

(** The two rules that read the context; [None] when neither decides. *)
Definition by_context (query : string) (context : ConversationContext.t)
    : option IntentType :=
  let table_rule :=
    if Js.includes query "esa tabla"
       && Js.truthy (ConversationContext.currentTable context)
    then
      if Js.includes query "mostrar" || Js.includes query "ver"
         || Js.includes query "obtener"
      then Some LIST_RECORDS
      else if Js.includes query "crear"
              || Js.includes query ("a" ++ Js.n' ++ "adir")
      then Some CREATE_RECORD
      else None
    else None in
  match table_rule with
  | Some intent => Some intent
  | None =>
      if Js.includes query "ese registro"
         && Js.truthy (ConversationContext.currentRecordId context)
      then
        if Js.includes query "actualizar" || Js.includes query "cambiar"
           || Js.includes query "modificar"
        then Some UPDATE_RECORD
        else if Js.includes query "eliminar" || Js.includes query "borrar"
        then Some DELETE_RECORD
        else None
      else None
  end.

Definition mapIntent (query : string) (semanticAnalysis : SemanticAnalysis.t)
    (context : ConversationContext.t) (mapper : t) : IntentType * t :=
  let '(found, patterns') := scan (intentPatterns mapper) query in
  let intent :=
    match found with
    | Some intent => intent
    | None =>
        match by_context query context with
        | Some intent => intent
        | None => by_keywords query
        end
    end in
  (intent, mk patterns').

(** [xs.includes(intent)] on an array of intents. *)
Definition includes_intent (xs : list IntentType) (intent : IntentType)
    : bool :=
  existsb (intent_is intent) xs.

Definition requiresTable (intent : IntentType) : bool :=
  includes_intent
    [LIST_RECORDS; CREATE_RECORD; UPDATE_RECORD; DELETE_RECORD;
     SEARCH_RECORDS; DESCRIBE_TABLE; CREATE_FIELD; CREATE_WEBHOOK;
     BATCH_CREATE_RECORDS; BATCH_UPDATE_RECORDS; BATCH_DELETE_RECORDS;
     UPLOAD_ATTACHMENT] intent.

Definition requiresRecordId (intent : IntentType) : bool :=
  includes_intent
    [UPDATE_RECORD; DELETE_RECORD; GET_RECORD; UPLOAD_ATTACHMENT] intent.

(** The table of [getToolName], from intent to tool. *)
Definition toolMapping : list (IntentType * string) :=
  [(LIST_BASES, "list_bases"); (LIST_RECORDS, "list_records");
   (CREATE_RECORD, "create_record"); (UPDATE_RECORD, "update_record");
   (DELETE_RECORD, "delete_record"); (SEARCH_RECORDS, "search_records");
   (LIST_TABLES, "list_tables"); (GET_RECORD, "get_record");
   (CREATE_WEBHOOK, "create_webhook"); (LIST_WEBHOOKS, "list_webhooks");
   (DELETE_WEBHOOK, "delete_webhook");
   (GET_WEBHOOK_PAYLOADS, "get_webhook_payloads");
   (GET_BASE_SCHEMA, "get_base_schema"); (DESCRIBE_TABLE, "describe_table");
   (CREATE_TABLE, "create_table"); (DELETE_TABLE, "delete_table");
   (UPDATE_TABLE, "update_table"); (CREATE_FIELD, "create_field");
   (DELETE_FIELD, "delete_field"); (UPDATE_FIELD, "update_field");
   (LIST_FIELD_TYPES, "list_field_types");
   (BATCH_CREATE_RECORDS, "batch_create_records");
   (BATCH_UPDATE_RECORDS, "batch_update_records");
   (BATCH_DELETE_RECORDS, "batch_delete_records");
   (BATCH_UPSERT_RECORDS, "batch_upsert_records");
   (UPLOAD_ATTACHMENT, "upload_attachment");
   (LIST_COLLABORATORS, "list_collaborators"); (LIST_SHARES, "list_shares");
   (CREATE_VIEW, "create_view"); (GET_VIEW_METADATA, "get_view_metadata");
   (GET_TABLE_VIEWS, "get_table_views"); (CREATE_BASE, "create_base");
   (ANALYZE_DATA, "analyze_data"); (CREATE_REPORT, "create_report");
   (DATA_INSIGHTS, "data_insights"); (OPTIMIZE_WORKFLOW, "optimize_workflow");
   (SMART_SCHEMA_DESIGN, "smart_schema_design");
   (DATA_QUALITY_AUDIT, "data_quality_audit");
   (PREDICTIVE_ANALYTICS, "predictive_analytics");
   (NATURAL_LANGUAGE_QUERY, "natural_language_query");
   (SMART_DATA_TRANSFORMATION, "smart_data_transformation");
   (AUTOMATION_RECOMMENDATIONS, "automation_recommendations");
   (UNKNOWN, "unknown")].

(** [toolMapping[intent] || 'unknown'] *)
Definition getToolName (intent : IntentType) : string :=
  match List.find (fun entry => intent_is intent (fst entry)) toolMapping with
  | Some entry =>
      if Js.truthy (Some (snd entry)) then snd entry else "unknown"
  | None => "unknown"
  end.


(** Every pattern stands at the start of its input, as in a new mapper. *)
Definition at_rest (mapper : t) : Prop :=
  Forall
    (fun entry =>
       Forall (fun pattern => lastIndex pattern = 0%nat) (snd entry))
    (intentPatterns mapper).

End IntentMapper.

(** ** Numbers *)

Module Num.

(** [Math.min(a, b)] *)
Definition min (a b : float) : float :=
  if PrimFloat.is_nan a || PrimFloat.is_nan b then PrimFloat.nan
  else if PrimFloat.ltb a b then a
  else if PrimFloat.ltb b a then b
  else if PrimFloat.get_sign a then a else b.

(** A length as a number. *)
Definition of_nat (n : nat) : float :=
  PrimFloat.of_uint63 (Uint63.of_Z (Z.of_nat n)).

(** [0 <= c <= 1] *)
Definition in_unit (c : float) : Prop :=
  PrimFloat.leb 0 c = true /\ PrimFloat.leb c 1 = true.

End Num.

(** ** Semantic analyzer ([semantic-analyzer.ts]) *)

Module SemanticAnalyzer.
Import RegExp.

Definition actionWords : list string :=
  ["crear"; "mostrar"; "listar"; "ver"; "obtener"; "buscar"; "filtrar";
   "actualizar"; "modificar"; "cambiar"; "editar"; "eliminar"; "borrar";
   "agregar"; "a" ++ Js.n' ++ "adir"; "insertar"; "subir"; "adjuntar"].

Definition contextWords : list string :=
  ["tabla"; "registro"; "base"; "campo"; "webhook"; "archivo"; "imagen";
   "proyecto"; "tarea"; "estado"; "prioridad"; "fecha"; "vencimiento"].

Definition entityPatterns : list RegExp.t :=
  [ (* /\b[A-Z][a-z<letters_es>\s]+\b/g *)
    re_g (Cat [WordB; Class false [CRange "A" "Z"];
               Plus true (Class false
                   (CRange "a" "z" :: letters_es ++ [CSpace]));
               WordB]);
    (* /\b[A-Z]{2,}\b/g *)
    re_g (Cat [WordB; Class false [CRange "A" "Z"];
               Class false [CRange "A" "Z"];
               Star true (Class false [CRange "A" "Z"]); WordB]);
    (* /\b[a-z<letters_es>_][a-zA-Z0-9<letters_es>_]*\b/g *)
    re_g (Cat [WordB;
               Class false (CRange "a" "z" :: letters_es ++ [CChar "_"]);
               Star true
                 (Class false
                    (CRange "a" "z" :: CRange "A" "Z" :: CRange "0" "9"
                     :: letters_es ++ [CChar "_"]));
               WordB]) ].

Definition isCommonWord (word : string) : bool :=
  Js.mem word
    ["una"; "un"; "el"; "la"; "de"; "en"; "con"; "para"; "por"; "sobre";
     "esta"; "este"; "esa"; "ese"; "todas"; "todos"; "todos"; "que";
     "donde"].

Definition extractNamedEntities (query : string) : list string :=
  Js.dedupe
    (flat_map
       (fun pattern =>
          match match_g query pattern with
          | Some matches =>
              filter (fun found => (2 <? String.length found)%nat
                                   && negb (isCommonWord
                                       (Js.toLowerCase found)))
                matches
          | None => []
          end)
       entityPatterns).

(** [words.filter(word => list.includes(word))] *)
Definition among (known words : list string) : list string :=
  filter (fun word => Js.mem word known) words.

Definition analyzeSentiment (words : list string) : Sentiment :=
  let positiveWords := ["bueno"; "excelente"; "perfecto"; "correcto"; "bien"] in
  let negativeWords := ["malo"; "incorrecto"; "error"; "problema"; "fallo"] in
  let positiveCount := length (among positiveWords words) in
  let negativeCount := length (among negativeWords words) in
  if (negativeCount <? positiveCount)%nat then positive
  else if (positiveCount <? negativeCount)%nat then negative
  else neutral.

Definition analyzeUrgency (words : list string) (entities : list string)
    : Urgency :=
  let urgentWords :=
    ["urgente"; "r" ++ Js.a' ++ "pido"; "inmediato"; "ahora"; "ya"] in
  let mediumWords :=
    ["pronto"; "r" ++ Js.a' ++ "pido"; "pr" ++ Js.o' ++ "ximo"] in
  let hasUrgent := existsb (fun word => Js.mem word urgentWords) words in
  let hasMedium := existsb (fun word => Js.mem word mediumWords) words in
  if hasUrgent then high else if hasMedium then medium else low.

Definition calculateConfidence (actions entities contextWords : list string)
    : float :=
  let confidence := 0.3%float in
  let confidence :=
    (confidence + Num.min (Num.of_nat (length actions) * 0.2) 0.4)%float in
  let confidence :=
    (confidence + Num.min (Num.of_nat (length entities) * 0.1) 0.3)%float in
  let confidence :=
    (confidence + Num.min (Num.of_nat (length contextWords) * 0.1) 0.2)%float in
  Num.min confidence 1.0%float.

Definition analyze (query : string) (context : ConversationContext.t)
    : SemanticAnalysis.t :=
  let words := split (Js.toLowerCase query) (re sp) in
  let actions := among actionWords words in
  let contextEntities := among contextWords words in
  let entities := extractNamedEntities query in
  let sentiment := analyzeSentiment words in
  let urgency := analyzeUrgency words entities in
  let confidence := calculateConfidence actions entities contextEntities in
  SemanticAnalysis.mk confidence entities actions contextEntities sentiment
    urgency.

End SemanticAnalyzer.

(** ** Validation engine ([validation-engine.ts]) *)

Module ValidationEngine.
Import RegExp.

Inductive RuleType : Type :=
| required
| optional
| conditional.

Module ValidationRule.
Record t : Type := mk {
  parameter : string;
  type : RuleType;
  validation : Value -> bool;
  errorMessage : string
}.
End ValidationRule.
Import ValidationRule.

(** [value && typeof value === 'string' && value.trim().length > 0] *)
Definition nonEmptyString (value : Value) : bool :=
  match value with
  | VString v => Js.truthy (Some v) && (0 <? String.length (Js.trim v))%nat
  | _ => false
  end.

(** [value && typeof value === 'object' && Object.keys(value).length > 0] *)
Definition nonEmptyObject (value : Value) : bool :=
  match value with
  | VObject props => (0 <? length props)%nat
  | _ => false
  end.

(** [value && typeof value === 'object' && value[name]] *)
Definition objectWith (name : string) (value : Value) : bool :=
  match value with
  | VObject props => truthy_value (prop name props)
  | _ => false
  end.

(** [if (!value) return true;
     return typeof value === 'number' && value > 0 && value <= 10] *)
Definition batchSize (value : Value) : bool :=
  if negb (truthy_value value) then true
  else match value with
       | VNumber n => (0 <? n)%Z && (n <=? 10)%Z
       | _ => false
       end.

Definition tableRule : ValidationRule.t :=
  ValidationRule.mk "table" required nonEmptyString
    "El nombre de la tabla es requerido".

Definition recordIdRule : ValidationRule.t :=
  ValidationRule.mk "recordId" required nonEmptyString
    "El ID del registro es requerido".

(** [initializeValidationRules]: the rules of each intent that has any. *)
Definition validationRules : list (IntentType * list ValidationRule.t) :=
  [ (LIST_RECORDS, [tableRule]);
    (CREATE_RECORD,
     [tableRule;
      ValidationRule.mk "fields" required nonEmptyObject
        "Se requiere al menos un campo para crear el registro"]);
    (UPDATE_RECORD,
     [tableRule; recordIdRule;
      ValidationRule.mk "fields" required nonEmptyObject
        "Se requiere al menos un campo para actualizar"]);
    (DELETE_RECORD, [tableRule; recordIdRule]);
    (CREATE_WEBHOOK,
     [tableRule;
      ValidationRule.mk "webhookConfig" required (objectWith "notificationUrl")
        ("La configuraci" ++ Js.o' ++ "n del webhook es requerida")]);
    (UPLOAD_ATTACHMENT,
     [tableRule; recordIdRule;
      ValidationRule.mk "attachmentData" required (objectWith "url")
        "Los datos del adjunto son requeridos"]);
    (BATCH_CREATE_RECORDS,
     [tableRule;
      ValidationRule.mk "maxRecords" conditional batchSize
        ("El n" ++ Js.u' ++ "mero de registros debe estar entre 1 y 10")]) ].

(** [this.validationRules.get(intent) || []] *)
Definition rules_of (intent : IntentType) : list ValidationRule.t :=
  match List.find (fun entry => intent_is intent (fst entry))
      validationRules with
  | Some entry => snd entry
  | None => []
  end.

(** [obj && obj[name]] for an optional object. *)
Definition sub (obj : option (list (string * Value))) (name : string)
    : Value :=
  match obj with
  | Some props => prop name props
  | None => VUndefined
  end.

Definition getParameterValue (parameters : QueryParameters.t)
    (paramName : string) : Value :=
  or_value (QueryParameters.get parameters paramName)
    (or_value (sub (QueryParameters.fields parameters) paramName)
       (or_value (sub (QueryParameters.webhookConfig parameters) paramName)
          (sub (QueryParameters.attachmentData parameters) paramName))).

(** [/^https?:\/\/[^\s/$.?#].[^\s]*$/i.test(url)] *)
Definition isValidUrl (url : string) : bool :=
  fst (test
         (re_i (Cat [Bol; Lit "http"; Opt (Chr "s"); Lit "://";
                     Class true [CSpace; CChar "/"; CChar "$"; CChar ".";
                                 CChar "?"; CChar "#"];
                     Dot; Star true (Class true [CSpace]); Eol]))
         url).

(** [/^[a-zA-Z<letters_es>][a-zA-Z0-9<letters_es>\s_-]*$/.test(table)] *)
Definition tableNamePattern : RegExp.t :=
  re (Cat [Bol;
           Class false (CRange "a" "z" :: CRange "A" "Z" :: letters_es);
           Star true
             (Class false
                (CRange "a" "z" :: CRange "A" "Z" :: CRange "0" "9"
                 :: letters_es ++ [CSpace; CChar "_"; CChar "-"]));
           Eol]).

(** [/^[a-zA-Z0-9]+$/.test(recordId)] *)
Definition recordIdPattern : RegExp.t :=
  re (Cat [Bol;
           Plus true
             (Class false [CRange "a" "z"; CRange "A" "Z"; CRange "0" "9"]);
           Eol]).

(** The string a value is tested as. *)
Definition text (v : Value) : string :=
  match v with
  | VString x => x
  | VUndefined => "undefined"
  | VNumber n => DecimalString.NilZero.string_of_int (Z.to_int n)
  | VObject _ => "[object Object]"
  end.

Definition error (field message code : string) : ValidationError.t :=
  ValidationError.mk field message code ERROR.

(** [cond ? [x] : []], for the conditional pushes. *)
Definition pushed {A : Type} (cond : bool) (x : A) : list A :=
  if cond then [x] else [].

Definition performAdditionalValidations (intent : IntentType)
    (parameters : QueryParameters.t) (context : ConversationContext.t)
    : ValidationResult.t :=
  let notificationUrl :=
    sub (QueryParameters.webhookConfig parameters) "notificationUrl" in
  let url := sub (QueryParameters.attachmentData parameters) "url" in
  let table := QueryParameters.table parameters in
  let recordId := QueryParameters.recordId parameters in
  let errors :=
    (pushed (intent_is intent CREATE_WEBHOOK && truthy_value notificationUrl
             && negb (isValidUrl (text notificationUrl)))
       (error "webhookConfig.notificationUrl"
          ("La URL del webhook no es v" ++ Js.a' ++ "lida")
          "INVALID_WEBHOOK_URL") ++
     pushed (intent_is intent UPLOAD_ATTACHMENT && truthy_value url
             && negb (isValidUrl (text url)))
       (error "attachmentData.url"
          ("La URL del adjunto no es v" ++ Js.a' ++ "lida")
          "INVALID_ATTACHMENT_URL") ++
     pushed (Js.truthy table
             && (50 <? String.length (default "" table))%nat)
       (error "table" "El nombre de la tabla es demasiado largo"
          "TABLE_NAME_TOO_LONG") ++
     pushed (Js.truthy table
             && negb (fst (test tableNamePattern (default "" table))))
       (error "table"
          ("El nombre de la tabla contiene caracteres no v" ++ Js.a'
           ++ "lidos")
          "INVALID_TABLE_NAME") ++
     pushed (Js.truthy recordId
             && negb (fst (test recordIdPattern (default "" recordId))))
       (error "recordId" ("El ID del registro no es v" ++ Js.a' ++ "lido")
          "INVALID_RECORD_ID"))%list in
  let warnings :=
    pushed (Js.includes (intent_value intent) "batch_"
            && match QueryParameters.maxRecords parameters with
               | Some n => negb (n =? 0)%Z && (10 <? n)%Z
               | None => false
               end)
      (ValidationWarning.mk "maxRecords"
         ("El tama" ++ Js.n'
          ++ "o del lote es mayor a 10, se recomienda usar un valor menor")
         "LARGE_BATCH_SIZE"
         (Some ("Usar un tama" ++ Js.n'
                ++ "o de lote de 10 o menos para mejor rendimiento"))) in
  ValidationResult.mk (0 =? length errors)%nat errors warnings [].

(** The errors one rule contributes. *)
Definition check (parameters : QueryParameters.t) (rule : ValidationRule.t)
    : list ValidationError.t :=
  let value := getParameterValue parameters (parameter rule) in
  match type rule with
  | required =>
      pushed (negb (truthy_value value))
        (error (parameter rule) (errorMessage rule)
           ("MISSING_" ++ Js.toUpperCase (parameter rule)))
  | conditional =>
      pushed (truthy_value value && negb (validation rule value))
        (error (parameter rule) (errorMessage rule)
           ("INVALID_" ++ Js.toUpperCase (parameter rule)))
  | optional => []
  end.

Definition validate (intent : IntentType) (parameters : QueryParameters.t)
    (context : ConversationContext.t) : ValidationResult.t :=
  let rules := rules_of intent in
  let additionalValidation :=
    performAdditionalValidations intent parameters context in
  let errors :=
    (flat_map (check parameters) rules
     ++ ValidationResult.errors additionalValidation)%list in
  ValidationResult.mk (0 =? length errors)%nat errors
    (ValidationResult.warnings additionalValidation)
    (ValidationResult.suggestions additionalValidation).

(** [validatePermissions]: permissions are not checked yet; both branches
    grant. *)
Definition validatePermissions (intent : IntentType)
    (context : ConversationContext.t) : bool * option string :=
  let sensitiveIntents :=
    [DELETE_RECORD; DELETE_WEBHOOK; CREATE_TABLE; DELETE_TABLE; CREATE_FIELD;
     DELETE_FIELD] in
  if existsb (intent_is intent) sensitiveIntents then (true, None)
  else (true, None).

(** [generateSuggestions]: a [switch] on the error's code. *)
Definition generateSuggestions (error : ValidationError.t)
    (context : ConversationContext.t) : list string :=
  let code := ValidationError.code error in
  if String.eqb code "MISSING_TABLE" then
    let tables :=
      MentionedEntities.tables
        (ConversationContext.mentionedEntities context) in
    if (0 <? length tables)%nat
    then [Js.iq ++ "Quisiste decir una de estas tablas: "
          ++ String.concat ", " tables ++ "?"]
    else ["Especifica el nombre de la tabla: " ++ Js.quote
          ++ "en la tabla [nombre]" ++ Js.quote]
  else if String.eqb code "MISSING_RECORD_ID" then
    if Js.truthy (ConversationContext.currentRecordId context)
    then [Js.iq ++ "Te refieres al registro "
          ++ default "" (ConversationContext.currentRecordId context) ++ "?"]
    else ["Especifica el ID del registro: " ++ Js.quote ++ "registro [ID]"
          ++ Js.quote]
  else if String.eqb code "INVALID_TABLE_NAME" then
    ["Usa solo letras, n" ++ Js.u'
     ++ "meros, espacios, guiones y guiones bajos"]
  else if String.eqb code "INVALID_WEBHOOK_URL" then
    ["La URL debe comenzar con http:// o https://"]
  else if String.eqb code "LARGE_BATCH_SIZE" then
    ["Para mejor rendimiento, usa lotes de 10 o menos registros"]
  else [].

End ValidationEngine.

(** ** The processor ([natural-language-processor.ts]) *)

Module NaturalLanguageProcessor.
Import RegExp.

(** The fields of the class that carry state: the intent mapper (its
    [RegExp] objects) and the context handler (its session map).  The
    constructor builds both with their defaults; the semantic analyzer and
    the validation engine are stateless. *)
Record t : Type := mk {
  intentMapper : IntentMapper.t;
  contextHandler : ContextHandler.t
}.

(** [new NaturalLanguageProcessor(config, logger)]: the collaborators are
    built with their own defaults; nothing of [config] reaches them. *)
Definition new (config : NLPConfig.t) : t :=
  mk IntentMapper.new (ContextHandler.new None).

(** What a call depends on besides the processor and the query: the
    calendar ([isoDate k] is [toISOString().split('T')[0]] of today moved by
    [k] days), and the steps at which the runtime raises an unexpected
    exception (none of them in a fault-free run). *)
Record Env : Type := mkEnv {
  isoDate : Z -> string;
  faults : Stage -> bool
}.

Definition normalizeQuery (query : string) : string :=
  let q := Js.toLowerCase query in
  let q := Js.trim q in
  (* /\s+/g *)
  let q := replace q (re_g sp) " " in
  (* /[^\w\s\.\-\_\@\#]/g *)
  let q :=
    replace q
      (re_g (Class true [CWord; CSpace; CChar "."; CChar "-"; CChar "_";
                         CChar "@"; CChar "#"])) "" in
  (* /\b(crea|crear|nuevo|nueva)\b/g *)
  let q :=
    replace q
      (re_g (Cat [WordB;
                  Group 1 (Or [Lit "crea"; Lit "crear"; Lit "nuevo";
                               Lit "nueva"]);
                  WordB])) "crear" in
  (* /\b(mostrar|mostrarme|muestra|ver|listar)\b/g *)
  let q :=
    replace q
      (re_g (Cat [WordB;
                  Group 1 (Or [Lit "mostrar"; Lit "mostrarme"; Lit "muestra";
                               Lit "ver"; Lit "listar"]);
                  WordB])) "listar" in
  (* /\b(actualizar|modificar|cambiar|editar)\b/g *)
  let q :=
    replace q
      (re_g (Cat [WordB;
                  Group 1 (Or [Lit "actualizar"; Lit "modificar";
                               Lit "cambiar"; Lit "editar"]);
                  WordB])) "actualizar" in
  (* /\b(eliminar|borrar|suprimir)\b/g *)
  let q :=
    replace q
      (re_g (Cat [WordB;
                  Group 1 (Or [Lit "eliminar"; Lit "borrar"; Lit "suprimir"]);
                  WordB])) "eliminar" in
  (* /\b(buscar|encontrar|filtrar)\b/g *)
  replace q
    (re_g (Cat [WordB;
                Group 1 (Or [Lit "buscar"; Lit "encontrar"; Lit "filtrar"]);
                WordB])) "buscar".

(** The characters a normalized query is made of: the lower-case letters a
    to z, the digits, [_ . - @ #] and the space. *)
Definition plain (c : ascii) : bool :=
  Js.between 97 122 c || Js.is_digit c
  || existsb (Ascii.eqb c) ["_"; "."; "-"; "@"; "#"; " "]%char.

(** [a-zA-Z<letters_es>_] and [a-zA-Z0-9<letters_es>_\s] *)
Definition nameStart : Re :=
  Class false (CRange "a" "z" :: CRange "A" "Z" :: letters_es ++ [CChar "_"]).
Definition nameMore : Re :=
  Class false
    (CRange "a" "z" :: CRange "A" "Z" :: CRange "0" "9"
     :: letters_es ++ [CChar "_"; CSpace]).
(** [a-zA-Z0-9] *)
Definition alnum : Re :=
  Class false [CRange "a" "z"; CRange "A" "Z"; CRange "0" "9"].
(** [(?:\s|$|\.|,)] *)
Definition stop : Re := Or [s; Eol; Chr "."; Chr ","].

(** [/(?:en|para|tabla)\s+([a-zA-Z<letters_es>_][a-zA-Z0-9<letters_es>_\s]*?)(?:\s|$|\.|,)/] *)
Definition tablePattern : RegExp.t :=
  re (Cat [Or [Lit "en"; Lit "para"; Lit "tabla"]; sp;
           Group 1 (Seq nameStart (Star false nameMore)); stop]).

(** [/(?:id|registro|record)\s*[:#]?\s*([a-zA-Z0-9]+)/] *)
Definition recordIdPattern : RegExp.t :=
  re (Cat [Or [Lit "id"; Lit "registro"; Lit "record"]; sp0;
           Opt (Class false [CChar ":"; CChar "#"]); sp0;
           Group 1 (Plus true alnum)]).

(** [/prioridad\s+(alta|media|baja)/] *)
Definition priorityPattern : RegExp.t :=
  re (Cat [Lit "prioridad"; sp;
           Group 1 (Or [Lit "alta"; Lit "media"; Lit "baja"])]).

(** [/(?:estado|status)\s*(?:sea\s+|=|igual\s+a\s+)?([a-zA-Z<letters_es>\s]+?)(?:\s|$|\.|,)/] *)
Definition statusPattern : RegExp.t :=
  re (Cat [Or [Lit "estado"; Lit "status"]; sp0;
           Opt (Or [Cat [Lit "sea"; sp]; Chr "="; Cat [ph "igual a"; sp]]);
           Group 1
             (Plus false
                (Class false
                   (CRange "a" "z" :: CRange "A" "Z"
                    :: letters_es ++ [CSpace])));
           stop]).

(** [/https?:\/\/[^\s]+/] *)
Definition urlPattern : RegExp.t :=
  re (Cat [Lit "http"; Opt (Chr "s"); Lit "://";
           Plus true (Class true [CSpace])]).

(** [/(?:webhook\s+)?([a-zA-Z0-9]+)/] *)
Definition webhookIdPattern : RegExp.t :=
  re (Cat [Opt (Cat [Lit "webhook"; sp]); Group 1 (Plus true alnum)]).

(** [/(\d+)\s+(?:registros?|registro|records?|record)/] *)
Definition countPattern : RegExp.t :=
  re (Cat [Group 1 digits; sp;
           Or [Cat [Lit "registro"; Opt (Chr "s")]; Lit "registro";
               Cat [Lit "record"; Opt (Chr "s")]; Lit "record"]]).

(** [/campo\s+([a-zA-Z<letters_es>_][a-zA-Z0-9<letters_es>_\s]*?)/g] *)
Definition fieldPattern : RegExp.t :=
  re_g (Cat [Lit "campo"; sp;
             Group 1 (Seq nameStart (Star false nameMore))]).

(** [res[1]].  In each pattern above group 1 lies on every path through
    the pattern ([defines 1]), so a match always holds it and the default
    is never taken. *)
Definition group1 (res : Match) : string := default "" (group 1 res).

(** [parseInt(digits, 10)] of a run of decimal digits. *)
Definition parseInt (digits : string) : Z :=
  (fix go (acc : Z) (s : string) {struct s} : Z :=
     match s with
     | String c t =>
         if Js.is_digit c then go (10 * acc + Z.of_nat (Js.code c - 48))%Z t
         else acc
     | EmptyString => acc
     end) 0%Z digits.

(** [if (cond) e.x = v], for the conditional assignments. *)
Definition assign {A E : Type} (v : option A) (set : A -> E -> E) (e : E)
    : E :=
  match v with
  | Some a => set a e
  | None => e
  end.

Definition guard {A : Type} (cond : bool) (v : option A) : option A :=
  if cond then v else None.

Definition extractEntities (query : string) (intent : IntentType)
    (context : ConversationContext.t) : ExtractedEntities.t :=
  let entities := ExtractedEntities.empty in
  let entities :=
    match match_ query tablePattern with
    | Some tableMatch =>
        ExtractedEntities.set_tableName (Js.trim (group1 tableMatch)) entities
    | None =>
        assign (guard (Js.truthy (ConversationContext.currentTable context))
                  (ConversationContext.currentTable context))
          ExtractedEntities.set_tableName entities
    end in
  let entities :=
    assign (group1 <$> match_ query recordIdPattern)
      ExtractedEntities.set_recordId entities in
  let entities :=
    assign (group1 <$> match_ query priorityPattern)
      (fun found =>
         let priority := Js.toLowerCase found in
         ExtractedEntities.set_priority
           (if String.eqb priority "alta" then "Alta"
            else if String.eqb priority "media" then "Media" else "Baja"))
      entities in
  let entities :=
    assign (group1 <$> match_ query statusPattern)
      (fun found => ExtractedEntities.set_status (Js.trim found)) entities in
  let entities :=
    assign (guard (intent_is intent CREATE_WEBHOOK)
              (matched <$> match_ query urlPattern))
      ExtractedEntities.set_webhookUrl entities in
  let entities :=
    assign (guard (intent_is intent DELETE_WEBHOOK)
              (group1 <$> match_ query webhookIdPattern))
      ExtractedEntities.set_webhookId entities in
  let entities :=
    assign (guard (intent_is intent UPLOAD_ATTACHMENT)
              (matched <$> match_ query urlPattern))
      ExtractedEntities.set_attachmentUrl entities in
  let entities :=
    assign (group1 <$> match_ query countPattern)
      (fun found => ExtractedEntities.set_count (parseInt found)) entities in
  let fields :=
    map (fun found => Js.trim (group1 found)) (matchAll query fieldPattern) in
  let entities :=
    assign (guard (0 <? length fields)%nat (Some fields))
      ExtractedEntities.set_fieldNames entities in
  let entities :=
    assign (guard (Js.includes query "esa tabla"
                   && Js.truthy (ConversationContext.currentTable context))
              (ConversationContext.currentTable context))
      ExtractedEntities.set_tableName entities in
  assign (guard (Js.includes query "ese registro"
                 && Js.truthy (ConversationContext.currentRecordId context))
            (ConversationContext.currentRecordId context))
    ExtractedEntities.set_recordId entities.

Definition processRelativeValues (env : Env) (entities : ExtractedEntities.t)
    (originalQuery : string) : ExtractedEntities.t :=
  let processed := entities in
  if Js.includes originalQuery ("ma" ++ Js.n' ++ "ana")
  then ExtractedEntities.set_dateReference (isoDate env 1) processed
  else if Js.includes originalQuery "hoy"
  then ExtractedEntities.set_dateReference (isoDate env 0) processed
  else if Js.includes originalQuery "ayer"
  then ExtractedEntities.set_dateReference (isoDate env (-1)) processed
  else processed.

(** [count] as a condition: a number is truthy unless it is 0. *)
Definition truthy_number (n : option Z) : bool :=
  match n with
  | Some n => negb (n =? 0)%Z
  | None => false
  end.

Definition buildQueryParameters (intent : IntentType)
    (entities : ExtractedEntities.t) (context : ConversationContext.t)
    : QueryParameters.t :=
  let params := QueryParameters.empty in
  let params :=
    assign (guard (Js.truthy (ExtractedEntities.tableName entities))
              (ExtractedEntities.tableName entities))
      QueryParameters.set_table params in
  let params :=
    assign (guard (Js.truthy (ExtractedEntities.baseId entities))
              (ExtractedEntities.baseId entities))
      QueryParameters.set_baseId params in
  let params :=
    assign (guard (Js.truthy (ExtractedEntities.recordId entities))
              (ExtractedEntities.recordId entities))
      QueryParameters.set_recordId params in
  let status :=
    guard (Js.truthy (ExtractedEntities.status entities))
      (ExtractedEntities.status entities) in
  let priority :=
    guard (Js.truthy (ExtractedEntities.priority entities))
      (ExtractedEntities.priority entities) in
  let dateReference :=
    guard (Js.truthy (ExtractedEntities.dateReference entities))
      (ExtractedEntities.dateReference entities) in
  let count :=
    guard (truthy_number (ExtractedEntities.count entities))
      (ExtractedEntities.count entities) in
  (* [entities.maxRecords] is not a property of the entities. *)
  let field name value fields := set_prop name (VString value) fields in
  if intent_is intent LIST_RECORDS || intent_is intent SEARCH_RECORDS then
    let params :=
      assign status
        (fun v => QueryParameters.set_filterByFormula
                    ("{Status} = '" ++ v ++ "'")) params in
    assign count
      (fun n => QueryParameters.set_maxRecords (Z.min n 100)) params
  else if intent_is intent CREATE_RECORD then
    let fields := [] in
    let fields := assign priority (field "Priority") fields in
    let fields := assign status (field "Status") fields in
    let fields := assign dateReference (field "Due Date") fields in
    QueryParameters.set_fields fields params
  else if intent_is intent UPDATE_RECORD then
    let params :=
      assign status
        (fun v => QueryParameters.set_fields [("Status", VString v)])
        params in
    assign priority
      (fun v p =>
         QueryParameters.set_fields
           (field "Priority" v (default [] (QueryParameters.fields p))) p)
      params
  else if intent_is intent CREATE_WEBHOOK then
    assign (guard (Js.truthy (ExtractedEntities.webhookUrl entities))
              (ExtractedEntities.webhookUrl entities))
      (fun url =>
         QueryParameters.set_webhookConfig
           [("notificationUrl", VString url);
            ("specification",
             VObject
               [("options",
                 VObject
                   [("filters",
                     VObject [("dataChangeType", VString "all")])])])])
      params
  else if intent_is intent BATCH_CREATE_RECORDS then
    assign count
      (fun n => QueryParameters.set_maxRecords (Z.min n 10)) params
  else if intent_is intent UPLOAD_ATTACHMENT then
    assign (guard (Js.truthy (ExtractedEntities.attachmentUrl entities))
              (ExtractedEntities.attachmentUrl entities))
      (fun url => QueryParameters.set_attachmentData [("url", VString url)])
      params
  else params.

Definition ask (question : string) (type : ClarificationType)
    : Clarification.t :=
  Clarification.mk question type None true.

Definition determineClarifications (intent : IntentType)
    (entities : ExtractedEntities.t) (validation : ValidationResult.t)
    : list Clarification.t :=
  (ValidationEngine.pushed
     (IntentMapper.requiresTable intent
      && negb (Js.truthy (ExtractedEntities.tableName entities)))
     (ask (Js.iq ++ "En qu" ++ Js.e'
           ++ " tabla quieres realizar esta operaci" ++ Js.o' ++ "n?")
        MISSING_TABLE) ++
   ValidationEngine.pushed
     (IntentMapper.requiresRecordId intent
      && negb (Js.truthy (ExtractedEntities.recordId entities)))
     (ask (Js.iq ++ "Cu" ++ Js.a'
           ++ "l es el ID del registro que quieres actualizar?")
        MISSING_VALUE) ++
   ValidationEngine.pushed
     (intent_is intent CREATE_WEBHOOK
      && negb (Js.truthy (ExtractedEntities.webhookUrl entities)))
     (ask (Js.iq ++ "Cu" ++ Js.a'
           ++ "l es la URL del webhook que quieres crear?")
        MISSING_VALUE) ++
   ValidationEngine.pushed
     (intent_is intent UPLOAD_ATTACHMENT
      && negb (Js.truthy (ExtractedEntities.attachmentUrl entities)))
     (ask (Js.iq ++ "Cu" ++ Js.a'
           ++ "l es la URL del archivo que quieres adjuntar?")
        MISSING_VALUE))%list.

Definition calculateConfidence (intent : IntentType)
    (entities : ExtractedEntities.t) (validation : ValidationResult.t)
    (semanticAnalysis : SemanticAnalysis.t) : float :=
  let confidence := 0.5%float in
  let confidence :=
    if negb (intent_is intent UNKNOWN) then (confidence + 0.2)%float
    else confidence in
  let entityCount := ExtractedEntities.keys entities in
  let confidence :=
    (confidence + Num.min (Num.of_nat entityCount * 0.1) 0.3)%float in
  let confidence :=
    if ValidationResult.isValid validation then (confidence + 0.2)%float
    else confidence in
  let confidence :=
    if PrimFloat.ltb 0.7 (SemanticAnalysis.confidence semanticAnalysis)
    then (confidence + 0.1)%float
    else confidence in
  Num.min confidence 1.0%float.

(** *** [processQuery]

    The body of the [try] block is a computation that reads and writes the
    processor and may throw. *)
Definition M (A : Type) : Type := t -> Result A * t.

Definition ret {A : Type} (a : A) : M A := fun p => (Ok a, p).

Definition bind {A B : Type} (c : M A) (k : A -> M B) : M B :=
  fun p =>
    match c p with
    | (Ok a, p') => k a p'
    | (Throw e, p') => (Throw e, p')
    end.

Notation "'let*' x ':=' c 'in' k" := (bind c (fun x => k))
  (at level 10, x name, c at level 100, k at level 200).

(** Step [stage] of the pipeline: the runtime may raise as the step starts;
    otherwise the step runs. *)
Definition step {A : Type} (env : Env) (stage : Stage) (c : M A) : M A :=
  fun p => if faults env stage then (Throw (Unexpected stage), p) else c p.

(** The calls on the two stateful collaborators. *)
Definition getContext (sessionId userId : string)
    : M ConversationContext.t :=
  fun p =>
    let '(context, h) :=
      ContextHandler.getContext sessionId userId (contextHandler p) in
    (Ok context, mk (intentMapper p) h).

Definition mapIntent (query : string) (semanticAnalysis : SemanticAnalysis.t)
    (context : ConversationContext.t) : M IntentType :=
  fun p =>
    let '(intent, mapper) :=
      IntentMapper.mapIntent query semanticAnalysis context (intentMapper p) in
    (Ok intent, mk mapper (contextHandler p)).

Definition updateContext (sessionId : string) (queryData : QueryData.t)
    : M unit :=
  fun p =>
    let '(r, h) :=
      ContextHandler.updateContext sessionId queryData (contextHandler p) in
    (r, mk (intentMapper p) h).

(** [v || d] for an optional string. *)
Definition or_default (v : option string) (d : string) : string :=
  if Js.truthy v then default d v else d.

Definition session (query : NaturalLanguageQuery.t) : string :=
  or_default (NaturalLanguageQuery.sessionId query) "default".

Definition user (query : NaturalLanguageQuery.t) : string :=
  or_default (NaturalLanguageQuery.userId query) "anonymous".

(** The [try] block. *)
Definition tryBlock (env : Env) (query : NaturalLanguageQuery.t)
    : M ProcessedQuery.t :=
  let text := NaturalLanguageQuery.query query in
  (* 1 *)
  let* normalizedQuery := step env Normalize (ret (normalizeQuery text)) in
  (* 2 *)
  let* context := step env GetContext (getContext (session query)
      (user query)) in
  (* 3 *)
  let* semanticAnalysis :=
    step env Analyze (ret (SemanticAnalyzer.analyze normalizedQuery context)) in
  (* 4 *)
  let* intent :=
    step env MapIntent (mapIntent normalizedQuery semanticAnalysis context) in
  (* 5 *)
  let* entities :=
    step env ExtractEntities
      (ret (extractEntities normalizedQuery intent context)) in
  (* 6 *)
  let* processedEntities :=
    step env RelativeValues (ret (processRelativeValues env entities text)) in
  (* 7 *)
  let* parameters :=
    step env BuildParameters
      (ret (buildQueryParameters intent processedEntities context)) in
  (* 8 *)
  let* validation :=
    step env Validate
      (ret (ValidationEngine.validate intent parameters context)) in
  (* 9 *)
  let* clarifications :=
    step env Clarifications
      (ret (determineClarifications intent processedEntities validation)) in
  let requiresClarification := (0 <? length clarifications)%nat in
  (* 10 *)
  let* confidence :=
    step env Confidence
      (ret (calculateConfidence intent processedEntities validation
              semanticAnalysis)) in
  (* 11 *)
  let* _ :=
    step env UpdateContext
      (updateContext (session query)
         (QueryData.mk text (intent_value intent) None
            (Some processedEntities) None)) in
  ret (ProcessedQuery.mk intent processedEntities parameters confidence
         requiresClarification clarifications).

(** The object the [catch] block returns. *)
Definition fallback : ProcessedQuery.t :=
  ProcessedQuery.mk UNKNOWN ExtractedEntities.empty QueryParameters.empty
    0%float true
    [ask ("Lo siento, no pude entender tu consulta. " ++ Js.iq ++ "Podr"
          ++ Js.i' ++ "as reformularla de manera m" ++ Js.a'
          ++ "s espec" ++ Js.i' ++ "fica?")
       AMBIGUOUS_REFERENCE].

Definition processQuery (env : Env) (query : NaturalLanguageQuery.t) (p : t)
    : ProcessedQuery.t * t :=
  match tryBlock env query p with
  | (Ok result, p') => (result, p')
  | (Throw _, p') => (fallback, p')
  end.

(** A run in which the runtime raises nothing. *)
Definition quiet (isoDate : Z -> string) : Env := mkEnv isoDate
    (fun _ => false).

End NaturalLanguageProcessor.

(** ** The tool that owns the processor ([tools/natural-language.ts]) *)

Module NaturalLanguageTool.

(** The configuration [registerNaturalLanguageTool] builds its processor
    with. *)
Definition nlpConfig : NLPConfig.t :=
  {| NLPConfig.confidenceThreshold := 0.5;
     NLPConfig.maxContextQueries := 10;
     NLPConfig.enableDateProcessing := true;
     NLPConfig.enableContextualReferences := true;
     NLPConfig.supportedLanguages := ["es"; "en"];
     NLPConfig.synonyms :=
       [("crear", ["nuevo"; "a" ++ Js.n' ++ "adir"; "agregar"; "insertar"]);
        ("mostrar", ["listar"; "ver"; "obtener"; "mostrarme"]);
        ("actualizar", ["modificar"; "cambiar"; "editar"]);
        ("eliminar", ["borrar"; "suprimir"; "remover"]);
        ("buscar", ["filtrar"; "encontrar"; "buscar"])];
     NLPConfig.entityPatterns := [];
     NLPConfig.datePatterns := [];
     NLPConfig.prioritySynonyms :=
       [("alta", "Alta"); ("media", "Media"); ("baja", "Baja");
        ("alta prioridad", "Alta"); ("baja prioridad", "Baja")] |}.

Definition processor : NaturalLanguageProcessor.t :=
  NaturalLanguageProcessor.new nlpConfig.

(** *** The handler of [process_natural_language] *)

(** What the tool reports to have run. *)
Module ToolResult.
Record t : Type := mk {
  intent : IntentType;
  parameters : QueryParameters.t;
  message : string;
  timestamp : string
}.
End ToolResult.

Module ResponseMetadata.
Record t : Type := mk {
  processingTime : Z;
  contextUsed : bool;
  fallbackUsed : bool
}.
End ResponseMetadata.

(** [NaturalLanguageResponse] ([types/nlp.ts]) *)
Module NaturalLanguageResponse.
Record t : Type := mk {
  success : bool;
  message : string;
  intent : IntentType;
  confidence : float;
  data : option ToolResult.t;
  clarifications : option (list Clarification.t);
  metadata : option ResponseMetadata.t
}.
End NaturalLanguageResponse.

(** The arguments of a call: [query] is whatever the client sent. *)
Module Args.
Record t : Type := mk {
  query : Value;
  sessionId : option string;
  userId : option string
}.
End Args.


(** The table of [executeCorrespondingTool], keyed by the intents' values. *)
Definition toolMapping : list (string * string) :=
  [("list_bases", "list_bases"); ("list_records", "list_records");
   ("create_record", "create_record"); ("update_record", "update_record");
   ("delete_record", "delete_record"); ("search_records", "search_records");
   ("list_tables", "list_tables"); ("get_record", "get_record");
   ("create_webhook", "create_webhook"); ("list_webhooks", "list_webhooks");
   ("delete_webhook", "delete_webhook");
   ("get_webhook_payloads", "get_webhook_payloads");
   ("get_base_schema", "get_base_schema");
   ("describe_table", "describe_table"); ("create_table", "create_table");
   ("delete_table", "delete_table"); ("update_table", "update_table");
   ("create_field", "create_field"); ("delete_field", "delete_field");
   ("update_field", "update_field"); ("list_field_types", "list_field_types");
   ("batch_create_records", "batch_create_records");
   ("batch_update_records", "batch_update_records");
   ("batch_delete_records", "batch_delete_records");
   ("batch_upsert_records", "batch_upsert_records");
   ("upload_attachment", "upload_attachment");
   ("list_collaborators", "list_collaborators");
   ("list_shares", "list_shares"); ("create_view", "create_view");
   ("get_view_metadata", "get_view_metadata");
   ("get_table_views", "get_table_views"); ("create_base", "create_base");
   ("analyze_data", "analyze_data"); ("create_report", "create_report");
   ("data_insights", "data_insights");
   ("optimize_workflow", "optimize_workflow");
   ("smart_schema_design", "smart_schema_design");
   ("data_quality_audit", "data_quality_audit");
   ("predictive_analytics", "predictive_analytics");
   ("natural_language_query", "natural_language_query");
   ("smart_data_transformation", "smart_data_transformation");
   ("automation_recommendations", "automation_recommendations");
   ("unknown", "unknown")].

(** [toolMapping[intent]] *)
Definition toolName (intent : IntentType) : option string :=
  snd <$> List.find (fun entry => String.eqb (fst entry) (intent_value intent))
            toolMapping.






End NaturalLanguageTool.

(** ** The specification's formulas *)

Module Spec.

(** The confidence score in the words of the specification: start at 0.5;
    add 0.2 if the intent is not [unknown]; add
    [min(0.1 * filledSlots, 0.3)]; add 0.2 if validation succeeded; add 0.1
    if the semantic analyzer's own confidence exceeded 0.7; clamp.  The sum
    is taken left to right, in doubles. *)
Definition confidence (intent : IntentType) (filledSlots : nat)
    (isValid : bool) (analyzerConfidence : float) : float :=
  Num.min 1
    (0.5
     + match intent with UNKNOWN => 0 | _ => 0.2 end
     + Num.min (0.1 * Num.of_nat filledSlots) 0.3
     + (if isValid then 0.2 else 0)
     + (if PrimFloat.ltb 0.7 analyzerConfidence then 0.1 else 0))%float.

End Spec.

(** * Properties *)

(** ** The [try] block, step by step *)

Import NaturalLanguageProcessor.

(** Runs the block in [H] up to the next branching point: a step either
    faults, and the block has thrown, or goes on; the calls on the
    collaborators are named. *)
Ltac run_try H env :=
  repeat
    (cbv beta iota zeta in H;
     match type of H with
     | context [if faults env ?s then _ else _] =>
         let F := fresh "F" in
         destruct (faults env s) eqn:F; [discriminate H|]
     | context [ContextHandler.getContext ?a ?b ?c] =>
         let E := fresh "Hget" in
         destruct (ContextHandler.getContext a b c) as [context h] eqn:E
     | context [IntentMapper.mapIntent ?a ?b ?c ?d] =>
         let E := fresh "Hmap" in
         destruct (IntentMapper.mapIntent a b c d) as [intent mapper] eqn:E
     | context [ContextHandler.updateContext ?a ?b ?c] =>
         let E := fresh "Hupd" in
         destruct (ContextHandler.updateContext a b c) as [[[]|e] h'] eqn:E;
         [|discriminate H]
     end);
  cbv beta iota zeta in H;
  cbn [intentMapper contextHandler] in *.

Section TryBlock.

(** What a completed [try] block returns: the object built from the values
    the steps computed, in a run where no step faulted. *)
Lemma tryBlock_ok env query p result p' :
  tryBlock env query p = (Ok result, p') ->
  let text := NaturalLanguageQuery.query query in
  let normalizedQuery := normalizeQuery text in
  let context :=
    fst (ContextHandler.getContext (session query) (user query)
           (contextHandler p)) in
  let semanticAnalysis := SemanticAnalyzer.analyze normalizedQuery context in
  let intent :=
    fst (IntentMapper.mapIntent normalizedQuery semanticAnalysis context
           (intentMapper p)) in
  let processedEntities :=
    processRelativeValues env
      (extractEntities normalizedQuery intent context) text in
  let parameters := buildQueryParameters intent processedEntities context in
  let validation := ValidationEngine.validate intent parameters context in
  let clarifications :=
    determineClarifications intent processedEntities validation in
  result =
    ProcessedQuery.mk intent processedEntities parameters
      (calculateConfidence intent processedEntities validation
         semanticAnalysis)
      (0 <? length clarifications)%nat clarifications.
Proof.
  unfold tryBlock, bind, step, ret, getContext, mapIntent, updateContext.
  intros H. run_try H env.
  injection H as <- <-.
  cbv zeta. cbn [fst]. rewrite Hmap. reflexivity.
Qed.

(** A fault at any step makes the block throw. *)
Lemma tryBlock_faulty env query p stage :
  faults env stage = true ->
  exists e p', tryBlock env query p = (Throw e, p').
Proof.
  intros Hfault.
  destruct (tryBlock env query p) as [[result|e] p'] eqn:H; [|eauto].
  exfalso. revert H.
  unfold tryBlock, bind, step, ret, getContext, mapIntent, updateContext.
  intros H. run_try H env.
  destruct stage; congruence.
Qed.

(** [updateContext] throws for an unknown session only, and then leaves the
    handler as it was. *)
Lemma updateContext_throw sessionId queryData h e h' :
  ContextHandler.updateContext sessionId queryData h = (Throw e, h') ->
  ContextHandler.contexts h !! sessionId = None /\ h' = h.
Proof.
  unfold ContextHandler.updateContext.
  destruct (ContextHandler.contexts h !! sessionId); [discriminate|].
  intros H. injection H as _ <-. auto.
Qed.

End TryBlock.

(** ** Confidence *)

Section ConfidenceScore.

Lemma has_le_1 {A : Type} (v : option A) : (ExtractedEntities.has v <= 1)%nat.
Proof. destruct v; simpl; lia. Qed.

(** An entities object has at most the 18 properties of its interface. *)
Lemma keys_bound (e : ExtractedEntities.t) :
  (ExtractedEntities.keys e <= 18)%nat.
Proof.
  unfold ExtractedEntities.keys.
  repeat match goal with
         | |- context [ExtractedEntities.has ?v] =>
             let H := fresh in
             pose proof (has_le_1 v) as H;
             generalize dependent (ExtractedEntities.has v); intros
         end.
  lia.
Qed.

Lemma unknown_or_not (intent : IntentType) :
  intent = UNKNOWN
  \/ (intent_is intent UNKNOWN = false
      /\ match intent with UNKNOWN => 0%float | _ => 0.2%float end
         = 0.2%float).
Proof. destruct intent; auto. Qed.

(** [calculateConfidence] computes the specification's formula, and the
    score is between 0 and 1. *)
Lemma calculateConfidence_formula intent entities validation semanticAnalysis :
  calculateConfidence intent entities validation semanticAnalysis
  = Spec.confidence intent (ExtractedEntities.keys entities)
      (ValidationResult.isValid validation)
      (SemanticAnalysis.confidence semanticAnalysis)
  /\ Num.in_unit
       (calculateConfidence intent entities validation semanticAnalysis).
Proof.
  unfold calculateConfidence, Spec.confidence.
  pose proof (keys_bound entities) as Hn.
  generalize dependent (ExtractedEntities.keys entities). intros n Hn.
  destruct (ValidationResult.isValid validation),
    (PrimFloat.ltb 0.7 (SemanticAnalysis.confidence semanticAnalysis)),
    (unknown_or_not intent) as [-> | [-> ->]];
    do 19 (destruct n as [|n]; [vm_compute; auto|]); lia.
Qed.

(** C1.  The confidence [processQuery] returns lies in [0, 1].  When the
    call completes its pipeline, the confidence is

      min(1, 0.5 + (0.2 unless the intent is unknown)
                 + min(0.1 * filled entity slots, 0.3)
                 + (0.2 if validation reported isValid)
                 + (0.1 if the analyzer's confidence exceeded 0.7))

    (in doubles, summed left to right) of the intent and the entities it
    returns, of the validation of the parameters it returns and of the
    semantic analysis of the normalized query. *)
Theorem processQuery_confidence env query p :
  let out := processQuery env query p in
  Num.in_unit (ProcessedQuery.confidence (fst out))
  /\ forall result p',
       tryBlock env query p = (Ok result, p') ->
       let context :=
         fst (ContextHandler.getContext (session query) (user query)
                (contextHandler p)) in
       let semanticAnalysis :=
         SemanticAnalyzer.analyze
           (normalizeQuery (NaturalLanguageQuery.query query)) context in
       let validation :=
         ValidationEngine.validate (ProcessedQuery.intent result)
           (ProcessedQuery.parameters result) context in
       out = (result, p')
       /\ ProcessedQuery.confidence result
          = Spec.confidence (ProcessedQuery.intent result)
              (ExtractedEntities.keys (ProcessedQuery.entities result))
              (ValidationResult.isValid validation)
              (SemanticAnalysis.confidence semanticAnalysis).
Proof.
  cbv zeta. unfold processQuery.
  destruct (tryBlock env query p) as [[result|e] p'] eqn:H; cbn [fst].
  - apply tryBlock_ok in H. cbv zeta in H. subst result.
    cbn [ProcessedQuery.confidence ProcessedQuery.intent
         ProcessedQuery.entities ProcessedQuery.parameters].
    split; [apply calculateConfidence_formula|].
    intros result p'' [= <- <-].
    cbn [ProcessedQuery.confidence ProcessedQuery.intent
         ProcessedQuery.entities ProcessedQuery.parameters].
    split; [reflexivity|apply calculateConfidence_formula].
  - split; [vm_compute; auto|]. intros result p'' [=].
Qed.

End ConfidenceScore.

(** ** Clarifications and failures *)

Section Outcome.

(** C2.  For the object [processQuery] returns, from the [try] block or from
    the [catch] block, [requiresClarification] is true exactly when the
    list of clarifications is not empty. *)
Theorem requiresClarification_iff env query p :
  let result := fst (processQuery env query p) in
  ProcessedQuery.requiresClarification result = true
  <-> ProcessedQuery.clarifications result <> [].
Proof.
  cbv zeta. unfold processQuery.
  destruct (tryBlock env query p) as [[result|e] p'] eqn:H; cbn [fst].
  - apply tryBlock_ok in H. cbv zeta in H. subst result.
    cbn [ProcessedQuery.requiresClarification ProcessedQuery.clarifications].
    destruct (determineClarifications _ _ _); cbn; split;
      congruence.
  - cbn. split; congruence.
Qed.

(** C3.  Whenever a step of the pipeline raises, be it by a fault of the
    runtime at some stage or by a [throw] of the program, [processQuery]
    returns (it raises nothing): the intent is [unknown], the confidence
    0, [requiresClarification] is true and there is exactly one
    clarification, of kind [ambiguous_reference]. *)
Theorem processQuery_catches env query p :
  (exists stage, faults env stage = true)
  \/ (exists e p', tryBlock env query p = (Throw e, p')) ->
  let result := fst (processQuery env query p) in
  ProcessedQuery.intent result = UNKNOWN
  /\ ProcessedQuery.confidence result = 0%float
  /\ ProcessedQuery.requiresClarification result = true
  /\ exists c, ProcessedQuery.clarifications result = [c]
               /\ Clarification.type c = AMBIGUOUS_REFERENCE.
Proof.
  intros H. cbv zeta.
  assert (exists e p', tryBlock env query p = (Throw e, p'))
    as (e & p' & Hthrow).
  { destruct H as [[stage Hs]|H]; [|exact H].
    eapply tryBlock_faulty; eassumption. }
  unfold processQuery. rewrite Hthrow. cbn [fst].
  repeat split. eexists. split; reflexivity.
Qed.

End Outcome.

(** ** The scenarios *)

Section Scenarios.

Variable config : NLPConfig.t.
Variable isoDate : Z -> string.

Let ask_ (text : string) : NaturalLanguageQuery.t :=
  NaturalLanguageQuery.mk text None None.

(** C7.  What the code does with the first scenario of the specification:
    [normalizeQuery] turns "mostrarme" into "listar", so no pattern of
    [list_records] matches and the keyword analysis answers [list_tables]
    ("listar" together with "tabla"); the table pattern stops at the first
    marker, "en", and captures "la"; and "registros" yields the record id
    "s".  There is no clarification and the confidence is 1. *)
Theorem scenario_mostrarme_registros :
  let text := "mostrarme todos los registros en la tabla Proyectos" in
  let result := fst (processQuery (quiet isoDate) (ask_ text) (new config)) in
  normalizeQuery text = "listar todos los registros en la tabla proyectos"
  /\ ProcessedQuery.intent result = LIST_TABLES
  /\ ExtractedEntities.tableName (ProcessedQuery.entities result) = Some "la"
  /\ ExtractedEntities.recordId (ProcessedQuery.entities result) = Some "s"
  /\ ExtractedEntities.keys (ProcessedQuery.entities result) = 2%nat
  /\ ProcessedQuery.clarifications result = []
  /\ ProcessedQuery.confidence result = 1%float.
Proof. vm_compute. repeat split. Qed.

(** C9.  What the code does with "eliminar webhook abc123": the intent is
    [delete_webhook] and nothing is asked, but the webhook id is the first
    alphanumeric run of the query, "eliminar". *)
Theorem scenario_eliminar_webhook :
  let text := "eliminar webhook abc123" in
  let result := fst (processQuery (quiet isoDate) (ask_ text) (new config)) in
  ProcessedQuery.intent result = DELETE_WEBHOOK
  /\ ExtractedEntities.webhookId (ProcessedQuery.entities result)
     = Some "eliminar"
  /\ ExtractedEntities.keys (ProcessedQuery.entities result) = 1%nat
  /\ ProcessedQuery.requiresClarification result = false
  /\ ProcessedQuery.clarifications result = [].
Proof. vm_compute. repeat split. Qed.

(** C8, as the code has it.  A query that matches no pattern and no keyword
    ("asdkj qwoe"), in a session without context, completes the pipeline:
    the intent is [unknown], no entity is extracted, validation has nothing
    to object, so the confidence is 0.5 + 0.2 = 0.7, and no clarification
    is asked for. *)
Theorem scenario_unclassifiable :
  let result :=
    fst (processQuery (quiet isoDate) (ask_ "asdkj qwoe") (new config)) in
  ProcessedQuery.intent result = UNKNOWN
  /\ ProcessedQuery.entities result = ExtractedEntities.empty
  /\ ProcessedQuery.confidence result = 0.7%float
  /\ ProcessedQuery.requiresClarification result = false
  /\ ProcessedQuery.clarifications result = [].
Proof. vm_compute. repeat split. Qed.

(** C4.  [mapIntent] is not repeatable.  Its patterns are global [RegExp]
    objects, and [test] leaves [lastIndex] at the end of a match: asked
    twice for "crear webhook", with the same analysis and the same context,
    the mapper answers [create_webhook] (pattern [crear\s+webhook]), then
    [create_record] (the pattern, resumed at index 13, fails, and the
    keyword "crear" decides), then [create_webhook] again.  So do two calls
    of [processQuery] in a row. *)
Theorem mapIntent_not_repeatable :
  let query := "crear webhook" in
  let context := ContextHandler.createNewContext "default" "anonymous" in
  let analysis := SemanticAnalyzer.analyze query context in
  let first := IntentMapper.mapIntent query analysis context IntentMapper.new in
  let second := IntentMapper.mapIntent query analysis context (snd first) in
  let third := IntentMapper.mapIntent query analysis context (snd second) in
  let call1 := processQuery (quiet isoDate) (ask_ query) (new config) in
  let call2 := processQuery (quiet isoDate) (ask_ query) (snd call1) in
  normalizeQuery query = query
  /\ fst first = CREATE_WEBHOOK
  /\ fst second = CREATE_RECORD
  /\ fst third = CREATE_WEBHOOK
  /\ ProcessedQuery.intent (fst call1) = CREATE_WEBHOOK
  /\ ProcessedQuery.intent (fst call2) = CREATE_RECORD
  /\ ProcessedQuery.entities (fst call1) = ProcessedQuery.entities (fst call2).
Proof. vm_compute. repeat split. Qed.

End Scenarios.

(** C8, as the specification has it, fails: the call for "asdkj qwoe" does
    not end in the [catch] block's answer. *)
Lemma unclassifiable_is_not_clarified :
  let query := NaturalLanguageQuery.mk "asdkj qwoe" None None in
  let result :=
    fst (processQuery (quiet (fun _ => "2026-11-02")) query
           NaturalLanguageTool.processor) in
  ~ (ProcessedQuery.intent result = UNKNOWN
     /\ ProcessedQuery.confidence result = 0%float
     /\ ProcessedQuery.requiresClarification result = true
     /\ exists c, ProcessedQuery.clarifications result = [c]
                  /\ Clarification.type c = AMBIGUOUS_REFERENCE).
Proof.
  cbv zeta. intros (_ & _ & H & _). vm_compute in H. discriminate H.
Qed.

(** ** The session map during a call *)

Section Store.

(** [getContext] creates the entry of a session that has none, and leaves
    the handler as it is for a session that has one. *)
Lemma getContext_store sessionId userId h :
  snd (ContextHandler.getContext sessionId userId h)
  = match ContextHandler.contexts h !! sessionId with
    | Some _ => h
    | None =>
        ContextHandler.set_contexts
          (<[sessionId := ContextHandler.createNewContext sessionId userId]>
             (ContextHandler.contexts h)) h
    end.
Proof.
  unfold ContextHandler.getContext.
  destruct (ContextHandler.contexts h !! sessionId); reflexivity.
Qed.

(** Where the handler stands when the [try] block throws: as it was, if the
    fault came in step 1 or 2, and as [getContext] left it otherwise. *)
Lemma tryBlock_throw env query p e p' :
  tryBlock env query p = (Throw e, p') ->
  contextHandler p'
  = if faults env Normalize || faults env GetContext
    then contextHandler p
    else snd (ContextHandler.getContext (session query) (user query)
                (contextHandler p)).
Proof.
  unfold tryBlock, bind, step, ret, getContext, mapIntent, updateContext.
  intros H.
  repeat
    (cbv beta iota zeta in H;
     match type of H with
     | context [if faults env ?s then _ else _] =>
         destruct (faults env s);
         [injection H as _ <-; reflexivity|]
     | context [ContextHandler.getContext ?a ?b ?c] =>
         destruct (ContextHandler.getContext a b c) as [context h]
     | context [IntentMapper.mapIntent ?a ?b ?c ?d] =>
         destruct (IntentMapper.mapIntent a b c d) as [intent mapper]
     | context [ContextHandler.updateContext ?a ?b ?c] =>
         let E := fresh "Hupd" in
         destruct (ContextHandler.updateContext a b c) as [[[]|e'] h'] eqn:E
     end);
    cbv beta iota zeta in H; [discriminate H|].
  injection H as _ <-.
  apply updateContext_throw in Hupd as [_ ->]. reflexivity.
Qed.

(** C6, as the code has it.  Before the last step, the session map changes
    in one way only: step 2 creates the empty context of a session that has
    none.  When a call fails before it has updated the context, the handler
    keeps its bound; the map is as it was if the session had an entry, or if
    the fault came in step 1 or 2; otherwise the map has gained the fresh
    context of the call's session, and nothing else. *)
Theorem failed_call_store env query p e p' :
  tryBlock env query p = (Throw e, p') ->
  let h := contextHandler p in
  let h' := contextHandler p' in
  let sessionId := session query in
  ContextHandler.maxContextQueries h' = ContextHandler.maxContextQueries h
  /\ (is_Some (ContextHandler.contexts h !! sessionId) ->
      ContextHandler.contexts h' = ContextHandler.contexts h)
  /\ (faults env Normalize = true \/ faults env GetContext = true ->
      ContextHandler.contexts h' = ContextHandler.contexts h)
  /\ (ContextHandler.contexts h !! sessionId = None ->
      faults env Normalize = false -> faults env GetContext = false ->
      ContextHandler.contexts h'
      = <[sessionId :=
            ContextHandler.createNewContext sessionId (user query)]>
          (ContextHandler.contexts h)).
Proof.
  intros H. apply tryBlock_throw in H. cbv zeta. rewrite H, getContext_store.
  clear H.
  destruct (ContextHandler.contexts (contextHandler p) !! session query)
    as [c|] eqn:Hl.
  - assert ((if faults env Normalize || faults env GetContext
             then contextHandler p else contextHandler p)
            = contextHandler p) as -> by (destruct (_ || _); reflexivity).
    repeat split; congruence.
  - destruct (faults env Normalize), (faults env GetContext); cbn [orb];
      (split; [reflexivity|]); (split; [intros [c [=]]|]); split;
      solve [intros; reflexivity || congruence | intros [|]; discriminate].
Qed.

End Store.

(** C6, as the specification has it, fails: a call for a new session that
    faults in step 3, well before the update, leaves a context for that
    session in the map. *)
Lemma failed_call_mutates_store :
  let env :=
    mkEnv (fun _ => "2026-11-02")
      (fun stage => match stage with Analyze => true | _ => false end) in
  let query := NaturalLanguageQuery.mk "listar bases" None (Some "s1") in
  let p := NaturalLanguageTool.processor in
  let p' := snd (processQuery env query p) in
  tryBlock env query p = (Throw (Unexpected Analyze), p')
  /\ ContextHandler.contexts (contextHandler p) !! "s1" = None
  /\ ContextHandler.contexts (contextHandler p') !! "s1"
     = Some (ContextHandler.createNewContext "s1" "anonymous")
  /\ ContextHandler.contexts (contextHandler p')
     <> ContextHandler.contexts (contextHandler p).
Proof.
  cbv zeta.
  assert (ContextHandler.contexts
            (contextHandler
               (snd (processQuery
                       (mkEnv (fun _ => "2026-11-02")
                          (fun stage =>
                             match stage with Analyze => true | _ => false end))
                       (NaturalLanguageQuery.mk "listar bases" None (Some "s1"))
                       NaturalLanguageTool.processor))) !! "s1"
          = Some (ContextHandler.createNewContext "s1" "anonymous")) as Hnew
    by (vm_compute; reflexivity).
  split; [|split; [|split]].
  - vm_compute. reflexivity.
  - vm_compute. reflexivity.
  - exact Hnew.
  - intros Heq. rewrite Heq in Hnew. vm_compute in Hnew. discriminate Hnew.
Qed.

(** ** The history *)

(** C5, where the bound does not hold.  [slice(-0)] is [slice(0)]: with a
    maximum of 0 the history is not cut at all, and one update leaves one
    entry where none may stay.  And the processor builds its handler with
    the default maximum of 10, whatever [config.maxContextQueries] says:
    configured with a maximum of 1, it holds two turns after two calls. *)
Theorem history_exceeds_maximum :
  let h := snd (ContextHandler.getContext "s1" "u1"
                  (ContextHandler.new (Some 0%Z))) in
  let turn := QueryData.mk "listar bases" "list_bases" None None None in
  let h' := snd (ContextHandler.updateContext "s1" turn h) in
  let config :=
    NLPConfig.mk 0.5%float 1%Z true true ["es"; "en"] [] [] [] [] in
  let env := quiet (fun _ => "2026-11-02") in
  let query := NaturalLanguageQuery.mk "listar bases" None (Some "s1") in
  let p := snd (processQuery env query (new config)) in
  let p' := snd (processQuery env query p) in
  let history (handler : ContextHandler.t) :=
    (length ∘ ConversationContext.previousQueries)
      <$> ContextHandler.contexts handler !! "s1" in
  (ContextHandler.maxContextQueries h' = 0%Z /\ history h' = Some 1%nat)
  /\ (NLPConfig.maxContextQueries config = 1%Z
      /\ history (contextHandler p') = Some 2%nat).
Proof. vm_compute. repeat split. Qed.

(** ** The history, for a maximum of one turn or more *)

Section History.
Import ContextHandler.

Lemma slice_last {A : Type} (n : Z) (l : list A) :
  (1 <= n)%Z -> slice (- n) l = drop (length l - Z.to_nat n) l.
Proof.
  intros Hn. unfold slice.
  destruct (Z.ltb_spec (- n) 0); [|lia].
  f_equal. lia.
Qed.

(** Pushing a turn keeps the last [n] entries. *)
Lemma remember_last n q (l : list PreviousQuery.t) :
  (1 <= n)%Z ->
  remember n q l
  = drop (length (l ++ [q]) - Z.to_nat n)%nat (l ++ [q])%list.
Proof.
  intros Hn. unfold remember. rewrite Z.gtb_ltb.
  destruct (Z.ltb_spec n (Z.of_nat (length (l ++ [q])))) as [Hlong|Hshort].
  - apply slice_last, Hn.
  - replace (length (l ++ [q]) - Z.to_nat n)%nat with 0%nat by lia.
    reflexivity.
Qed.

(** The last [n] of a list that continues the last [n] of another. *)
Lemma last_of_last {A : Type} (n : nat) (l k : list A) :
  drop (length (drop (length l - n) l ++ k) - n) (drop (length l - n) l ++ k)
  = drop (length (l ++ k) - n) (l ++ k).
Proof.
  rewrite !length_app, length_drop.
  destruct (Nat.le_gt_cases (length l) n) as [Hle|Hgt].
  - replace (length l - n)%nat with 0%nat by lia.
    rewrite drop_0. f_equal. lia.
  - rewrite <- (drop_app_le l k (length l - n)) by lia.
    rewrite drop_drop. f_equal. lia.
Qed.

Lemma when_set_history v f c :
  (forall x c', ConversationContext.previousQueries (f x c')
                = ConversationContext.previousQueries c') ->
  ConversationContext.previousQueries (when_set v f c)
  = ConversationContext.previousQueries c.
Proof.
  intros Hf. unfold when_set. destruct v as [x|]; [|reflexivity].
  destruct (Js.truthy (Some x)); auto.
Qed.

(** One update of a known session: the handler keeps its bound and its other
    sessions, and the session's history is the old one with the turn pushed
    and the tail kept. *)
Lemma updateContext_history sessionId turn h context :
  contexts h !! sessionId = Some context ->
  exists context',
    snd (updateContext sessionId turn h)
    = set_contexts (<[sessionId := context']> (contexts h)) h
    /\ ConversationContext.previousQueries context'
       = remember (maxContextQueries h) (previousQuery_of turn)
           (ConversationContext.previousQueries context).
Proof.
  intros Hknown. unfold updateContext. rewrite Hknown. cbn [snd].
  eexists. split; [reflexivity|].
  destruct (QueryData.entities turn) as [entities|];
    repeat (rewrite when_set_history by reflexivity); reflexivity.
Qed.

(** X1.  For a maximum of one or more, any number of updates of a session
    leaves as history the last [maxContextQueries] turns, in order of
    arrival: the oldest are the ones dropped. *)
Theorem history_keeps_latest sessionId turns : forall h context,
  (1 <= maxContextQueries h)%Z ->
  contexts h !! sessionId = Some context ->
  (Z.of_nat (length (ConversationContext.previousQueries context))
   <= maxContextQueries h)%Z ->
  let h' :=
    fold_left (fun h turn => snd (updateContext sessionId turn h)) turns h in
  let seen :=
    (ConversationContext.previousQueries context
     ++ map previousQuery_of turns)%list in
  exists context',
    contexts h' !! sessionId = Some context'
    /\ ConversationContext.previousQueries context'
       = drop (length seen - Z.to_nat (maxContextQueries h)) seen
    /\ (Z.of_nat (length (ConversationContext.previousQueries context'))
        <= maxContextQueries h)%Z.
Proof.
  induction turns as [|turn turns IH]; intros h context Hmax Hknown Hshort;
    cbv zeta; cbn [fold_left map].
  - exists context. rewrite app_nil_r. repeat split; [assumption| |assumption].
    replace (_ - _)%nat with 0%nat by lia. reflexivity.
  - destruct (updateContext_history sessionId turn h context Hknown)
      as (context1 & -> & Hhistory).
    rewrite remember_last in Hhistory by assumption.
    specialize (IH (set_contexts (<[sessionId := context1]> (contexts h)) h)
                  context1).
    cbn [maxContextQueries set_contexts contexts] in IH.
    destruct IH as (context' & Hfinal & Hkept & Hbound).
    + assumption.
    + apply lookup_insert_eq.
    + rewrite Hhistory, length_drop. lia.
    + exists context'. repeat split; [assumption| |assumption].
      rewrite Hkept, Hhistory.
      rewrite last_of_last, <- app_assoc. reflexivity.
Qed.

End History.

(** X1 at a maximum of 2 and three turns: the first turn is dropped. *)
Lemma history_keeps_latest_witness :
  let turn text := QueryData.mk text "unknown" None None None in
  let h' :=
    fold_left (fun h turn => snd (ContextHandler.updateContext "s1" turn h))
      [turn "a"; turn "b"; turn "c"]
      (snd (ContextHandler.getContext "s1" "u1"
              (ContextHandler.new (Some 2%Z)))) in
  map PreviousQuery.query
    <$> (ConversationContext.previousQueries
           <$> ContextHandler.contexts h' !! "s1")
  = Some ["b"; "c"].
Proof.
  cbv zeta.
  destruct (history_keeps_latest "s1"
              [QueryData.mk "a" "unknown" None None None;
               QueryData.mk "b" "unknown" None None None;
               QueryData.mk "c" "unknown" None None None]
              (snd (ContextHandler.getContext "s1" "u1"
                      (ContextHandler.new (Some 2%Z))))
              (ContextHandler.createNewContext "s1" "u1")
              ltac:(vm_compute; discriminate)
              ltac:(vm_compute; reflexivity)
              ltac:(vm_compute; discriminate))
    as (context' & Hstored & Hkept & _).
  rewrite Hstored. cbn [fmap option_fmap option_map]. rewrite Hkept.
  vm_compute. reflexivity.
Defined.

(** ** Validation *)


(** ** The current table of a stored context *)

Section CurrentTable.
Import ContextHandler.

Abbreviation named c := (ConversationContext.currentTable c <> Some EmptyString).

Lemma when_set_named v f c :
  (forall x c', Js.truthy (Some x) = true -> named c' -> named (f x c')) ->
  named c -> named (when_set v f c).
Proof.
  intros Hf Hc. unfold when_set. destruct v as [x|]; [|exact Hc].
  destruct (Js.truthy (Some x)) eqn:Hx; auto.
Qed.

Lemma set_currentTable_named x c :
  Js.truthy (Some x) = true -> named (set_currentTable x c).
Proof. destruct x; [discriminate|]. cbn. discriminate. Qed.

(** X3.  The handler never stores an empty table name: a stored context's
    current table is set exactly when it is truthy.  The property holds of
    a new handler and every operation that writes the session map keeps
    it. *)
Theorem tables_named_invariant :
  (forall maxContextQueries, tables_named (new maxContextQueries))
  /\ (forall sessionId userId h,
        tables_named h -> tables_named (snd (getContext sessionId userId h)))
  /\ (forall sessionId queryData h,
        tables_named h ->
        tables_named (snd (updateContext sessionId queryData h)))
  /\ (forall sessionId table recordId baseId h,
        tables_named h ->
        tables_named (setCurrentContext sessionId table recordId baseId h))
  /\ (forall sessionId h,
        tables_named h -> tables_named (clearContext sessionId h)).
Proof.
  unfold tables_named. repeat split.
  - intros maxContextQueries. apply map_Forall_empty.
  - intros sessionId userId h Hh. unfold getContext.
    destruct (contexts h !! sessionId) eqn:Hl; cbn [snd]; [exact Hh|].
    cbn [set_contexts contexts]. apply map_Forall_insert_2; [|exact Hh].
    cbn. discriminate.
  - intros sessionId queryData h Hh. unfold updateContext.
    destruct (contexts h !! sessionId) as [context|] eqn:Hl; cbn [snd];
      [|exact Hh].
    cbn [set_contexts contexts]. apply map_Forall_insert_2; [|exact Hh].
    specialize (Hh _ _ Hl). cbn beta in Hh.
    destruct (QueryData.entities queryData) as [entities|]; [|exact Hh].
    repeat (apply when_set_named; [intros x c' Hx Hc'|]);
      try exact Hh; try exact Hc'.
    apply set_currentTable_named, Hx.
  - intros sessionId table recordId baseId h Hh. unfold setCurrentContext.
    destruct (contexts h !! sessionId) as [context|] eqn:Hl; [|exact Hh].
    cbn [set_contexts contexts]. apply map_Forall_insert_2; [|exact Hh].
    specialize (Hh _ _ Hl). cbn beta in Hh.
    repeat (apply when_set_named; [intros x c' Hx Hc'|]);
      try exact Hh; try exact Hc'.
    apply set_currentTable_named, Hx.
  - intros sessionId h Hh. unfold clearContext.
    cbn [set_contexts contexts]. apply map_Forall_delete, Hh.
Qed.

End CurrentTable.

(** ** Facts about the matcher *)

Section Matcher.
Import RegExp.

Lemma one_inv p k x z :
  one p k x = Some z ->
  exists c t, rest x = String c t /\ p c = true /\ k (step c t x) = Some z.
Proof.
  unfold one. destruct (rest x) as [|c t]; [discriminate|].
  destruct (p c) eqn:Hp; [|discriminate]. eauto.
Qed.

Lemma orelse_inv a b z :
  orelse a b = Some z -> a = Some z \/ b = Some z.
Proof. destruct a; cbn; auto. Qed.

(** A loop inherits from its iterations any relation between where a match
    starts and where its continuation is entered, if the relation is
    reflexive and transitive. *)
Lemma repeat_inv greedy iter k (R : MState -> MState -> Prop) :
  (forall x, R x x) ->
  (forall x y z, R x y -> R y z -> R x z) ->
  (forall k x z, iter k x = Some z -> exists y, k y = Some z /\ R x y) ->
  forall fuel x z, repeat greedy iter k fuel x = Some z ->
    exists y, k y = Some z /\ R x y.
Proof.
  intros Hrefl Htrans Hiter.
  induction fuel as [|fuel IH]; intros x z H; cbn in H.
  - exists x. auto.
  - assert (forall w,
              iter (fun y => if (pos x <? pos y)%nat
                             then repeat greedy iter k fuel y else None) x
              = Some w ->
              exists y, k y = Some w /\ R x y) as Hagain.
    { intros w Hw. apply Hiter in Hw as (y1 & Hk & Hxy).
      destruct (pos x <? pos y1)%nat; [|discriminate].
      apply IH in Hk as (y & Hk & Hyz). eauto. }
    destruct greedy; apply orelse_inv in H as [H|H]; eauto.
Qed.

Lemma ahead_refl x : ahead x x.
Proof. split; lia. Qed.

Lemma ahead_trans x y z : ahead x y -> ahead y z -> ahead x z.
Proof. unfold ahead. lia. Qed.

Lemma ahead_step c t x : rest x = String c t -> ahead x (step c t x).
Proof. intros Hrest. unfold ahead. rewrite Hrest. cbn. lia. Qed.

Lemma moves_refl r x : moves r x x.
Proof. split; [apply ahead_refl|auto]. Qed.

Lemma moves_trans r x y z : moves r x y -> moves r y z -> moves r x z.
Proof.
  intros (Ha1 & Hc1 & Hk1) (Ha2 & Hc2 & Hk2).
  split; [eapply ahead_trans; eassumption|]. split.
  - intros Hg. rewrite Hc2, Hc1; auto.
  - auto.
Qed.

Lemma moves_step r c t x : rest x = String c t -> moves r x (step c t x).
Proof. intros Hrest. split; [apply ahead_step, Hrest|cbn; auto]. Qed.

Lemma captured_capture n k x y :
  is_Some (captured n (caps y)) \/ k = n ->
  is_Some (captured n (caps (capture k x y))).
Proof.
  unfold capture, captured. cbn [caps find fst].
  destruct (Nat.eqb_spec k n) as [->|Hne]; cbn; [eauto|].
  intros [H|H]; [exact H|contradiction].
Qed.

(** A successful match enters its continuation in a state the start
    [moves] to, holding every group the pattern [defines]. *)
Lemma m_inv ic r :
  forall k x z, m ic r k x = Some z ->
    exists y, k y = Some z /\ moves r x y
              /\ (forall n, defines n r = true ->
                            is_Some (captured n (caps y))).
Proof.
  induction r as [|c| |negated items|a IHa b IHb|a IHa b IHb|greedy a IHa
                 |n a IHa| | |];
    intros k x z H; cbn [m] in H.
  - exists x. split; [assumption|]. split; [apply moves_refl|discriminate].
  - apply one_inv in H as (c' & t & Hrest & _ & H). exists (step c' t x).
    split; [assumption|]. split; [apply moves_step, Hrest|discriminate].
  - apply one_inv in H as (c' & t & Hrest & _ & H). exists (step c' t x).
    split; [assumption|]. split; [apply moves_step, Hrest|discriminate].
  - apply one_inv in H as (c' & t & Hrest & _ & H). exists (step c' t x).
    split; [assumption|]. split; [apply moves_step, Hrest|discriminate].
  - apply IHa in H as (y1 & H & (Ha1 & Hc1 & Hk1) & Hd1).
    apply IHb in H as (y & H & (Ha2 & Hc2 & Hk2) & Hd2).
    exists y. split; [assumption|]. split; [split; [|split]|].
    + eapply ahead_trans; eassumption.
    + cbn [groupless]. intros [Ha Hb]%andb_prop. rewrite Hc2, Hc1; auto.
    + auto.
    + cbn [defines]. intros n [Hn|Hn]%orb_prop; auto.
  - apply orelse_inv in H as [H|H].
    + apply IHa in H as (y & H & (Ha & Hc & Hk) & _). exists y.
      split; [assumption|]. split; [split; [|split]; auto|discriminate].
      cbn [groupless]. intros [Hga Hgb]%andb_prop. auto.
    + apply IHb in H as (y & H & (Ha & Hc & Hk) & _). exists y.
      split; [assumption|]. split; [split; [|split]; auto|discriminate].
      cbn [groupless]. intros [Hga Hgb]%andb_prop. auto.
  - apply (repeat_inv greedy (m ic a) k (moves a)) in H
      as (y & H & Hmoves).
    + exists y. split; [assumption|]. split; [exact Hmoves|discriminate].
    + apply moves_refl.
    + apply moves_trans.
    + intros k' x' z' H'. apply IHa in H' as (y' & H' & Hmoves' & _). eauto.
  - apply IHa in H as (y & H & (Ha & _ & Hk) & Hd).
    exists (capture n x y). split; [assumption|]. split; [split; [|split]|].
    + exact Ha.
    + discriminate.
    + intros n' Hn'. apply captured_capture. auto.
    + cbn [defines]. intros n' [Hn'|Hn']%orb_prop; apply captured_capture.
      * right. apply Nat.eqb_eq, Hn'.
      * left. auto.
  - destruct (prev x); [discriminate|]. exists x.
    split; [assumption|]. split; [apply moves_refl|discriminate].
  - destruct (rest x); [|discriminate]. exists x.
    split; [assumption|]. split; [apply moves_refl|discriminate].
  - destruct (xorb _ _); [|discriminate]. exists x.
    split; [assumption|]. split; [apply moves_refl|discriminate].
Qed.

Lemma m_seq ic a b k x : m ic (Seq a b) k x = m ic a (m ic b k) x.
Proof. reflexivity. Qed.

(** A group that opens with a character class holds a string that starts
    with a character of the class. *)
Lemma m_group_class ic n negated items body k x z :
  m ic (Group n (Seq (Class negated items) body)) k x = Some z ->
  exists c t y,
    in_class ic negated items c = true
    /\ k {| prev := prev y; rest := rest y; pos := pos y;
            caps := (n, String c t) :: caps y |} = Some z.
Proof.
  cbn [m]. intros H.
  apply one_inv in H as (c & t & Hrest & Hc & H).
  apply m_inv in H as (y & H & ((Hpos & _) & _ & _) & _).
  unfold capture in H. rewrite Hrest in H. cbn [pos step] in Hpos.
  replace (pos y - pos x)%nat with (S (pos y - S (pos x))) in H by lia.
  cbn [String.substring] in H. eauto.
Qed.

Lemma search_inv ic r p t i b y :
  search ic r p t i = Some (b, y) ->
  exists p' t', match_at ic r p' t' b = Some y.
Proof.
  revert p i. induction t as [|c t IH]; intros p i; cbn [search];
    destruct (match_at ic r p _ i) eqn:Hm; intros H;
    try discriminate; try (injection H as <- <-; eauto).
  eapply IH; eassumption.
Qed.

(** A match holds every group its pattern defines: [res[n]] is a string. *)
Lemma search_defines ic r p t i b y n :
  search ic r p t i = Some (b, y) ->
  defines n r = true ->
  is_Some (captured n (caps y)).
Proof.
  intros Hs Hn. apply search_inv in Hs as (p' & t' & Hm).
  apply m_inv in Hm as (y' & [= <-] & _ & Hd). auto.
Qed.

Lemma match_defines str rx res n :
  match_ str rx = Some res ->
  defines n (source rx) = true ->
  is_Some (group n res).
Proof.
  unfold match_, exec, group. cbn [set_lastIndex source ignoreCase global].
  destruct (seek _ None str) as [[p t]|]; [|destruct (global rx); discriminate].
  destruct (search _ _ p t _) as [[b y]|] eqn:Hs;
    [|destruct (global rx); discriminate].
  cbn [fst]. intros [= <-] Hn. cbn [mk_match groups].
  eapply search_defines; eassumption.
Qed.

Lemma matches_from_defines ic r n :
  defines n r = true ->
  forall fuel p t i,
    Forall (fun res => is_Some (group n res)) (matches_from fuel ic r p t i).
Proof.
  intros Hn. induction fuel as [|fuel IH]; intros p t i; cbn [matches_from].
  - constructor.
  - destruct (search ic r p t i) as [[b y]|] eqn:Hs; [|constructor].
    assert (is_Some (group n (mk_match i t b y))) as Hhit
      by (unfold group; cbn [mk_match groups];
          eapply search_defines; eassumption).
    destruct (b <? pos y)%nat; [constructor; auto|].
    destruct (rest y); repeat constructor; auto.
Qed.

(** A character that may start a name is not white space. *)
Lemma nameStart_not_space c :
  in_class false false
    (CRange "a" "z" :: CRange "A" "Z" :: letters_es ++ [CChar "_"]) c = true ->
  Js.is_space c = false.
Proof.
  destruct c as [[] [] [] [] [] [] [] []]; vm_compute; congruence.
Qed.

Lemma trim_nonempty c t :
  Js.is_space c = false -> Js.truthy (Some (Js.trim (String c t))) = true.
Proof.
  intros Hc. unfold Js.trim. cbn [Js.trimStart]. rewrite Hc.
  cbn [Js.trimEnd]. rewrite Hc. destruct (Js.trimEnd t); reflexivity.
Qed.

(** The table name a match of the table pattern yields is not empty. *)
Lemma tablePattern_capture query tableMatch :
  match_ query NaturalLanguageProcessor.tablePattern = Some tableMatch ->
  Js.truthy (Some (Js.trim (NaturalLanguageProcessor.group1 tableMatch)))
  = true.
Proof.
  unfold match_, exec, NaturalLanguageProcessor.tablePattern, re,
    set_lastIndex.
  cbn [global source ignoreCase lastIndex seek fst].
  destruct (search _ _ _ _ _) as [[b y]|] eqn:Hs; [|discriminate].
  cbn [fst]. intros [= <-].
  apply search_inv in Hs as (p' & t' & Hm). unfold match_at in Hm.
  unfold Cat in Hm. cbn [fold_right] in Hm.
  rewrite m_seq in Hm. apply m_inv in Hm as (y1 & Hm & _).
  rewrite m_seq in Hm. apply m_inv in Hm as (y2 & Hm & _).
  rewrite m_seq in Hm. unfold NaturalLanguageProcessor.nameStart in Hm.
  apply m_group_class in Hm as (c & t & y3 & Hc & Hm).
  apply m_inv in Hm as (y4 & Hm & (_ & Hcaps & _) & _).
  injection Hm as <-.
  unfold NaturalLanguageProcessor.group1, group, captured, mk_match.
  cbn [groups]. rewrite Hcaps by reflexivity. cbn.
  apply trim_nonempty, nameStart_not_space, Hc.
Qed.

(** X4.  Every match of a pattern whose group 1 [extractEntities] reads
    holds that group: [group1] never falls back on its default. *)
Theorem group1_defined query :
  Forall
    (fun pattern =>
       forall res, match_ query pattern = Some res ->
                   group 1 res = Some (NaturalLanguageProcessor.group1 res))
    [NaturalLanguageProcessor.tablePattern;
     NaturalLanguageProcessor.recordIdPattern;
     NaturalLanguageProcessor.priorityPattern;
     NaturalLanguageProcessor.statusPattern;
     NaturalLanguageProcessor.webhookIdPattern;
     NaturalLanguageProcessor.countPattern]
  /\ Forall
       (fun res => group 1 res = Some (NaturalLanguageProcessor.group1 res))
       (matchAll query NaturalLanguageProcessor.fieldPattern).
Proof.
  assert (forall res, is_Some (group 1 res) ->
            group 1 res = Some (NaturalLanguageProcessor.group1 res))
    as Hsome.
  { intros res [v Hv]. unfold NaturalLanguageProcessor.group1.
    rewrite Hv. reflexivity. }
  split.
  - repeat constructor; intros res Hres; apply Hsome;
      (eapply match_defines; [eassumption|reflexivity]).
  - eapply Forall_impl; [|exact Hsome].
    apply matches_from_defines. reflexivity.
Qed.

End Matcher.

(** ** The loops have fuel enough *)

Section Fuel.
Import RegExp.

(** A loop depends on its continuation only at the states ahead, if its
    iterations do. *)
Lemma repeat_ext greedy iter :
  (forall k1 k2 x, (forall y, ahead x y -> k1 y = k2 y) ->
                   iter k1 x = iter k2 x) ->
  forall fuel k1 k2 x, (forall y, ahead x y -> k1 y = k2 y) ->
    repeat greedy iter k1 fuel x = repeat greedy iter k2 fuel x.
Proof.
  intros Hiter. induction fuel as [|fuel IH]; intros k1 k2 x Hk;
    cbn [repeat].
  - apply Hk, ahead_refl.
  - rewrite (Hk x (ahead_refl x)).
    rewrite (Hiter _ (fun y => if (pos x <? pos y)%nat
                               then repeat greedy iter k2 fuel y else None)).
    + reflexivity.
    + intros y Hy. destruct (pos x <? pos y)%nat; [|reflexivity].
      apply IH. intros y' Hy'. apply Hk. eapply ahead_trans; eassumption.
Qed.

(** A match depends on its continuation only at the states ahead. *)
Lemma m_ext ic r :
  forall k1 k2 x, (forall y, ahead x y -> k1 y = k2 y) ->
    m ic r k1 x = m ic r k2 x.
Proof.
  induction r as [|c| |negated items|a IHa b IHb|a IHa b IHb|greedy a IHa
                 |n a IHa| | |];
    intros k1 k2 x Hk; cbn [m];
    try (unfold one; destruct (rest x) as [|c' t] eqn:Hrest;
         [reflexivity|];
         match goal with |- context [if ?b then _ else _] => destruct b end;
         [apply Hk, ahead_step, Hrest|reflexivity]).
  - apply Hk, ahead_refl.
  - apply IHa. intros y Hy. apply IHb. intros y' Hy'.
    apply Hk. eapply ahead_trans; eassumption.
  - rewrite (IHa k1 k2 x Hk), (IHb k1 k2 x Hk). reflexivity.
  - apply repeat_ext; [exact IHa|exact Hk].
  - apply IHa. intros y Hy. apply Hk. exact Hy.
  - destruct (prev x); [reflexivity|]. apply Hk, ahead_refl.
  - destruct (rest x); [|reflexivity]. apply Hk, ahead_refl.
  - destruct (xorb _ _); [|reflexivity]. apply Hk, ahead_refl.
Qed.

(** A loop needs one round per character that is left, and one more. *)
Lemma repeat_fuel ic greedy a k :
  forall n x, (String.length (rest x) <= n)%nat ->
    forall fuel1 fuel2, (n < fuel1)%nat -> (n < fuel2)%nat ->
      repeat greedy (m ic a) k fuel1 x = repeat greedy (m ic a) k fuel2 x.
Proof.
  induction n as [|n IH]; intros x Hx fuel1 fuel2 H1 H2;
    (destruct fuel1 as [|fuel1]; [lia|]);
    (destruct fuel2 as [|fuel2]; [lia|]);
    cbn [repeat];
    (rewrite (m_ext ic a _
                (fun y => if (pos x <? pos y)%nat
                          then repeat greedy (m ic a) k fuel2 y else None));
     [reflexivity|]);
    intros y [Hpos Hlen];
    destruct (Nat.ltb_spec (pos x) (pos y)) as [Hlt|Hge];
    try reflexivity.
  - lia.
  - apply IH; lia.
Qed.

(** [Star]'s loop gives the same result with any more fuel: its fuel never
    cuts a match short. *)
Theorem star_fuel ic greedy a k x fuel :
  (String.length (rest x) < fuel)%nat ->
  m ic (Star greedy a) k x = repeat greedy (m ic a) k fuel x.
Proof.
  intros Hfuel. cbn [m].
  apply (repeat_fuel ic greedy a k (String.length (rest x))); lia.
Qed.

(** Where a search ends. *)
Lemma search_ahead ic r p t i b y :
  search ic r p t i = Some (b, y) ->
  (i <= b <= pos y)%nat
  /\ (String.length (rest y) + pos y = String.length t + i)%nat.
Proof.
  revert p i. induction t as [|c t IH]; intros p i; cbn [search];
    unfold match_at;
    destruct (m ic r Some _) as [y'|] eqn:Hm; intros H; try discriminate.
  - injection H as <- <-.
    apply m_inv in Hm as (y'' & [= <-] & ((Hpos & Hlen) & _) & _).
    cbn in *. lia.
  - injection H as <- <-.
    apply m_inv in Hm as (y'' & [= <-] & ((Hpos & Hlen) & _) & _).
    cbn in *. lia.
  - apply IH in H. cbn [String.length]. lia.
Qed.

(** The loop over the matches of a global expression needs one round per
    character of the input, and one more. *)
Lemma matches_from_fuel ic r :
  forall n p t i, (String.length t <= n)%nat ->
    forall fuel1 fuel2, (n < fuel1)%nat -> (n < fuel2)%nat ->
      matches_from fuel1 ic r p t i = matches_from fuel2 ic r p t i.
Proof.
  induction n as [|n IH]; intros p t i Ht fuel1 fuel2 H1 H2;
    (destruct fuel1 as [|fuel1]; [lia|]);
    (destruct fuel2 as [|fuel2]; [lia|]);
    cbn [matches_from];
    (destruct (search ic r p t i) as [[b y]|] eqn:Hs; [|reflexivity]);
    apply search_ahead in Hs as (Hpos & Hlen);
    destruct (Nat.ltb_spec b (pos y)) as [Hlt|Hge].
  - lia.
  - destruct (rest y) as [|c t'] eqn:Hrest; [reflexivity|].
    cbn [String.length] in Hlen. lia.
  - f_equal. apply IH; lia.
  - destruct (rest y) as [|c t'] eqn:Hrest; [reflexivity|].
    cbn [String.length] in Hlen. f_equal. apply IH; lia.
Qed.

(** [all_matches] gives the same list with any more fuel. *)
Theorem all_matches_fuel rx str fuel :
  (String.length str < fuel)%nat ->
  all_matches rx str
  = matches_from fuel (ignoreCase rx) (source rx) None str 0.
Proof.
  intros Hfuel. unfold all_matches.
  apply (matches_from_fuel _ _ (String.length str)); lia.
Qed.

(** The loop of [split] needs two rounds per character that is left: one
    to cut a piece, one to step over an empty separator. *)
Lemma split_from_fuel ic r :
  forall n p piece pv t q,
    (2 * String.length t + (if (p =? q)%nat then 0 else 1) <= n)%nat ->
    forall fuel1 fuel2, (n < fuel1)%nat -> (n < fuel2)%nat ->
      split_from fuel1 ic r p piece pv t q
      = split_from fuel2 ic r p piece pv t q.
Proof.
  induction n as [|n IH]; intros p piece pv t q Hn fuel1 fuel2 H1 H2;
    (destruct fuel1 as [|fuel1]; [lia|]);
    (destruct fuel2 as [|fuel2]; [lia|]);
    cbn [split_from];
    (destruct t as [|c t]; [reflexivity|]);
    cbn [String.length] in Hn; [lia|].
  assert (split_from fuel1 ic r p (piece ++ String c EmptyString) (Some c) t
            (S q)
          = split_from fuel2 ic r p (piece ++ String c EmptyString) (Some c)
              t (S q)) as Hskip.
  { apply IH; [|lia|lia]. destruct (p =? S q)%nat; lia. }
  unfold match_at.
  destruct (m ic r Some _) as [y|] eqn:Hm; [|exact Hskip].
  destruct (Nat.eqb_spec (pos y) p) as [Heq|Hne]; [exact Hskip|].
  apply m_inv in Hm as (y' & [= <-] & ((Hpos & Hlen) & _) & _).
  cbn [pos rest String.length] in Hpos, Hlen.
  f_equal. apply IH; [|lia|lia].
  rewrite Nat.eqb_refl.
  destruct (Nat.eqb_spec p q) as [->|Hpq]; lia.
Qed.

(** [split] gives the same pieces with any more fuel. *)
Theorem split_fuel str rx fuel :
  str <> EmptyString ->
  (2 * String.length str < fuel)%nat ->
  split str rx
  = split_from fuel (ignoreCase rx) (source rx) 0 EmptyString None str 0.
Proof.
  intros Hstr Hfuel. unfold split. destruct str as [|c t]; [contradiction|].
  apply (split_from_fuel _ _ (2 * String.length (String c t)));
    [cbn [Nat.eqb]; lia|lia|exact Hfuel].
Qed.

End Fuel.

(** ** The table slot *)

Section TableSlot.

Lemma assign_keeps_tableName {A : Type} (v : option A)
    (set : A -> ExtractedEntities.t -> ExtractedEntities.t) e :
  (forall a e', ExtractedEntities.tableName (set a e')
                = ExtractedEntities.tableName e') ->
  ExtractedEntities.tableName (assign v set e)
  = ExtractedEntities.tableName e.
Proof. intros Hset. destruct v; cbn; auto. Qed.

(** The table name [extractEntities] returns: the context's table for a
    query that says "esa tabla" or matches no table marker, the marker's
    capture otherwise. *)
Lemma extractEntities_tableName query intent context :
  ExtractedEntities.tableName (extractEntities query intent context)
  = let current := ConversationContext.currentTable context in
    match RegExp.match_ query tablePattern with
    | Some tableMatch =>
        if Js.includes query "esa tabla" && Js.truthy current then current
        else Some (Js.trim (group1 tableMatch))
    | None => if Js.truthy current then current else None
    end.
Proof.
  unfold extractEntities. cbv zeta.
  rewrite assign_keeps_tableName by reflexivity.
  set (first :=
         match RegExp.match_ query tablePattern with
         | Some tableMatch => _
         | None => _
         end).
  assert (ExtractedEntities.tableName first
          = match RegExp.match_ query tablePattern with
            | Some tableMatch => Some (Js.trim (group1 tableMatch))
            | None =>
                if Js.truthy (ConversationContext.currentTable context)
                then ConversationContext.currentTable context else None
            end) as Hfirst.
  { subst first. destruct (RegExp.match_ query tablePattern); [reflexivity|].
    destruct (ConversationContext.currentTable context) as [[|c t]|];
      reflexivity. }
  destruct (Js.includes query "esa tabla"
            && Js.truthy (ConversationContext.currentTable context)) eqn:Hesa.
  - apply andb_prop in Hesa as [_ Hcur]. rewrite Hcur.
    destruct (ConversationContext.currentTable context) as [cur|] eqn:Hc;
      [|discriminate].
    cbn [guard assign ExtractedEntities.set_tableName
         ExtractedEntities.tableName].
    destruct (RegExp.match_ query tablePattern); reflexivity.
  - cbn [guard assign].
    repeat (rewrite assign_keeps_tableName by reflexivity).
    rewrite Hfirst.
    destruct (RegExp.match_ query tablePattern); reflexivity.
Qed.

Lemma processRelativeValues_tableName env entities originalQuery :
  ExtractedEntities.tableName
    (processRelativeValues env entities originalQuery)
  = ExtractedEntities.tableName entities.
Proof.
  unfold processRelativeValues.
  repeat match goal with |- context [if ?b then _ else _] => destruct b end;
    reflexivity.
Qed.

(** Only a missing table name makes [determineClarifications] ask for the
    table. *)
Lemma missing_table_asked intent entities validation c :
  In c (determineClarifications intent entities validation) ->
  Clarification.type c = MISSING_TABLE ->
  Js.truthy (ExtractedEntities.tableName entities) = false.
Proof.
  unfold determineClarifications, ValidationEngine.pushed, ask.
  rewrite !in_app_iff.
  destruct (Js.truthy (ExtractedEntities.tableName entities));
    [|reflexivity].
  rewrite andb_false_r.
  repeat match goal with |- context [if ?b then _ else _] => destruct b end;
    cbn; intros H Hty; exfalso;
    repeat match goal with
           | H : _ \/ _ |- _ => destruct H as [H|H]
           | H : False |- _ => destruct H
           | H : _ = c |- _ => subst c; discriminate Hty
           end.
Qed.

Lemma getContext_known sessionId userId h context :
  ContextHandler.contexts h !! sessionId = Some context ->
  ContextHandler.getContext sessionId userId h = (context, h).
Proof. unfold ContextHandler.getContext. intros ->. reflexivity. Qed.

(** C10.  In a context whose current table is set (it holds a name),
    [extractEntities] fills the table slot for every query and every
    intent: where no table marker matches, with the context's table, whether
    or not the query refers to a table at all.  So no clarification of
    kind [missing_table] comes out of these entities, whatever the intent,
    and [processQuery] asks for no table in a session whose stored context
    has its current table set. *)
Theorem currentTable_fills_tableName query intent context :
  Js.truthy (ConversationContext.currentTable context) = true ->
  let entities := extractEntities query intent context in
  Js.truthy (ExtractedEntities.tableName entities) = true
  /\ (RegExp.match_ query tablePattern = None ->
      ExtractedEntities.tableName entities
      = ConversationContext.currentTable context)
  /\ (forall env originalQuery intent' validation c,
        In c (determineClarifications intent'
                (processRelativeValues env entities originalQuery)
                validation) ->
        Clarification.type c <> MISSING_TABLE)
  /\ (forall env request p c,
        ContextHandler.contexts (contextHandler p) !! session request
        = Some context ->
        In c (ProcessedQuery.clarifications
                (fst (processQuery env request p))) ->
        Clarification.type c <> MISSING_TABLE).
Proof.
  intros Hcur.
  assert (forall query intent,
            Js.truthy (ExtractedEntities.tableName
                         (extractEntities query intent context)) = true)
    as Hfilled.
  { clear query intent. intros query intent.
    rewrite extractEntities_tableName. cbv zeta. rewrite Hcur, andb_true_r.
    destruct (RegExp.match_ query tablePattern) as [tableMatch|] eqn:Hm;
      [|exact Hcur].
    destruct (Js.includes query "esa tabla"); [exact Hcur|].
    eapply tablePattern_capture; eassumption. }
  assert (forall query intent env originalQuery intent' validation c,
            In c (determineClarifications intent'
                    (processRelativeValues env
                       (extractEntities query intent context) originalQuery)
                    validation) ->
            Clarification.type c <> MISSING_TABLE) as Hasked.
  { clear query intent. intros query intent env originalQuery intent'
      validation c Hin Hty.
    apply missing_table_asked in Hin; [|assumption].
    rewrite processRelativeValues_tableName, Hfilled in Hin.
    discriminate Hin. }
  cbv zeta. split; [apply Hfilled|]. split; [|split].
  - intros Hnone. rewrite extractEntities_tableName. cbv zeta.
    rewrite Hnone, Hcur. reflexivity.
  - apply Hasked.
  - intros env request p c Hstored. unfold processQuery.
    destruct (tryBlock env request p) as [[result|e] p'] eqn:Htry; cbn [fst].
    + apply tryBlock_ok in Htry. cbv zeta in Htry.
      rewrite (getContext_known _ _ _ _ Hstored) in Htry. cbn [fst] in Htry.
      subst result. cbn [ProcessedQuery.clarifications]. apply Hasked.
    + cbn. intros [<-|[]]. discriminate.
Qed.

End TableSlot.

(** ** Instances *)

(** C1 at "asdkj qwoe": the pipeline completes, with the score of an
    unknown intent, no entity, a valid result and an analyzer confidence of
    0.5. *)
Lemma processQuery_confidence_witness :
  let env := quiet (fun _ => "2026-11-02") in
  let query := NaturalLanguageQuery.mk "asdkj qwoe" None None in
  let out := processQuery env query NaturalLanguageTool.processor in
  tryBlock env query NaturalLanguageTool.processor = (Ok (fst out), snd out)
  /\ ProcessedQuery.confidence (fst out)
     = Spec.confidence UNKNOWN 0 true 0.5%float
  /\ Num.in_unit (ProcessedQuery.confidence (fst out)).
Proof.
  cbv zeta.
  assert (tryBlock (quiet (fun _ => "2026-11-02"))
            (NaturalLanguageQuery.mk "asdkj qwoe" None None)
            NaturalLanguageTool.processor
          = (Ok (fst (processQuery (quiet (fun _ => "2026-11-02"))
                        (NaturalLanguageQuery.mk "asdkj qwoe" None None)
                        NaturalLanguageTool.processor)),
             snd (processQuery (quiet (fun _ => "2026-11-02"))
                    (NaturalLanguageQuery.mk "asdkj qwoe" None None)
                    NaturalLanguageTool.processor))) as H
    by (vm_compute; reflexivity).
  split; [exact H|].
  destruct (processQuery_confidence (quiet (fun _ => "2026-11-02"))
              (NaturalLanguageQuery.mk "asdkj qwoe" None None)
              NaturalLanguageTool.processor) as (Hunit & Hscore).
  split; [|exact Hunit].
  destruct (Hscore _ _ H) as (_ & ->). vm_compute. reflexivity.
Defined.

(** C3 at a fault in step 8. *)
Lemma processQuery_catches_witness :
  let env :=
    mkEnv (fun _ => "2026-11-02")
      (fun stage => match stage with Validate => true | _ => false end) in
  let query := NaturalLanguageQuery.mk "listar bases" None None in
  let result := fst (processQuery env query NaturalLanguageTool.processor) in
  faults env Validate = true
  /\ ProcessedQuery.intent result = UNKNOWN
  /\ ProcessedQuery.confidence result = 0%float
  /\ ProcessedQuery.requiresClarification result = true
  /\ exists c, ProcessedQuery.clarifications result = [c]
               /\ Clarification.type c = AMBIGUOUS_REFERENCE.
Proof.
  cbv zeta. split; [reflexivity|].
  apply processQuery_catches. left. exists Validate. reflexivity.
Defined.

(** C6 at a fault in step 3, for a session the handler has not seen. *)
Lemma failed_call_store_witness :
  let env :=
    mkEnv (fun _ => "2026-11-02")
      (fun stage => match stage with Analyze => true | _ => false end) in
  let query := NaturalLanguageQuery.mk "listar bases" None (Some "s1") in
  let p := NaturalLanguageTool.processor in
  let p' := snd (processQuery env query p) in
  tryBlock env query p = (Throw (Unexpected Analyze), p')
  /\ ContextHandler.contexts (contextHandler p')
     = <["s1" := ContextHandler.createNewContext "s1" "anonymous"]>
         (ContextHandler.contexts (contextHandler p)).
Proof.
  cbv zeta.
  assert (tryBlock
            (mkEnv (fun _ => "2026-11-02")
               (fun stage => match stage with Analyze => true | _ => false end))
            (NaturalLanguageQuery.mk "listar bases" None (Some "s1"))
            NaturalLanguageTool.processor
          = (Throw (Unexpected Analyze),
             snd (processQuery
                    (mkEnv (fun _ => "2026-11-02")
                       (fun stage =>
                          match stage with Analyze => true | _ => false end))
                    (NaturalLanguageQuery.mk "listar bases" None (Some "s1"))
                    NaturalLanguageTool.processor))) as H
    by (vm_compute; reflexivity).
  split; [exact H|].
  destruct (failed_call_store _ _ _ _ _ H) as (_ & _ & _ & Hnew).
  apply Hnew; reflexivity.
Defined.

(** C10 at a context whose current table is "Tareas" and a query that
    names no table. *)
Lemma currentTable_fills_tableName_witness :
  let context :=
    ContextHandler.set_currentTable "Tareas"
      (ContextHandler.createNewContext "s1" "u1") in
  Js.truthy (ConversationContext.currentTable context) = true
  /\ ExtractedEntities.tableName
       (extractEntities "listar todo" LIST_RECORDS context)
     = Some "Tareas".
Proof.
  cbv zeta. split; [reflexivity|].
  destruct (currentTable_fills_tableName "listar todo" LIST_RECORDS
              (ContextHandler.set_currentTable "Tareas"
                 (ContextHandler.createNewContext "s1" "u1")) eq_refl)
    as (_ & Hcopy & _).
  apply Hcopy. vm_compute. reflexivity.
Defined.
(** ** The context handler, operation by operation *)

Section Handler.
Import ContextHandler.

Lemma set_contexts_same h : set_contexts (contexts h) h = h.
Proof. destruct h; reflexivity. Qed.

Lemma mem_In x xs : Js.mem x xs = true <-> x ∈ xs.
Proof.
  unfold Js.mem. rewrite existsb_exists, list_elem_of_In. split.
  - intros (y & Hy & Heq). apply String.eqb_eq in Heq. subst y. exact Hy.
  - intros Hx. exists x. split; [exact Hx|apply String.eqb_refl].
Qed.

Lemma truthy_named x : Js.truthy (Some x) = true -> x <> EmptyString.
Proof. destruct x; [discriminate|congruence]. Qed.

Lemma truthy_Some v : Js.truthy v = true -> exists x, v = Some x.
Proof. destruct v as [x|]; [eauto|discriminate]. Qed.

(** X5.  [getContext] stores what it returns: the session's entry is the
    context returned, a second call returns the same context and changes
    nothing, whatever user it names; a session that had no entry gets the
    empty context of the first caller; no other session is touched, and a
    handler that knows the session is left as it is. *)
Theorem getContext_round_trip sessionId userId h :
  let context := fst (getContext sessionId userId h) in
  let h' := snd (getContext sessionId userId h) in
  contexts h' !! sessionId = Some context
  /\ (forall userId', getContext sessionId userId' h' = (context, h'))
  /\ (contexts h !! sessionId = None ->
      context = createNewContext sessionId userId)
  /\ (forall other, other <> sessionId ->
        contexts h' !! other = contexts h !! other)
  /\ (is_Some (contexts h !! sessionId) -> h' = h)
  /\ maxContextQueries h' = maxContextQueries h.
Proof.
  cbv zeta. unfold getContext.
  destruct (contexts h !! sessionId) as [context|] eqn:Hl; cbn [fst snd].
  - repeat split; try congruence.
    intros userId'. rewrite Hl. reflexivity.
  - cbn [set_contexts contexts maxContextQueries].
    rewrite lookup_insert_eq. repeat split.
    + intros other Hother. apply lookup_insert_ne. congruence.
    + intros [c [=]].
Qed.

(** X6.  [updateContext] throws exactly for a session the handler does not
    hold, with the message that names the session, and then changes
    nothing; so an update after [clearContext] always throws.  For a session
    it holds it returns, replaces that session's entry only, and keeps the
    entry's session, user and preferences and the handler's bound. *)
Theorem updateContext_outcome sessionId queryData h :
  let out := updateContext sessionId queryData h in
  match contexts h !! sessionId with
  | None =>
      out = (Throw (JsError ("Context not found for session: " ++ sessionId)),
             h)
  | Some context =>
      fst out = Ok tt
      /\ maxContextQueries (snd out) = maxContextQueries h
      /\ exists context',
           contexts (snd out) = <[sessionId := context']> (contexts h)
           /\ ConversationContext.sessionId context'
              = ConversationContext.sessionId context
           /\ ConversationContext.userId context'
              = ConversationContext.userId context
           /\ ConversationContext.preferences context'
              = ConversationContext.preferences context
  end
  /\ exists e,
       updateContext sessionId queryData (clearContext sessionId h)
       = (Throw e, clearContext sessionId h).
Proof.
  cbv zeta. split.
  - unfold updateContext.
    destruct (contexts h !! sessionId) as [context|]; [|reflexivity].
    cbn [fst snd set_contexts contexts maxContextQueries].
    split; [reflexivity|]. split; [reflexivity|].
    eexists. split; [reflexivity|].
    destruct (QueryData.entities queryData) as [entities|];
      [|repeat split].
    unfold when_set.
    repeat match goal with
           | |- context [match ?v with Some _ => _ | None => _ end] =>
               destruct v
           | |- context [if ?b then _ else _] => destruct b
           end; repeat split.
  - unfold updateContext, clearContext. cbn [set_contexts contexts].
    rewrite lookup_delete_eq. eauto.
Qed.

(** *** Names mentioned *)

Lemma push_new_ok x names :
  x <> EmptyString -> names_ok names -> names_ok (push_new x names).
Proof.
  intros Hx [Hdup Hnamed]. unfold push_new.
  destruct (Js.mem x names) eqn:Hmem; [split; assumption|].
  assert (x ∉ names) as Hnew.
  { intros Hin. apply mem_In in Hin. congruence. }
  split.
  - apply NoDup_app. repeat split; [exact Hdup| |apply NoDup_singleton].
    intros y Hy ->%list_elem_of_singleton. contradiction.
  - rewrite elem_of_app, list_elem_of_singleton. intros [H|H]; auto.
Qed.

Abbreviation mentioned_ok c :=
  (let mentioned := ConversationContext.mentionedEntities c in
   names_ok (MentionedEntities.tables mentioned)
   /\ names_ok (MentionedEntities.records mentioned)
   /\ names_ok (MentionedEntities.fields mentioned)).

Lemma when_set_mentioned v f c :
  (forall x c', Js.truthy (Some x) = true ->
                mentioned_ok c' -> mentioned_ok (f x c')) ->
  mentioned_ok c -> mentioned_ok (when_set v f c).
Proof.
  intros Hf Hc. unfold when_set. destruct v as [x|]; [|exact Hc].
  destruct (Js.truthy (Some x)) eqn:Hx; auto.
Qed.

Lemma updateContext_mentioned sessionId queryData h context :
  contexts h !! sessionId = Some context ->
  mentioned_ok context ->
  exists context',
    snd (updateContext sessionId queryData h)
    = set_contexts (<[sessionId := context']> (contexts h)) h
    /\ mentioned_ok context'.
Proof.
  intros Hl Hc. unfold updateContext. rewrite Hl. cbn [snd].
  eexists. split; [reflexivity|].
  destruct (QueryData.entities queryData) as [entities|]; [|exact Hc].
  repeat (apply when_set_mentioned;
          [intros x c' Hx%truthy_named (Ht & Hr & Hf)|]);
    try exact Hc; cbn; (split; [|split]);
    first [assumption | apply push_new_ok; assumption].
Qed.

(** X7.  The lists of mentioned tables, records and fields of every stored
    context hold each name once and never the empty string.  This holds of
    a new handler, and every operation that writes the session map keeps
    it. *)
Theorem mentions_ok_invariant :
  (forall maxContextQueries, mentions_ok (new maxContextQueries))
  /\ (forall sessionId userId h,
        mentions_ok h -> mentions_ok (snd (getContext sessionId userId h)))
  /\ (forall sessionId queryData h,
        mentions_ok h ->
        mentions_ok (snd (updateContext sessionId queryData h)))
  /\ (forall sessionId table recordId baseId h,
        mentions_ok h ->
        mentions_ok (setCurrentContext sessionId table recordId baseId h))
  /\ (forall sessionId given h,
        mentions_ok h -> mentions_ok (updatePreferences sessionId given h))
  /\ (forall sessionId h,
        mentions_ok h -> mentions_ok (clearContext sessionId h)).
Proof.
  assert (names_ok []) as Hnil
    by (split; [apply NoDup_nil_2|apply not_elem_of_nil]).
  unfold mentions_ok. split; [|split; [|split; [|split; [|split]]]].
  - intros maxContextQueries. apply map_Forall_empty.
  - intros sessionId userId h Hh. unfold getContext.
    destruct (contexts h !! sessionId) eqn:Hs; cbn [snd]; [exact Hh|].
    cbn [set_contexts contexts]. apply map_Forall_insert_2; [|exact Hh].
    cbn. auto.
  - intros sessionId queryData h Hh.
    destruct (contexts h !! sessionId) as [context|] eqn:Hs.
    + destruct (updateContext_mentioned sessionId queryData h context Hs
                  (Hh _ _ Hs)) as (context' & -> & Hok).
      cbn [set_contexts contexts]. apply map_Forall_insert_2; assumption.
    + unfold updateContext. rewrite Hs. exact Hh.
  - intros sessionId table recordId baseId h Hh. unfold setCurrentContext.
    destruct (contexts h !! sessionId) as [context|] eqn:Hs; [|exact Hh].
    cbn [set_contexts contexts]. apply map_Forall_insert_2; [|exact Hh].
    repeat (apply when_set_mentioned; [intros x' c' _ Hc'; exact Hc'|]).
    exact (Hh _ _ Hs).
  - intros sessionId given h Hh. unfold updatePreferences.
    destruct (contexts h !! sessionId) as [context|] eqn:Hs; [|exact Hh].
    cbn [set_contexts contexts]. apply map_Forall_insert_2; [|exact Hh].
    exact (Hh _ _ Hs).
  - intros sessionId h Hh. unfold clearContext.
    cbn [set_contexts contexts]. apply map_Forall_delete, Hh.
Qed.

End Handler.
(** ** What the context handler answers *)

Section Answers.
Import ContextHandler.

(** A conditional assignment keeps what its assignment keeps. *)
Lemma when_set_keeps {A : Type} (proj : ConversationContext.t -> A) v f c :
  (forall x c', proj (f x c') = proj c') ->
  proj (when_set v f c) = proj c.
Proof.
  intros Hf. unfold when_set. destruct v as [x|]; [|reflexivity].
  destruct (Js.truthy (Some x)); auto.
Qed.

Lemma when_set_truthy x f c :
  x <> EmptyString -> when_set (Some x) f c = f x c.
Proof. destruct x; [congruence|reflexivity]. Qed.

Lemma when_set_falsy v f c : Js.truthy v = false -> when_set v f c = c.
Proof. unfold when_set. destruct v; [intros ->|]; reflexivity. Qed.

Lemma push_new_elem x names : x ∈ push_new x names.
Proof.
  unfold push_new. destruct (Js.mem x names) eqn:Hmem.
  - apply mem_In, Hmem.
  - apply elem_of_app. right. apply list_elem_of_singleton. reflexivity.
Qed.

(** The context an update stores: its current table is the table of the
    turn, if the turn names one, and the table it had otherwise; the tables
    mentioned are the old ones, with the turn's table added if it is new. *)
Lemma updateContext_table sessionId queryData h context :
  contexts h !! sessionId = Some context ->
  exists context',
    snd (updateContext sessionId queryData h)
    = set_contexts (<[sessionId := context']> (contexts h)) h
    /\ let named :=
         QueryData.entities queryData ≫= ExtractedEntities.tableName in
       ConversationContext.currentTable context'
       = (if Js.truthy named then named
          else ConversationContext.currentTable context)
       /\ MentionedEntities.tables
            (ConversationContext.mentionedEntities context')
          = (if Js.truthy named
             then push_new (default "" named)
                    (MentionedEntities.tables
                       (ConversationContext.mentionedEntities context))
             else MentionedEntities.tables
                    (ConversationContext.mentionedEntities context)).
Proof.
  intros Hl. unfold updateContext. rewrite Hl. cbn [snd].
  eexists. split; [reflexivity|]. cbv zeta.
  destruct (QueryData.entities queryData) as [entities|]; cbn [mbind option_bind];
    [|split; reflexivity].
  rewrite !(when_set_keeps ConversationContext.currentTable) by reflexivity.
  rewrite !(when_set_keeps
              (fun c => MentionedEntities.tables
                          (ConversationContext.mentionedEntities c)))
    by reflexivity.
  destruct (Js.truthy (ExtractedEntities.tableName entities)) eqn:Hnamed.
  - apply truthy_Some in Hnamed as Hsome. destruct Hsome as [x Hx].
    rewrite Hx in *. apply truthy_named in Hnamed.
    rewrite when_set_truthy by assumption. split; reflexivity.
  - rewrite when_set_falsy by assumption. split; reflexivity.
Qed.

(** X8.  Once an update has named a table for a session, the handler answers
    with that table: it is the session's table suggestion, the resolution of
    "esa tabla" with confidence 0.9, the current table of
    [getCurrentEntities], and one of the tables mentioned. *)
Theorem updateContext_then_ask sessionId queryData h context entities
    tableName :
  contexts h !! sessionId = Some context ->
  QueryData.entities queryData = Some entities ->
  ExtractedEntities.tableName entities = Some tableName ->
  tableName <> EmptyString ->
  let h' := snd (updateContext sessionId queryData h) in
  getContextualTableSuggestion sessionId h' = Some tableName
  /\ resolveReference sessionId "esa tabla" "table" h'
     = ContextReference.mk "table" tableName true None 0.9
  /\ CurrentEntities.currentTable (getCurrentEntities sessionId h')
     = Some tableName
  /\ tableName
     ∈ MentionedEntities.tables
         (CurrentEntities.mentionedEntities (getCurrentEntities sessionId h')).
Proof.
  intros Hl Hentities Hname Hnamed. cbv zeta.
  destruct (updateContext_table sessionId queryData h context Hl)
    as (context' & -> & Hcurrent & Hmentioned).
  cbv zeta in Hcurrent, Hmentioned.
  rewrite Hentities in Hcurrent, Hmentioned.
  cbn [mbind option_bind] in Hcurrent, Hmentioned.
  rewrite Hname in Hcurrent, Hmentioned.
  assert (Js.truthy (Some tableName) = true) as Htruthy
    by (destruct tableName; [congruence|reflexivity]).
  rewrite Htruthy in Hcurrent, Hmentioned.
  unfold getContextualTableSuggestion, resolveReference, getCurrentEntities.
  cbn [set_contexts contexts]. rewrite lookup_insert_eq.
  cbn [CurrentEntities.currentTable CurrentEntities.mentionedEntities].
  rewrite Hcurrent, Hmentioned, Htruthy.
  repeat split. cbn [default]. apply push_new_elem.
Qed.

Lemma slice_drop {A : Type} (start : Z) (xs : list A) :
  exists k, slice start xs = drop k xs.
Proof. unfold slice. eauto. Qed.

Lemma last_drop {A : Type} (d : A) (xs : list A) :
  forall k, (k < length xs)%nat -> List.last (drop k xs) d = List.last xs d.
Proof.
  induction xs as [|x xs IH]; intros k Hk; [cbn in Hk; lia|].
  destruct k as [|k]; [reflexivity|]. cbn [drop skipn].
  cbn [length] in Hk. rewrite IH by lia.
  destruct xs; [cbn in Hk; lia|reflexivity].
Qed.

(** The last three names: at most three, at least one of a list that is not
    empty, and ending where the list ends. *)
Lemma slice_last3 (names : list string) :
  (0 <? length names)%nat = true ->
  (1 <= length (slice (-3) names) <= 3)%nat
  /\ List.last (slice (-3) names) "" = List.last names "".
Proof.
  intros Hsome%Nat.ltb_lt.
  change (-3)%Z with (- (3))%Z. rewrite slice_last by lia.
  rewrite length_drop. split; [lia|].
  apply last_drop. lia.
Qed.

(** X9.  What [resolveReference] can answer.  The answer carries the type
    asked; an unresolved answer is the empty one (no reference, no
    alternative, confidence 0), and it is the answer for a session the
    handler does not hold and for a type other than "table", "record" and
    "base"; a resolved answer has confidence 0.9 (the current entity, no
    alternatives) or 0.7 (the name mentioned last, with the one to three
    names mentioned last as alternatives, the reference being the last of
    them). *)
Theorem resolveReference_outcome sessionId reference type h :
  let r := resolveReference sessionId reference type h in
  ContextReference.referenceType r = type
  /\ (ContextReference.resolved r = false ->
      r = ContextReference.mk type "" false None 0)
  /\ (contexts h !! sessionId = None -> ContextReference.resolved r = false)
  /\ (type <> "table" -> type <> "record" -> type <> "base" ->
      ContextReference.resolved r = false)
  /\ (ContextReference.resolved r = true ->
      match ContextReference.alternatives r with
      | None => ContextReference.confidence r = 0.9%float
      | Some names =>
          ContextReference.confidence r = 0.7%float
          /\ (1 <= length names <= 3)%nat
          /\ List.last names "" = ContextReference.reference r
      end).
Proof.
  cbv zeta. unfold resolveReference.
  destruct (contexts h !! sessionId) as [context|];
    [|cbn; repeat split; intros; congruence].
  destruct (String.eqb_spec type "table") as [->|Htable];
    [|destruct (String.eqb_spec type "record") as [->|Hrecord];
      [|destruct (String.eqb_spec type "base") as [->|Hbase]]].
  - destruct (_ && _); [cbn; repeat split; intros; congruence|].
    destruct (0 <? length _)%nat eqn:Hsome;
      [|cbn; repeat split; intros; congruence].
    destruct (slice_last3 _ Hsome) as [Hlen Hlast].
    cbn. repeat split; intros; try congruence; apply Hlen.
  - destruct (_ && _); [cbn; repeat split; intros; congruence|].
    destruct (0 <? length _)%nat eqn:Hsome;
      [|cbn; repeat split; intros; congruence].
    destruct (slice_last3 _ Hsome) as [Hlen Hlast].
    cbn. repeat split; intros; try congruence; apply Hlen.
  - destruct (Js.truthy _); cbn; repeat split; intros; congruence.
  - cbn. repeat split; intros; congruence.
Qed.

(** X10.  [findRecentQueryByIntent] answers with entries of the session's
    history that carry the intent asked, in the order of the history; with
    a limit of one or more (3 when none is given), with the latest of them,
    as many as the limit at most; with a limit of 0, with all of them; and
    with nothing for a session the handler does not hold. *)
Theorem findRecentQueryByIntent_latest sessionId intent limit h :
  let found := findRecentQueryByIntent sessionId intent limit h in
  let n := default 3%Z limit in
  Forall (fun query => PreviousQuery.intent query = intent) found
  /\ (contexts h !! sessionId = None -> found = [])
  /\ (forall context,
        contexts h !! sessionId = Some context ->
        let matching :=
          filter (fun query => String.eqb (PreviousQuery.intent query) intent)
            (ConversationContext.previousQueries context) in
        sublist found (ConversationContext.previousQueries context)
        /\ ((1 <= n)%Z ->
            found = drop (length matching - Z.to_nat n) matching
            /\ (length found <= Z.to_nat n)%nat)
        /\ (n = 0%Z -> found = matching)).
Proof.
  cbv zeta. unfold findRecentQueryByIntent.
  destruct (contexts h !! sessionId) as [context|];
    [|split; [apply Forall_nil_2|split; [reflexivity|discriminate]]].
  set (matching := filter _ _).
  assert (Forall (fun query => PreviousQuery.intent query = intent) matching)
    as Hall.
  { apply Forall_forall. intros query [Hq _]%list_elem_of_filter.
    apply String.eqb_eq, Is_true_true, Hq. }
  assert (sublist matching (ConversationContext.previousQueries context))
    as Hsub by apply sublist_filter.
  split; [|split; [discriminate|]].
  - destruct (slice_drop (- default 3%Z limit) matching) as [k ->].
    apply Forall_drop, Hall.
  - intros context' [= <-]. fold matching. split; [|split].
    + destruct (slice_drop (- default 3%Z limit) matching) as [k ->].
      etransitivity; [apply sublist_drop|exact Hsub].
    + intros Hn. rewrite slice_last by assumption.
      split; [reflexivity|]. rewrite length_drop. lia.
    + intros ->. unfold slice. cbn [Z.opp Z.ltb Z.compare].
      rewrite Z.min_l by lia. reflexivity.
Qed.

Lemma merge_nothing p :
  merge p (PartialPreferences.mk None None None) = p.
Proof. destruct p; reflexivity. Qed.

Lemma set_preferences_same c :
  set_preferences (ConversationContext.preferences c) c = c.
Proof. destruct c; reflexivity. Qed.

(** X11.  Preferences are merged property by property.  Two updates are one
    update with the later value of each property given; an update that
    gives nothing, or one for a session the handler does not hold, changes
    nothing; and an update changes nothing of a context but its
    preferences. *)
Theorem updatePreferences_merge sessionId first second h :
  let later (a b : option string) :=
    match b with Some _ => b | None => a end in
  updatePreferences sessionId second (updatePreferences sessionId first h)
  = updatePreferences sessionId
      (PartialPreferences.mk
         (later (PartialPreferences.language first)
            (PartialPreferences.language second))
         (later (PartialPreferences.dateFormat first)
            (PartialPreferences.dateFormat second))
         (later (PartialPreferences.responseFormat first)
            (PartialPreferences.responseFormat second))) h
  /\ updatePreferences sessionId (PartialPreferences.mk None None None) h = h
  /\ (contexts h !! sessionId = None ->
      updatePreferences sessionId first h = h)
  /\ (forall context,
        contexts h !! sessionId = Some context ->
        contexts (updatePreferences sessionId first h) !! sessionId
        = Some (set_preferences
                  (merge (ConversationContext.preferences context) first)
                  context)).
Proof.
  cbv zeta. unfold updatePreferences.
  destruct (contexts h !! sessionId) as [context|] eqn:Hl;
    [|rewrite Hl; repeat split; discriminate].
  cbn [set_contexts contexts maxContextQueries].
  rewrite lookup_insert_eq. split; [|split; [|split; [discriminate|]]].
  - unfold set_contexts. cbn [contexts maxContextQueries].
    rewrite insert_insert_eq. f_equal. f_equal.
    destruct context as [? ? ? ? ? ? ? preferences].
    destruct preferences, first as [[?|] [?|] [?|]],
      second as [[?|] [?|] [?|]]; reflexivity.
  - rewrite merge_nothing, set_preferences_same, insert_id by assumption.
    apply set_contexts_same.
  - intros context' [= <-]. reflexivity.
Qed.

End Answers.

(** X8 at a turn that names the table "Tareas". *)
Lemma updateContext_then_ask_witness :
  let h :=
    snd (ContextHandler.getContext "s1" "u1" (ContextHandler.new None)) in
  let turn :=
    QueryData.mk "listar registros en Tareas" "list_records" None
      (Some (ExtractedEntities.set_tableName "Tareas" ExtractedEntities.empty))
      None in
  ContextHandler.getContextualTableSuggestion "s1"
    (snd (ContextHandler.updateContext "s1" turn h))
  = Some "Tareas".
Proof.
  cbv zeta.
  refine (proj1 (updateContext_then_ask "s1" _ _
                   (ContextHandler.createNewContext "s1" "u1")
                   (ExtractedEntities.set_tableName "Tareas"
                      ExtractedEntities.empty)
                   "Tareas" _ _ _ _));
    [vm_compute; reflexivity|reflexivity|reflexivity|discriminate].
Defined.
(** ** The normalized query *)

Section Normal.
Import RegExp.

(** *** Strings *)

Lemma str_app_cons c (a b : string) : String c a ++ b = String c (a ++ b).
Proof. reflexivity. Qed.

Lemma str_app_nil_r (s : string) : s ++ "" = s.
Proof.
  induction s as [|c s IH]; [reflexivity|].
  rewrite str_app_cons, IH. reflexivity.
Qed.

Lemma str_app_assoc (a b c : string) : (a ++ b) ++ c = a ++ (b ++ c).
Proof.
  induction a as [|x a IH]; [reflexivity|].
  rewrite !str_app_cons, IH. reflexivity.
Qed.

Lemma str_length_app (a b : string) :
  String.length (a ++ b) = (String.length a + String.length b)%nat.
Proof.
  induction a as [|x a IH]; [reflexivity|].
  rewrite str_app_cons. cbn [String.length plus]. rewrite IH. reflexivity.
Qed.

Lemma every_app p a b :
  Js.every p (a ++ b) = Js.every p a && Js.every p b.
Proof.
  induction a as [|c a IH]; [reflexivity|].
  rewrite str_app_cons. cbn [Js.every]. rewrite IH. apply andb_assoc.
Qed.

Lemma substring_none n s : substring n 0 s = "".
Proof.
  revert n. induction s as [|c s IH]; intros [|n]; cbn; auto.
Qed.

Lemma every_substring p s :
  Js.every p s = true -> forall n m, Js.every p (substring n m s) = true.
Proof.
  induction s as [|c s IH]; intros H n m.
  - destruct n, m; reflexivity.
  - cbn in H. apply andb_prop in H as [Hc Hs].
    destruct n as [|n]; cbn; [|apply IH, Hs].
    destruct m as [|m]; [reflexivity|]. cbn. rewrite Hc. apply IH, Hs.
Qed.

(** A piece that ends inside [pre] is a piece of [pre]. *)
Lemma substring_app_l pre t :
  forall n m, (n + m <= String.length pre)%nat ->
    substring n m (pre ++ t) = substring n m pre.
Proof.
  induction pre as [|c pre IH]; intros n m H; cbn in H.
  - replace n with 0%nat by lia. replace m with 0%nat by lia.
    change ("" ++ t) with t. destruct t; reflexivity.
  - rewrite str_app_cons. destruct n as [|n]; cbn [substring].
    + destruct m as [|m]; [reflexivity|]. f_equal. apply IH. lia.
    + apply IH. lia.
Qed.

(** The piece from [n] to the end, of a string with one more character. *)
Lemma substring_snoc pre c :
  forall n, (n <= String.length pre)%nat ->
    substring n (S (String.length pre) - n) (pre ++ String c "")
    = substring n (String.length pre - n) pre ++ String c "".
Proof.
  induction pre as [|x pre IH]; intros n H; cbn in H.
  - replace n with 0%nat by lia. reflexivity.
  - rewrite !str_app_cons. destruct n as [|n].
    + cbn [String.length Nat.sub substring]. rewrite str_app_cons. f_equal.
      specialize (IH 0%nat). rewrite !Nat.sub_0_r in IH. apply IH. lia.
    + cbn [String.length Nat.sub substring]. apply IH. lia.
Qed.

Lemma every_prefix p sub s :
  String.prefix sub s = true -> Js.every p s = true ->
  Js.every p sub = true.
Proof.
  revert s. induction sub as [|c sub IH]; intros s Hpre Hs; [reflexivity|].
  destruct s as [|c' s]; [discriminate|]. cbn in Hpre, Hs |- *.
  destruct (Ascii.ascii_dec c c') as [->|]; [|discriminate].
  apply andb_prop in Hs as [-> Hs]. eauto.
Qed.

(** A string holds only what its characters allow. *)
Lemma includes_every p sub s :
  Js.includes s sub = true -> Js.every p s = true ->
  Js.every p sub = true.
Proof.
  induction s as [|c s IH]; cbn [Js.includes]; intros Hin Hs.
  - rewrite orb_false_r in Hin. eapply every_prefix; eassumption.
  - apply orb_prop in Hin as [Hpre|Hin];
      [eapply every_prefix; eassumption|].
    cbn in Hs. apply andb_prop in Hs as [_ Hs]. auto.
Qed.

Lemma every_trimStart p s :
  Js.every p s = true -> Js.every p (Js.trimStart s) = true.
Proof.
  induction s as [|c s IH]; intros H; [reflexivity|].
  cbn [Js.trimStart]. destruct (Js.is_space c); [|exact H].
  cbn in H. apply andb_prop in H as [_ H]. auto.
Qed.

Lemma every_trimEnd p s :
  Js.every p s = true -> Js.every p (Js.trimEnd s) = true.
Proof.
  induction s as [|c s IH]; intros H; [reflexivity|].
  cbn in H. apply andb_prop in H as [Hc Hs]. specialize (IH Hs).
  cbn [Js.trimEnd]. destruct (Js.trimEnd s) as [|c' s'].
  - destruct (Js.is_space c); [reflexivity|]. cbn. rewrite Hc. reflexivity.
  - cbn [Js.every]. rewrite Hc. exact IH.
Qed.

Lemma every_map_chars p f s :
  (forall c, p (f c) = true) -> Js.every p (Js.map_chars f s) = true.
Proof.
  intros Hf. induction s as [|c s IH]; [reflexivity|].
  cbn. rewrite Hf. exact IH.
Qed.

Lemma every_impl (p q : ascii -> bool) s :
  (forall c, p c = true -> q c = true) ->
  Js.every p s = true -> Js.every q s = true.
Proof.
  intros Hpq. induction s as [|c s IH]; [reflexivity|].
  cbn. intros [Hc Hs]%andb_prop. rewrite (Hpq _ Hc). auto.
Qed.

(** *** Where a match ends *)

Lemma follows_refl x : follows x x.
Proof. exists "". split; [reflexivity|cbn; lia]. Qed.

Lemma follows_trans x y z : follows x y -> follows y z -> follows x z.
Proof.
  intros (u & Hu & Hpu) (v & Hv & Hpv). exists (u ++ v). split.
  - rewrite Hu, Hv, str_app_assoc. reflexivity.
  - rewrite str_length_app. lia.
Qed.

Lemma follows_step c t x : rest x = String c t -> follows x (step c t x).
Proof.
  intros Hrest. exists (String c ""). split; [exact Hrest|cbn; lia].
Qed.

(** A successful match enters its continuation at a state that follows the
    start: what lies between is what the match has read. *)
Lemma m_follows ic r :
  forall k x z, m ic r k x = Some z ->
    exists y, k y = Some z /\ follows x y.
Proof.
  induction r as [|c| |negated items|a IHa b IHb|a IHa b IHb|greedy a IHa
                 |n a IHa| | |];
    intros k x z H; cbn [m] in H.
  - eauto using follows_refl.
  - apply one_inv in H as (c' & t & Hrest & _ & H).
    eauto using follows_step.
  - apply one_inv in H as (c' & t & Hrest & _ & H).
    eauto using follows_step.
  - apply one_inv in H as (c' & t & Hrest & _ & H).
    eauto using follows_step.
  - apply IHa in H as (y1 & H & H1). apply IHb in H as (y & H & H2).
    eauto using follows_trans.
  - apply orelse_inv in H as [H|H]; eauto.
  - eapply repeat_inv; eauto using follows_refl, follows_trans.
  - apply IHa in H as (y & H & (u & Hu & Hp)).
    exists (capture n x y). split; [exact H|]. exists u. auto.
  - destruct (prev x); [discriminate|]. eauto using follows_refl.
  - destruct (rest x); [|discriminate]. eauto using follows_refl.
  - destruct (xorb _ _); [|discriminate]. eauto using follows_refl.
Qed.

Lemma match_at_follows ic r p t i y :
  match_at ic r p t i = Some y ->
  exists read, t = read ++ rest y
               /\ pos y = (i + String.length read)%nat.
Proof.
  unfold match_at. intros H.
  apply m_follows in H as (y' & [= ->] & Hf). exact Hf.
Qed.

(** A search finds its match in what is left of the input. *)
Lemma search_suffix ic r p t i b y :
  search ic r p t i = Some (b, y) ->
  exists skipped p' t',
    t = skipped ++ t' /\ match_at ic r p' t' b = Some y.
Proof.
  revert p i. induction t as [|c t IH]; intros p i; cbn [search];
    destruct (match_at ic r p _ i) eqn:Hm; intros H;
    try discriminate;
    try (injection H as <- <-; exists ""; eexists _, _;
         split; [reflexivity|eassumption]).
  apply IH in H as (skipped & p' & t' & -> & H).
  exists (String c skipped). eauto.
Qed.

(** A search that does not match where it stands goes on from the next
    character. *)
Lemma matches_from_skip ic r p c t i fuel :
  match_at ic r p (String c t) i = None ->
  matches_from fuel ic r p (String c t) i
  = matches_from fuel ic r (Some c) t (S i).
Proof.
  intros Hm. destruct fuel as [|fuel]; [reflexivity|].
  cbn [matches_from search]. rewrite Hm.
  destruct (search ic r (Some c) t (S i)) as [[b y]|] eqn:Hs; [|reflexivity].
  apply search_ahead in Hs as [Hb _].
  assert (mk_match i (String c t) b y = mk_match (S i) t b y) as ->.
  { unfold mk_match. f_equal.
    replace (b - i)%nat with (S (b - S i)) by lia. reflexivity. }
  reflexivity.
Qed.

(** *** What a global replacement leaves

    Of a pattern that matches no empty string: the characters it leaves
    are those at which it does not match ([good]) and those of the
    replacement. *)
Lemma splice_matches_every ic r by_ (Q good R : ascii -> bool) :
  (forall p c t i, match_at ic r p (String c t) i = None -> good c = true) ->
  (forall p t i y, match_at ic r p t i = Some y -> (i < pos y)%nat) ->
  (forall c, Q c = true -> good c = true -> R c = true) ->
  Js.every R by_ = true ->
  forall n t, (String.length t <= n)%nat ->
  forall pre p cursor fuel,
    (cursor <= String.length pre)%nat ->
    (String.length t < fuel)%nat ->
    Js.every Q t = true ->
    Js.every R (substring cursor (String.length pre - cursor) pre) = true ->
    Js.every R
      (splice (pre ++ t) cursor
         (matches_from fuel ic r p t (String.length pre)) by_) = true.
Proof.
  intros Hskip Hnonempty HR Hby.
  induction n as [|n IH]; intros t Hn pre p cursor fuel Hcur Hfuel HQ Hkept;
    (destruct fuel as [|fuel]; [lia|]);
    destruct t as [|c t]; try (cbn in Hn; lia).
  - cbn [matches_from search].
    destruct (match_at ic r p "" (String.length pre)) as [y|] eqn:Hm.
    + exfalso. apply Hnonempty in Hm as Hlt.
      apply match_at_follows in Hm as (u & Hu & Hpos).
      destruct u; [cbn in Hpos; lia|rewrite str_app_cons in Hu; discriminate].
    + cbn [splice]. rewrite str_app_nil_r. exact Hkept.
  - cbn [matches_from search].
    destruct (match_at ic r p "" (String.length pre)) as [y|] eqn:Hm.
    + exfalso. apply Hnonempty in Hm as Hlt.
      apply match_at_follows in Hm as (u & Hu & Hpos).
      destruct u; [cbn in Hpos; lia|rewrite str_app_cons in Hu; discriminate].
    + cbn [splice]. rewrite str_app_nil_r. exact Hkept.
  - destruct (match_at ic r p (String c t) (String.length pre))
      as [y|] eqn:Hm.
    + cbn [matches_from search]. rewrite Hm.
      apply Hnonempty in Hm as Hlt.
      apply match_at_follows in Hm as (u & Hu & Hpos).
      apply Nat.ltb_lt in Hlt as Hltb. rewrite Hltb.
      cbn [splice mk_match index endIndex].
      rewrite !every_app, substring_app_l, Hkept, Hby by lia.
      cbn [andb]. rewrite Hu, <- str_app_assoc.
      replace (pos y) with (String.length (pre ++ u))
        by (rewrite str_length_app; lia).
      assert (String.length (String c t)
              = (String.length u + String.length (rest y))%nat) as Hlen
        by (rewrite Hu; apply str_length_app).
      rewrite Hu, every_app in HQ. apply andb_prop in HQ as [_ HQ].
      cbn [String.length] in Hlen, Hn, Hfuel.
      apply IH; [lia|lia|lia|assumption|].
      rewrite Nat.sub_diag, substring_none. reflexivity.
    + rewrite matches_from_skip by assumption.
      change (pre ++ String c t) with (pre ++ (String c "" ++ t)).
      rewrite <- str_app_assoc.
      replace (S (String.length pre))
        with (String.length (pre ++ String c ""))
        by (rewrite str_length_app; cbn; lia).
      cbn [Js.every] in HQ. apply andb_prop in HQ as [HQc HQ].
      cbn [String.length] in Hn, Hfuel.
      apply IH; [lia| |lia|assumption|].
      * rewrite str_length_app. cbn. lia.
      * rewrite str_length_app. cbn [String.length].
        replace (String.length pre + 1 - cursor)%nat
          with (S (String.length pre) - cursor)%nat by lia.
        rewrite substring_snoc by assumption.
        rewrite every_app, Hkept. cbn.
        rewrite (HR c HQc (Hskip _ _ _ _ Hm)). reflexivity.
Qed.

(** Whatever is replaced, the result is made of pieces of the input and of
    the replacement. *)
Lemma splice_every R str by_ :
  Js.every R str = true -> Js.every R by_ = true ->
  forall ms cursor, Js.every R (splice str cursor ms by_) = true.
Proof.
  intros Hstr Hby. induction ms as [|h ms IH]; intros cursor; cbn [splice].
  - apply every_substring, Hstr.
  - rewrite !every_app, (every_substring R str Hstr), Hby. apply IH.
Qed.

Lemma replace_every R str rx by_ :
  Js.every R str = true -> Js.every R by_ = true ->
  Js.every R (replace str rx by_) = true.
Proof.
  intros Hstr Hby. unfold replace. destruct (global rx).
  - apply splice_every; assumption.
  - destruct (match_ str rx); [apply splice_every|]; assumption.
Qed.

End Normal.
(** ** What [normalizeQuery] leaves *)

Section Alphabet.
Import RegExp.

(** A loop whose continuation accepts every state succeeds. *)
Lemma repeat_total greedy iter fuel x :
  is_Some (repeat greedy iter Some fuel x).
Proof.
  destruct fuel as [|fuel]; cbn [repeat]; [eauto|].
  destruct greedy; [|cbn; eauto].
  destruct (iter _ x); cbn; eauto.
Qed.

(** A global replacement of a pattern that matches no empty string. *)
Lemma replace_g_every r by_ (Q good R : ascii -> bool) :
  (forall p c t i,
     match_at false r p (String c t) i = None -> good c = true) ->
  (forall p t i y, match_at false r p t i = Some y -> (i < pos y)%nat) ->
  (forall c, Q c = true -> good c = true -> R c = true) ->
  Js.every R by_ = true ->
  forall str, Js.every Q str = true ->
    Js.every R (replace str (re_g r) by_) = true.
Proof.
  intros Hskip Hnonempty HR Hby str Hstr.
  unfold replace, all_matches. cbn [global ignoreCase source re_g].
  apply (splice_matches_every false r by_ Q good R Hskip Hnonempty HR Hby
           (String.length str) str (le_n _) "" None 0
           (S (String.length str)));
    [cbn; lia|lia|exact Hstr|reflexivity].
Qed.

(** No capital letter. *)
Abbreviation lowered := (fun c : ascii => negb (Js.between 65 90 c)).
(** No capital letter, and no white space but the space. *)
Abbreviation spaced :=
  (fun c : ascii =>
     negb (Js.between 65 90 c)
     && (negb (Js.is_space c) || Ascii.eqb c " ")).

Lemma lower_lowered c : lowered (Js.lower c) = true.
Proof. destruct c as [[] [] [] [] [] [] [] []]; vm_compute; reflexivity. Qed.

(** A run of white space is found wherever a white space stands, and is
    not empty. *)
Lemma in_class_space c : in_class false false [CSpace] c = Js.is_space c.
Proof. destruct c as [[] [] [] [] [] [] [] []]; vm_compute; reflexivity. Qed.

Lemma sp_skip p c t i :
  match_at false sp p (String c t) i = None -> negb (Js.is_space c) = true.
Proof.
  unfold match_at, sp, Plus, s. rewrite m_seq. cbn [m one rest].
  rewrite in_class_space. destruct (Js.is_space c); [|reflexivity].
  match goal with
  | |- repeat ?g ?iter Some ?fuel ?x = None -> _ =>
      destruct (repeat_total g iter fuel x) as [z ->]
  end.
  discriminate.
Qed.

Lemma sp_nonempty p t i y :
  match_at false sp p t i = Some y -> (i < pos y)%nat.
Proof.
  unfold match_at, sp, Plus. rewrite m_seq. intros H.
  apply (one_inv (in_class false false [CSpace])) in H
    as (c & t' & _ & _ & H).
  apply m_inv in H as (y' & [= ->] & ((Hpos & _) & _) & _).
  cbn [pos step] in Hpos. lia.
Qed.

Lemma class_skip negated items p c t i :
  match_at false (Class negated items) p (String c t) i = None ->
  in_class false (negb negated) items c = true.
Proof.
  unfold match_at. cbn [m one rest]. unfold in_class.
  destruct negated, (existsb _ items); cbn; congruence.
Qed.

Lemma class_nonempty negated items p t i y :
  match_at false (Class negated items) p t i = Some y -> (i < pos y)%nat.
Proof.
  unfold match_at. intros H. cbn [m] in H.
  apply one_inv in H as (c & t' & _ & _ & [= <-]). cbn. lia.
Qed.

(** What the second replacement of [normalizeQuery] keeps, of a string
    without capitals whose white space is spaces: plain characters. *)
Lemma kept_plain c :
  spaced c = true ->
  in_class false false
    [CWord; CSpace; CChar "."; CChar "-"; CChar "_"; CChar "@"; CChar "#"] c
  = true ->
  plain c = true.
Proof. destruct c as [[] [] [] [] [] [] [] []]; vm_compute; congruence. Qed.

(** A normalized query is made of plain characters. *)
Lemma normalizeQuery_every_plain query :
  Js.every plain (normalizeQuery query) = true.
Proof.
  unfold normalizeQuery. cbv zeta.
  do 5 (apply replace_every; [|reflexivity]).
  apply (replace_g_every _ "" spaced _ plain
           (class_skip true _) (class_nonempty true _) kept_plain eq_refl).
  apply (replace_g_every _ " " lowered (fun c => negb (Js.is_space c)) spaced
           sp_skip sp_nonempty).
  - intros c -> ->. reflexivity.
  - reflexivity.
  - apply every_trimEnd, every_trimStart, every_map_chars, lower_lowered.
Qed.

(** X12.  Whatever the query, what [normalizeQuery] returns is made of
    the lower-case letters a to z, the digits, the characters [_ . - @ #]
    and the space: no capital letter, no accented letter, no tabulation or
    line break, no other punctuation.  So it holds no string with another
    character, such as the keyword with n tilde of the intent mapper, a
    question mark or the [://] of a URL. *)
Theorem normalizeQuery_plain query :
  let normalized := normalizeQuery query in
  Js.every plain normalized = true
  /\ (forall sub, Js.every plain sub = false ->
                  Js.includes normalized sub = false)
  /\ Js.includes normalized ("a" ++ Js.n' ++ "adir") = false
  /\ Js.includes normalized "?" = false
  /\ Js.includes normalized "://" = false.
Proof.
  cbv zeta.
  assert (forall sub, Js.every plain sub = false ->
                      Js.includes (normalizeQuery query) sub = false)
    as Hnone.
  { intros sub Hsub.
    destruct (Js.includes (normalizeQuery query) sub) eqn:Hin;
      [|reflexivity].
    rewrite (includes_every plain _ _ Hin (normalizeQuery_every_plain query))
      in Hsub.
    discriminate Hsub. }
  split; [apply normalizeQuery_every_plain|].
  split; [exact Hnone|].
  repeat split; apply Hnone; reflexivity.
Qed.

(** *** No URL survives *)

(** The URL pattern matches only where a colon stands. *)
Lemma urlPattern_colon str found :
  match_ str urlPattern = Some found ->
  Js.every (fun c => negb (Ascii.eqb c ":")) str = false.
Proof.
  unfold match_, exec, urlPattern, re, set_lastIndex.
  cbn [global source ignoreCase lastIndex seek fst].
  destruct (search _ _ _ _ _) as [[b y]|] eqn:Hs; [|discriminate].
  intros _. apply search_suffix in Hs as (skipped & p' & t' & -> & Hm).
  unfold match_at in Hm. cbn [Cat fold_right Lit Opt] in Hm.
  rewrite every_app. apply andb_false_iff. right.
  repeat (rewrite m_seq in Hm).
  cbn [m] in Hm.
  apply one_inv in Hm as (c1 & t1 & Hr1 & _ & Hm).
  apply one_inv in Hm as (c2 & t2 & Hr2 & _ & Hm).
  apply one_inv in Hm as (c3 & t3 & Hr3 & _ & Hm).
  apply one_inv in Hm as (c4 & t4 & Hr4 & _ & Hm).
  cbn [rest step] in *. subst t' t1 t2 t3.
  cbn [Js.every].
  apply orelse_inv in Hm as [Hm|Hm].
  - apply one_inv in Hm as (c5 & t5 & Hr5 & _ & Hm).
    apply one_inv in Hm as (c6 & t6 & Hr6 & Hc & _).
    cbn [rest step] in *. subst t4 t5. cbn [Js.every].
    apply Ascii.eqb_eq in Hc. subst c6.
    cbn. rewrite !andb_false_r. reflexivity.
  - apply one_inv in Hm as (c6 & t6 & Hr6 & Hc & _).
    cbn [rest step] in *. subst t4. cbn [Js.every].
    apply Ascii.eqb_eq in Hc. subst c6.
    cbn. rewrite !andb_false_r. reflexivity.
Qed.

Lemma plain_no_colon c : plain c = true -> negb (Ascii.eqb c ":") = true.
Proof. destruct c as [[] [] [] [] [] [] [] []]; vm_compute; congruence. Qed.

Lemma normalizeQuery_no_url query :
  match_ (normalizeQuery query) urlPattern = None.
Proof.
  destruct (match_ (normalizeQuery query) urlPattern) as [found|] eqn:Hm;
    [|reflexivity].
  apply urlPattern_colon in Hm.
  rewrite (every_impl plain _ _ plain_no_colon
             (normalizeQuery_every_plain query)) in Hm.
  discriminate Hm.
Qed.

End Alphabet.
(** ** The pipeline, end to end *)

Section Pipeline.

Lemma assign_keeps {A E B : Type} (proj : E -> B) (v : option A)
    (set : A -> E -> E) e :
  (forall a e', proj (set a e') = proj e') ->
  proj (assign v set e) = proj e.
Proof. intros Hset. destruct v; cbn; auto. Qed.

(** The handler and the mapper a completed [try] block leaves: the mapper
    after step 4, the handler after steps 2 and 11. *)
Lemma tryBlock_ok_state env query p result p' :
  tryBlock env query p = (Ok result, p') ->
  let got :=
    ContextHandler.getContext (session query) (user query)
      (contextHandler p) in
  let normalizedQuery := normalizeQuery (NaturalLanguageQuery.query query) in
  let mapped :=
    IntentMapper.mapIntent normalizedQuery
      (SemanticAnalyzer.analyze normalizedQuery (fst got)) (fst got)
      (intentMapper p) in
  intentMapper p' = snd mapped
  /\ contextHandler p'
     = snd (ContextHandler.updateContext (session query)
              (QueryData.mk (NaturalLanguageQuery.query query)
                 (intent_value (ProcessedQuery.intent result)) None
                 (Some (ProcessedQuery.entities result)) None)
              (snd got)).
Proof.
  unfold tryBlock, bind, step, ret, getContext, mapIntent, updateContext.
  intros H. run_try H env.
  injection H as <- <-.
  cbv zeta. cbn [fst snd intentMapper contextHandler
                 ProcessedQuery.intent ProcessedQuery.entities].
  rewrite Hmap. cbn [fst snd]. rewrite Hupd. split; reflexivity.
Qed.

(** *** URLs *)

Lemma extractEntities_urls query intent context :
  let entities := extractEntities query intent context in
  ExtractedEntities.webhookUrl entities
  = guard (intent_is intent CREATE_WEBHOOK)
      (RegExp.matched <$> RegExp.match_ query urlPattern)
  /\ ExtractedEntities.attachmentUrl entities
     = guard (intent_is intent UPLOAD_ATTACHMENT)
         (RegExp.matched <$> RegExp.match_ query urlPattern).
Proof.
  cbv zeta. unfold extractEntities. cbv zeta. split.
  - rewrite !(assign_keeps ExtractedEntities.webhookUrl) by reflexivity.
    destruct (guard _ (RegExp.matched <$> _)) as [url|] eqn:Hurl;
      cbn [assign]; [reflexivity|].
    rewrite !(assign_keeps ExtractedEntities.webhookUrl) by reflexivity.
    destruct (RegExp.match_ query tablePattern); [reflexivity|].
    rewrite !(assign_keeps ExtractedEntities.webhookUrl) by reflexivity.
    reflexivity.
  - rewrite !(assign_keeps ExtractedEntities.attachmentUrl) by reflexivity.
    destruct (guard (intent_is intent UPLOAD_ATTACHMENT) _) as [url|]
      eqn:Hurl; cbn [assign]; [reflexivity|].
    rewrite !(assign_keeps ExtractedEntities.attachmentUrl) by reflexivity.
    destruct (RegExp.match_ query tablePattern); [reflexivity|].
    rewrite !(assign_keeps ExtractedEntities.attachmentUrl) by reflexivity.
    reflexivity.
Qed.

Lemma processRelativeValues_keeps {B : Type}
    (proj : ExtractedEntities.t -> B) env entities originalQuery :
  (forall v e, proj (ExtractedEntities.set_dateReference v e) = proj e) ->
  proj (processRelativeValues env entities originalQuery) = proj entities.
Proof.
  intros Hset. unfold processRelativeValues.
  repeat match goal with |- context [if ?b then _ else _] => destruct b end;
    auto.
Qed.

(** The entities of a normalized query hold no URL. *)
Lemma no_url_extracted env query originalQuery intent context :
  let entities :=
    processRelativeValues env
      (extractEntities (normalizeQuery query) intent context)
      originalQuery in
  ExtractedEntities.webhookUrl entities = None
  /\ ExtractedEntities.attachmentUrl entities = None.
Proof.
  cbv zeta.
  rewrite (processRelativeValues_keeps ExtractedEntities.webhookUrl),
    (processRelativeValues_keeps ExtractedEntities.attachmentUrl)
    by reflexivity.
  destruct (extractEntities_urls (normalizeQuery query) intent context)
    as [-> ->].
  rewrite normalizeQuery_no_url.
  split; destruct (intent_is _ _); reflexivity.
Qed.

Lemma buildQueryParameters_urls intent entities context :
  ExtractedEntities.webhookUrl entities = None ->
  ExtractedEntities.attachmentUrl entities = None ->
  let parameters := buildQueryParameters intent entities context in
  QueryParameters.webhookConfig parameters = None
  /\ QueryParameters.attachmentData parameters = None.
Proof.
  intros Hweb Hatt. cbv zeta. unfold buildQueryParameters. cbv zeta.
  rewrite Hweb, Hatt. cbn [Js.truthy guard assign].
  repeat match goal with |- context [if ?b then _ else _] => destruct b end;
    repeat first
      [ rewrite (assign_keeps QueryParameters.webhookConfig) by reflexivity
      | rewrite (assign_keeps QueryParameters.attachmentData) by reflexivity
      | progress cbn [QueryParameters.webhookConfig
                      QueryParameters.attachmentData
                      QueryParameters.set_fields] ];
    split; reflexivity.
Qed.

Lemma asks_for_url intent entities validation :
  ExtractedEntities.webhookUrl entities = None ->
  ExtractedEntities.attachmentUrl entities = None ->
  intent = CREATE_WEBHOOK \/ intent = UPLOAD_ATTACHMENT ->
  (0 <? length (determineClarifications intent entities validation))%nat
  = true.
Proof.
  intros Hweb Hatt Hintent. unfold determineClarifications.
  rewrite Hweb, Hatt, !length_app. apply Nat.ltb_lt.
  destruct Hintent as [-> | ->].
  - change (intent_is CREATE_WEBHOOK CREATE_WEBHOOK) with true.
    cbn [Js.truthy negb andb ValidationEngine.pushed length]. lia.
  - change (intent_is UPLOAD_ATTACHMENT UPLOAD_ATTACHMENT) with true.
    cbn [Js.truthy negb andb ValidationEngine.pushed length]. lia.
Qed.

(** X13.  [processQuery] never extracts a URL: [normalizeQuery] takes the
    colon and the slashes out of the query before [extractEntities] looks
    for [https?://].  Whatever the query, the result has no webhook URL and
    no attachment URL, its parameters have no webhook configuration and no
    attachment data, and a result whose intent is [create_webhook] or
    [upload_attachment] always requires clarification. *)
Theorem processQuery_extracts_no_url env query p :
  let result := fst (processQuery env query p) in
  ExtractedEntities.webhookUrl (ProcessedQuery.entities result) = None
  /\ ExtractedEntities.attachmentUrl (ProcessedQuery.entities result) = None
  /\ QueryParameters.webhookConfig (ProcessedQuery.parameters result) = None
  /\ QueryParameters.attachmentData (ProcessedQuery.parameters result) = None
  /\ (ProcessedQuery.intent result = CREATE_WEBHOOK
      \/ ProcessedQuery.intent result = UPLOAD_ATTACHMENT ->
      ProcessedQuery.requiresClarification result = true).
Proof.
  cbv zeta. unfold processQuery.
  destruct (tryBlock env query p) as [[result|e] p'] eqn:H; cbn [fst];
    [|repeat split].
  apply tryBlock_ok in H. cbv zeta in H. subst result.
  cbn [ProcessedQuery.entities ProcessedQuery.parameters
       ProcessedQuery.intent ProcessedQuery.requiresClarification].
  match goal with
  | |- context [processRelativeValues env (extractEntities _ ?i ?c) ?q] =>
      destruct (no_url_extracted env (NaturalLanguageQuery.query query) q i c)
        as [Hweb Hatt];
      destruct (buildQueryParameters_urls i _ c Hweb Hatt) as [Hconfig Hdata]
  end.
  cbv zeta in Hweb, Hatt, Hconfig, Hdata.
  split; [exact Hweb|]. split; [exact Hatt|].
  split; [exact Hconfig|]. split; [exact Hdata|].
  apply asks_for_url; assumption.
Qed.

(** *** Scores *)

Lemma calculateConfidence_floor intent entities validation semanticAnalysis :
  PrimFloat.leb 0.5
    (calculateConfidence intent entities validation semanticAnalysis)
  = true.
Proof.
  unfold calculateConfidence.
  pose proof (keys_bound entities) as Hn.
  generalize dependent (ExtractedEntities.keys entities). intros n Hn.
  destruct (ValidationResult.isValid validation),
    (PrimFloat.ltb 0.7 (SemanticAnalysis.confidence semanticAnalysis)),
    (intent_is intent UNKNOWN);
    do 19 (destruct n as [|n]; [vm_compute; reflexivity|]); lia.
Qed.

(** X14.  A call that completes its pipeline scores 0.5 or more; a call
    that fails returns the object of the [catch] block, with confidence 0.
    So a confidence below 0.5 is the mark of a failed call, and it is 0. *)
Theorem processQuery_confidence_floor env query p :
  let result := fst (processQuery env query p) in
  match fst (tryBlock env query p) with
  | Ok _ => PrimFloat.leb 0.5 (ProcessedQuery.confidence result) = true
  | Throw _ =>
      result = fallback /\ ProcessedQuery.confidence result = 0%float
  end.
Proof.
  cbv zeta. unfold processQuery.
  destruct (tryBlock env query p) as [[result|e] p'] eqn:H; cbn [fst];
    [|split; reflexivity].
  apply tryBlock_ok in H. cbv zeta in H. subst result.
  apply calculateConfidence_floor.
Qed.

(** *** Clarifications *)

Lemma determineClarifications_none intent entities validation :
  IntentMapper.requiresTable intent = false ->
  IntentMapper.requiresRecordId intent = false ->
  determineClarifications intent entities validation = [].
Proof.
  intros Htable Hrecord. unfold determineClarifications.
  rewrite Htable, Hrecord.
  destruct intent; try discriminate Htable; reflexivity.
Qed.

(** X15.  A call that completes with an intent that needs neither a table
    nor a record id (such as [list_bases], [list_tables], [create_table] and
    [unknown]) asks nothing, whatever the validation found: its list of
    clarifications is empty. *)
Theorem processQuery_asks_nothing env query p result p' :
  tryBlock env query p = (Ok result, p') ->
  IntentMapper.requiresTable (ProcessedQuery.intent result) = false ->
  IntentMapper.requiresRecordId (ProcessedQuery.intent result) = false ->
  fst (processQuery env query p) = result
  /\ ProcessedQuery.clarifications result = []
  /\ ProcessedQuery.requiresClarification result = false.
Proof.
  intros H. unfold processQuery. rewrite H. cbn [fst].
  apply tryBlock_ok in H. cbv zeta in H. subst result.
  cbn [ProcessedQuery.intent ProcessedQuery.clarifications
       ProcessedQuery.requiresClarification].
  intros Htable Hrecord.
  rewrite (determineClarifications_none _ _ _ Htable Hrecord).
  repeat split.
Qed.

End Pipeline.
(** ** The pipeline and the session map *)

Section Sessions.

Lemma getContext_stores sessionId userId h :
  ContextHandler.contexts (snd (ContextHandler.getContext sessionId userId h))
    !! sessionId
  = Some (fst (ContextHandler.getContext sessionId userId h)).
Proof.
  unfold ContextHandler.getContext.
  destruct (ContextHandler.contexts h !! sessionId) eqn:Hl; cbn [fst snd];
    [exact Hl|].
  cbn [ContextHandler.set_contexts ContextHandler.contexts].
  apply lookup_insert_eq.
Qed.

Lemma getContext_others sessionId userId h other :
  other <> sessionId ->
  ContextHandler.contexts (snd (ContextHandler.getContext sessionId userId h))
    !! other
  = ContextHandler.contexts h !! other.
Proof.
  intros Hother. rewrite getContext_store.
  destruct (ContextHandler.contexts h !! sessionId); [reflexivity|].
  cbn [ContextHandler.set_contexts ContextHandler.contexts].
  apply lookup_insert_ne. congruence.
Qed.

Lemma getContext_bound sessionId userId h :
  ContextHandler.maxContextQueries
    (snd (ContextHandler.getContext sessionId userId h))
  = ContextHandler.maxContextQueries h.
Proof.
  rewrite getContext_store.
  destruct (ContextHandler.contexts h !! sessionId); reflexivity.
Qed.

(** An update writes the entry of its session and nothing else. *)
Lemma updateContext_others sessionId queryData h :
  ContextHandler.maxContextQueries
    (snd (ContextHandler.updateContext sessionId queryData h))
  = ContextHandler.maxContextQueries h
  /\ forall other, other <> sessionId ->
       ContextHandler.contexts
         (snd (ContextHandler.updateContext sessionId queryData h)) !! other
       = ContextHandler.contexts h !! other.
Proof.
  destruct (ContextHandler.contexts h !! sessionId) as [context|] eqn:Hl.
  - destruct (updateContext_history sessionId queryData h context Hl)
      as (context' & -> & _).
    split; [reflexivity|]. intros other Hother.
    cbn [ContextHandler.set_contexts ContextHandler.contexts].
    apply lookup_insert_ne. congruence.
  - unfold ContextHandler.updateContext. rewrite Hl. auto.
Qed.

(** The handler a call leaves, whatever its outcome: the handler it found,
    or that handler after [getContext], or after [getContext] and
    [updateContext]. *)
Lemma processQuery_handler env query p :
  let h := contextHandler p in
  let got :=
    ContextHandler.getContext (session query) (user query) h in
  let h' := contextHandler (snd (processQuery env query p)) in
  h' = h \/ h' = snd got
  \/ exists queryData,
       h' = snd (ContextHandler.updateContext (session query) queryData
                   (snd got)).
Proof.
  cbv zeta. unfold processQuery.
  destruct (tryBlock env query p) as [[result|e] p'] eqn:H; cbn [snd].
  - apply tryBlock_ok_state in H as [_ ->]. eauto.
  - apply tryBlock_throw in H as ->.
    destruct (_ || _); auto.
Qed.

Lemma processQuery_others env query p :
  let h := contextHandler p in
  let h' := contextHandler (snd (processQuery env query p)) in
  ContextHandler.maxContextQueries h' = ContextHandler.maxContextQueries h
  /\ forall other, other <> session query ->
       ContextHandler.contexts h' !! other
       = ContextHandler.contexts h !! other.
Proof.
  cbv zeta.
  destruct (processQuery_handler env query p)
    as [-> | [-> | [queryData ->]]].
  - auto.
  - split; [apply getContext_bound|].
    intros other Hother. apply getContext_others, Hother.
  - destruct (updateContext_others (session query) queryData
                (snd (ContextHandler.getContext (session query) (user query)
                        (contextHandler p)))) as [Hbound Hothers].
    split; [rewrite Hbound; apply getContext_bound|].
    intros other Hother. rewrite Hothers by assumption.
    apply getContext_others, Hother.
Qed.

(** X17.  A call touches one session only: whatever its outcome, the
    context of every session other than the call's is what it was, and the
    handler keeps its bound. *)
Theorem processQuery_other_sessions env query p :
  let h := contextHandler p in
  let h' := contextHandler (snd (processQuery env query p)) in
  ContextHandler.maxContextQueries h' = ContextHandler.maxContextQueries h
  /\ forall other, other <> session query ->
       ContextHandler.contexts h' !! other
       = ContextHandler.contexts h !! other.
Proof. apply processQuery_others. Qed.

Lemma last_drop_lt {A : Type} (l : list A) :
  forall k, (k < length l)%nat -> last (drop k l) = last l.
Proof.
  induction l as [|x l IH]; intros [|k] Hk; cbn in Hk; try lia;
    [reflexivity|].
  cbn [drop skipn]. rewrite IH by lia.
  destruct l; [cbn in Hk; lia|reflexivity].
Qed.

(** The turn pushed is the last of the history, for a bound that is not
    negative. *)
Lemma remember_entry maxContextQueries q history :
  (0 <= maxContextQueries)%Z ->
  last (ContextHandler.remember maxContextQueries q history) = Some q.
Proof.
  intros Hmax. unfold ContextHandler.remember.
  destruct (_ >? _)%Z; [|apply last_snoc].
  unfold slice. rewrite last_drop_lt; [apply last_snoc|].
  rewrite length_app. cbn [length].
  destruct (Z.ltb_spec (- maxContextQueries) 0); lia.
Qed.

(** X16.  A call that completes records its turn: the session's entry
    exists, the last entry of its history is the query as it was given
    (not normalized) with the intent returned, without a timestamp and
    without a result, and its current table is the table of the entities
    returned, if they name one, and the table it had otherwise. *)
Theorem processQuery_records env query p result p' :
  tryBlock env query p = (Ok result, p') ->
  (0 <= ContextHandler.maxContextQueries (contextHandler p))%Z ->
  let before :=
    fst (ContextHandler.getContext (session query) (user query)
           (contextHandler p)) in
  let named := ExtractedEntities.tableName (ProcessedQuery.entities result) in
  exists context',
    ContextHandler.contexts (contextHandler p') !! session query
    = Some context'
    /\ last (ConversationContext.previousQueries context')
       = Some (PreviousQuery.mk (NaturalLanguageQuery.query query)
                 (intent_value (ProcessedQuery.intent result)) None None)
    /\ ConversationContext.currentTable context'
       = (if Js.truthy named then named
          else ConversationContext.currentTable before).
Proof.
  intros H Hmax. cbv zeta.
  apply tryBlock_ok_state in H as [_ ->]. cbv zeta.
  pose proof (getContext_stores (session query) (user query)
                (contextHandler p)) as Hstored.
  destruct (updateContext_history (session query)
              (QueryData.mk (NaturalLanguageQuery.query query)
                 (intent_value (ProcessedQuery.intent result)) None
                 (Some (ProcessedQuery.entities result)) None)
              _ _ Hstored) as (context1 & Heq1 & Hhistory).
  destruct (updateContext_table (session query)
              (QueryData.mk (NaturalLanguageQuery.query query)
                 (intent_value (ProcessedQuery.intent result)) None
                 (Some (ProcessedQuery.entities result)) None)
              _ _ Hstored) as (context2 & Heq2 & Htable & _).
  assert (context2 = context1) as ->.
  { rewrite Heq1 in Heq2.
    apply (f_equal (fun h => ContextHandler.contexts h !! session query))
      in Heq2.
    cbn [ContextHandler.set_contexts ContextHandler.contexts] in Heq2.
    rewrite !lookup_insert_eq in Heq2. congruence. }
  exists context1. rewrite Heq1.
  cbn [ContextHandler.set_contexts ContextHandler.contexts].
  rewrite lookup_insert_eq. split; [reflexivity|]. split.
  - rewrite Hhistory, getContext_bound. apply remember_entry, Hmax.
  - exact Htable.
Qed.

(** *** Once a table is current *)

(** A call keeps a session's table current. *)
Lemma processQuery_keeps_table env query p sessionId context :
  ContextHandler.contexts (contextHandler p) !! sessionId = Some context ->
  Js.truthy (ConversationContext.currentTable context) = true ->
  exists context',
    ContextHandler.contexts (contextHandler (snd (processQuery env query p)))
      !! sessionId = Some context'
    /\ Js.truthy (ConversationContext.currentTable context') = true.
Proof.
  intros Hl Htable.
  destruct (String.eq_dec sessionId (session query)) as [->|Hother].
  - pose proof (getContext_known _ (user query) _ _ Hl) as Hgot.
    destruct (processQuery_handler env query p)
      as [-> | [-> | [queryData ->]]]; rewrite ?Hgot; cbn [snd]; eauto.
    destruct (updateContext_table (session query) queryData _ _ Hl)
      as (context' & -> & Hcurrent & _).
    exists context'.
    cbn [ContextHandler.set_contexts ContextHandler.contexts].
    rewrite lookup_insert_eq. split; [reflexivity|].
    cbv zeta in Hcurrent. rewrite Hcurrent.
    destruct (Js.truthy (_ ≫= _)) eqn:Hnamed; assumption.
  - destruct (processQuery_others env query p) as [_ Hothers].
    rewrite Hothers by assumption. eauto.
Qed.

(** With a current table, the entities name a table. *)
Lemma extractEntities_filled query intent context :
  Js.truthy (ConversationContext.currentTable context) = true ->
  Js.truthy (ExtractedEntities.tableName
               (extractEntities query intent context)) = true.
Proof.
  intros Hcur. rewrite extractEntities_tableName. cbv zeta.
  rewrite Hcur, andb_true_r.
  destruct (RegExp.match_ query tablePattern) as [tableMatch|] eqn:Hm;
    [|exact Hcur].
  destruct (Js.includes query "esa tabla"); [exact Hcur|].
  eapply tablePattern_capture; eassumption.
Qed.

(** A call for a session with a current table does not ask for the
    table. *)
Lemma asks_no_table env query p context :
  ContextHandler.contexts (contextHandler p) !! session query
  = Some context ->
  Js.truthy (ConversationContext.currentTable context) = true ->
  forall c,
    In c (ProcessedQuery.clarifications (fst (processQuery env query p))) ->
    Clarification.type c <> MISSING_TABLE.
Proof.
  intros Hl Hcur c. unfold processQuery.
  destruct (tryBlock env query p) as [[result|e] p'] eqn:Htry; cbn [fst].
  - apply tryBlock_ok in Htry. cbv zeta in Htry.
    rewrite (getContext_known _ _ _ _ Hl) in Htry. cbn [fst] in Htry.
    subst result. cbn [ProcessedQuery.clarifications].
    intros Hin Hty. apply missing_table_asked in Hin; [|assumption].
    rewrite processRelativeValues_tableName, extractEntities_filled in Hin
      by assumption.
    discriminate Hin.
  - cbn. intros [<-|[]]. discriminate.
Qed.

(** X18.  Once a session has a current table it keeps one, whatever calls
    follow, for whatever sessions and with whatever outcome; and no later
    call for that session asks for the table. *)
Theorem currentTable_sticks sessionId
    (calls : list (Env * NaturalLanguageQuery.t)) p context :
  ContextHandler.contexts (contextHandler p) !! sessionId = Some context ->
  Js.truthy (ConversationContext.currentTable context) = true ->
  let p' :=
    fold_left (fun p call => snd (processQuery (fst call) (snd call) p))
      calls p in
  (exists context',
     ContextHandler.contexts (contextHandler p') !! sessionId = Some context'
     /\ Js.truthy (ConversationContext.currentTable context') = true)
  /\ forall env query c,
       session query = sessionId ->
       In c (ProcessedQuery.clarifications (fst (processQuery env query p'))) ->
       Clarification.type c <> MISSING_TABLE.
Proof.
  intros Hl Hcur. cbv zeta.
  assert (exists context',
            ContextHandler.contexts
              (contextHandler
                 (fold_left
                    (fun p call =>
                       snd (processQuery (fst call) (snd call) p)) calls p))
              !! sessionId = Some context'
            /\ Js.truthy (ConversationContext.currentTable context') = true)
    as Hkept.
  { revert p context Hl Hcur.
    induction calls as [|[env query] calls IH]; intros p context Hl Hcur;
      cbn [fold_left fst snd]; [eauto|].
    destruct (processQuery_keeps_table env query p sessionId context Hl Hcur)
      as (context1 & Hl1 & Hcur1).
    eapply IH; eassumption. }
  split; [exact Hkept|].
  destruct Hkept as (context' & Hl' & Hcur').
  intros env query c <-. eapply asks_no_table; eassumption.
Qed.

End Sessions.
(** ** Parameters and their validation *)

Section Parameters.
Import ValidationEngine.

(** *** Counts *)

Lemma parseInt_nonneg digits : (0 <= parseInt digits)%Z.
Proof.
  unfold parseInt.
  match goal with
  | |- (0 <= ?go 0%Z digits)%Z =>
      cut (forall s acc, (0 <= acc)%Z -> (0 <= go acc s)%Z);
      [intros H; apply H; lia|]
  end.
  induction s as [|c s IH]; intros acc Hacc; [exact Hacc|].
  destruct (Js.is_digit c); [apply IH; lia|exact Hacc].
Qed.

Lemma extractEntities_count query intent context n :
  ExtractedEntities.count (extractEntities query intent context) = Some n ->
  (0 <= n)%Z.
Proof.
  unfold extractEntities. cbv zeta.
  rewrite !(assign_keeps ExtractedEntities.count) by reflexivity.
  destruct (group1 <$> RegExp.match_ query countPattern) as [found|];
    cbn [assign].
  - cbn [ExtractedEntities.count ExtractedEntities.set_count].
    intros [= <-]. apply parseInt_nonneg.
  - rewrite !(assign_keeps ExtractedEntities.count) by reflexivity.
    destruct (RegExp.match_ query tablePattern); [discriminate|].
    rewrite !(assign_keeps ExtractedEntities.count) by reflexivity.
    discriminate.
Qed.

Lemma intent_is_eq a b : intent_is a b = true -> a = b.
Proof. destruct a, b; (reflexivity || discriminate). Qed.

(** Where [buildQueryParameters] sets [maxRecords], and to what. *)
Lemma buildQueryParameters_maxRecords intent entities context n :
  QueryParameters.maxRecords (buildQueryParameters intent entities context)
  = Some n ->
  exists count,
    ExtractedEntities.count entities = Some count /\ count <> 0%Z
    /\ ((n = Z.min count 100
         /\ (intent = LIST_RECORDS \/ intent = SEARCH_RECORDS))
        \/ (n = Z.min count 10 /\ intent = BATCH_CREATE_RECORDS)).
Proof.
  unfold buildQueryParameters. cbv zeta.
  destruct (intent_is intent LIST_RECORDS || intent_is intent SEARCH_RECORDS)
    eqn:Hlist;
    [|destruct (intent_is intent CREATE_RECORD);
      [|destruct (intent_is intent UPDATE_RECORD);
        [|destruct (intent_is intent CREATE_WEBHOOK);
          [|destruct (intent_is intent BATCH_CREATE_RECORDS) eqn:Hbatch;
            [|destruct (intent_is intent UPLOAD_ATTACHMENT)]]]]];
    try (cbn [QueryParameters.maxRecords QueryParameters.set_fields];
         rewrite !(assign_keeps QueryParameters.maxRecords) by reflexivity;
         discriminate).
  - destruct (ExtractedEntities.count entities) as [count|];
      cbn [truthy_number guard];
      [destruct (Z.eqb_spec count 0); cbn [negb guard assign]|cbn [assign]];
      try (rewrite !(assign_keeps QueryParameters.maxRecords) by reflexivity;
           discriminate).
    cbn [QueryParameters.maxRecords QueryParameters.set_maxRecords].
    intros [= <-]. exists count. split; [reflexivity|]. split; [assumption|].
    left. split; [reflexivity|].
    apply orb_prop in Hlist as [H|H]; apply intent_is_eq in H; auto.
  - destruct (ExtractedEntities.count entities) as [count|];
      cbn [truthy_number guard];
      [destruct (Z.eqb_spec count 0); cbn [negb guard assign]|cbn [assign]];
      try (rewrite !(assign_keeps QueryParameters.maxRecords) by reflexivity;
           discriminate).
    cbn [QueryParameters.maxRecords QueryParameters.set_maxRecords].
    intros [= <-]. exists count. split; [reflexivity|]. split; [assumption|].
    right. split; [reflexivity|]. apply intent_is_eq, Hbatch.
Qed.

(** X19.  The record limit of the parameters built from a query: it is set
    for the intents [list_records], [search_records] and
    [batch_create_records] only, it is the count the query gives, cut at
    100 (at 10 for a batch), and it is at least 1. *)
Theorem maxRecords_bounds env query originalQuery intent context n :
  let entities :=
    processRelativeValues env (extractEntities query intent context)
      originalQuery in
  QueryParameters.maxRecords (buildQueryParameters intent entities context)
  = Some n ->
  (1 <= n <= 100)%Z
  /\ (intent = LIST_RECORDS \/ intent = SEARCH_RECORDS
      \/ (intent = BATCH_CREATE_RECORDS /\ (n <= 10)%Z)).
Proof.
  cbv zeta. intros H.
  apply buildQueryParameters_maxRecords in H
    as (count & Hcount & Hsome & Hn).
  rewrite (processRelativeValues_keeps ExtractedEntities.count) in Hcount
    by reflexivity.
  apply extractEntities_count in Hcount.
  destruct Hn as [[-> Hintent]|[-> Hintent]]; split; try lia.
  - destruct Hintent; auto.
  - right. right. split; [assumption|lia].
Qed.

(** *** Warnings *)

Lemma batch_intent intent :
  Js.includes (intent_value intent) "batch_" = true ->
  intent <> LIST_RECORDS /\ intent <> SEARCH_RECORDS.
Proof. destruct intent; vm_compute; intros; split; congruence. Qed.

(** X20.  [validate] never warns about, and never suggests anything for,
    parameters that [buildQueryParameters] has built: the one warning there
    is, about a batch of more than 10, cannot fire, because the only batch
    intent that gets a record limit gets one of 10 at most. *)
Theorem validate_built_no_warning intent entities context :
  let validation :=
    validate intent (buildQueryParameters intent entities context) context in
  ValidationResult.warnings validation = []
  /\ ValidationResult.suggestions validation = [].
Proof.
  cbv zeta. unfold validate, performAdditionalValidations. cbv zeta.
  cbn [ValidationResult.warnings ValidationResult.suggestions].
  split; [|reflexivity].
  destruct (Js.includes (intent_value intent) "batch_") eqn:Hbatch;
    [|reflexivity].
  destruct (QueryParameters.maxRecords _) as [n|] eqn:Hn; [|reflexivity].
  apply buildQueryParameters_maxRecords in Hn as (count & _ & _ & Hn).
  apply batch_intent in Hbatch as [Hlist Hsearch].
  destruct Hn as [[_ [?|?]]|[-> _]]; try contradiction.
  destruct (Z.ltb_spec 10 (Z.min count 10)); [lia|].
  rewrite andb_false_r. reflexivity.
Qed.

(** *** Errors *)

(** What a rule reports. *)
Lemma check_inv parameters rule e :
  In e (check parameters rule) ->
  let value := getParameterValue parameters (ValidationRule.parameter rule) in
  (ValidationRule.type rule = required /\ truthy_value value = false
   /\ e = error (ValidationRule.parameter rule)
             (ValidationRule.errorMessage rule)
             ("MISSING_" ++ Js.toUpperCase (ValidationRule.parameter rule)))
  \/ (ValidationRule.type rule = conditional /\ truthy_value value = true
      /\ e = error (ValidationRule.parameter rule)
                (ValidationRule.errorMessage rule)
                ("INVALID_" ++ Js.toUpperCase (ValidationRule.parameter rule))).
Proof.
  unfold check. cbv zeta.
  destruct (ValidationRule.type rule); unfold pushed.
  - destruct (truthy_value _); cbn; [intros []|].
    intros [<-|[]]. left. auto.
  - intros [].
  - destruct (truthy_value _); cbn; [|intros []].
    destruct (ValidationRule.validation rule _); cbn; [intros []|].
    intros [<-|[]]. right. auto.
Qed.

(** The rules there are: what they check, and for which intents. *)
Lemma rules_of_inv intent rule :
  In rule (rules_of intent) ->
  In (ValidationRule.parameter rule, ValidationRule.type rule)
    [("table", required); ("recordId", required); ("fields", required);
     ("webhookConfig", required); ("attachmentData", required);
     ("maxRecords", conditional)]
  /\ (ValidationRule.parameter rule = "table" ->
      IntentMapper.requiresTable intent = true)
  /\ (ValidationRule.parameter rule = "recordId" ->
      IntentMapper.requiresRecordId intent = true).
Proof.
  destruct intent; cbn; intros H;
    repeat (destruct H as [<-|H]); try contradiction;
    cbn; repeat split; auto 10; discriminate.
Qed.

Lemma additional_codes intent parameters context e :
  In e (ValidationResult.errors
          (performAdditionalValidations intent parameters context)) ->
  In (ValidationError.code e)
    ["INVALID_WEBHOOK_URL"; "INVALID_ATTACHMENT_URL"; "TABLE_NAME_TOO_LONG";
     "INVALID_TABLE_NAME"; "INVALID_RECORD_ID"]
  /\ ValidationError.severity e = ERROR.
Proof.
  unfold performAdditionalValidations. cbv zeta.
  cbn [ValidationResult.errors]. unfold pushed. rewrite !in_app_iff.
  repeat match goal with |- context [if ?b then _ else _] => destruct b end;
    cbn; intros H;
    repeat match goal with
           | H : _ \/ _ |- _ => destruct H as [H|H]
           | H : False |- _ => destruct H
           | H : _ = e |- _ => subst e
           end; cbn; auto 10.
Qed.

(** The errors of a validation: from a rule, or from the additional
    checks. *)
Lemma validate_errors intent parameters context e :
  In e (ValidationResult.errors (validate intent parameters context)) ->
  (exists rule, In rule (rules_of intent) /\ In e (check parameters rule))
  \/ In e (ValidationResult.errors
             (performAdditionalValidations intent parameters context)).
Proof.
  unfold validate. cbv zeta. cbn [ValidationResult.errors].
  rewrite in_app_iff, in_flat_map. auto.
Qed.

Lemma or_value_falsy a b :
  truthy_value (or_value a b) = false -> truthy_value a = false.
Proof.
  unfold or_value. destruct (truthy_value a) eqn:Ha; [|reflexivity].
  rewrite Ha. discriminate.
Qed.

Lemma buildQueryParameters_names intent entities context :
  let parameters := buildQueryParameters intent entities context in
  Js.truthy (QueryParameters.table parameters)
  = Js.truthy (ExtractedEntities.tableName entities)
  /\ Js.truthy (QueryParameters.recordId parameters)
     = Js.truthy (ExtractedEntities.recordId entities).
Proof.
  cbv zeta. unfold buildQueryParameters. cbv zeta.
  repeat match goal with
         | |- context [if intent_is ?a ?b then _ else _] =>
             destruct (intent_is a b)
         | |- context [if intent_is ?a ?b || intent_is ?c ?d
                       then _ else _] =>
             destruct (intent_is a b || intent_is c d)
         end;
    repeat first
      [ rewrite (assign_keeps QueryParameters.table) by reflexivity
      | rewrite (assign_keeps QueryParameters.recordId) by reflexivity
      | progress cbn [QueryParameters.table QueryParameters.recordId
                      QueryParameters.set_fields] ];
    destruct (ExtractedEntities.tableName entities) as [[|? ?]|],
      (ExtractedEntities.recordId entities) as [[|? ?]|],
      (ExtractedEntities.baseId entities) as [[|? ?]|];
    split; reflexivity.
Qed.

(** X21.  For the parameters built from a result's entities, an error of
    the validation that says the table is missing goes with a
    clarification that asks for the table, and one that says the record id
    is missing with a clarification that asks for a value: a result that
    asks nothing hides no such error. *)
Theorem missing_parameter_asked intent entities context :
  let parameters := buildQueryParameters intent entities context in
  let validation := validate intent parameters context in
  let asked := determineClarifications intent entities validation in
  ((exists e, In e (ValidationResult.errors validation)
              /\ ValidationError.code e = "MISSING_TABLE") ->
   exists c, In c asked /\ Clarification.type c = MISSING_TABLE)
  /\ ((exists e, In e (ValidationResult.errors validation)
                 /\ ValidationError.code e = "MISSING_RECORDID") ->
      exists c, In c asked /\ Clarification.type c = MISSING_VALUE).
Proof.
  cbv zeta.
  destruct (buildQueryParameters_names intent entities context)
    as [Htable Hrecord]. cbv zeta in Htable, Hrecord.
  split; intros (e & Hin & Hcode);
    apply validate_errors in Hin as [(rule & Hrule & Hin)|Hin];
    try (apply additional_codes in Hin as [Hin _]; rewrite Hcode in Hin;
         cbn in Hin; intuition discriminate).
  - apply rules_of_inv in Hrule as (Hkind & Hneeds & _).
    apply check_inv in Hin as [(_ & Hvalue & ->)|(_ & _ & ->)];
      cbn [ValidationError.code error] in Hcode;
      cbn in Hkind;
      repeat (destruct Hkind as [[= Hp Ht]|Hkind];
              [rewrite <- Hp in Hcode; try discriminate Hcode|]);
      try contradiction.
    rewrite <- Hp in Hvalue. specialize (Hneeds (eq_sym Hp)).
    apply or_value_falsy in Hvalue.
    assert (Js.truthy (ExtractedEntities.tableName entities) = false)
      as Hnone.
    { rewrite <- Htable.
      change (QueryParameters.get ?p "table")
        with (QueryParameters.opt VString (QueryParameters.table p))
        in Hvalue.
      destruct (QueryParameters.table _) as [[|? ?]|];
        (reflexivity || discriminate Hvalue). }
    unfold determineClarifications. rewrite Hneeds, Hnone.
    eexists. split; [apply in_or_app; left; left; reflexivity|reflexivity].
  - apply rules_of_inv in Hrule as (Hkind & _ & Hneeds).
    apply check_inv in Hin as [(_ & Hvalue & ->)|(_ & _ & ->)];
      cbn [ValidationError.code error] in Hcode;
      cbn in Hkind;
      repeat (destruct Hkind as [[= Hp Ht]|Hkind];
              [rewrite <- Hp in Hcode; try discriminate Hcode|]);
      try contradiction.
    rewrite <- Hp in Hvalue. specialize (Hneeds (eq_sym Hp)).
    apply or_value_falsy in Hvalue.
    assert (Js.truthy (ExtractedEntities.recordId entities) = false)
      as Hnone.
    { rewrite <- Hrecord.
      change (QueryParameters.get ?p "recordId")
        with (QueryParameters.opt VString (QueryParameters.recordId p))
        in Hvalue.
      destruct (QueryParameters.recordId _) as [[|? ?]|];
        (reflexivity || discriminate Hvalue). }
    unfold determineClarifications. rewrite Hneeds, Hnone.
    eexists. split;
      [apply in_or_app; right; apply in_or_app; left; left; reflexivity
      |reflexivity].
Qed.

(** X22.  The errors [validate] reports carry one of eleven codes, all of
    severity [error].  [generateSuggestions] has something to say about
    three of them only (a missing table, an invalid table name, an invalid
    webhook URL): the code it expects for a missing record id is not the
    code [validate] builds, and the batch-size code is a warning's. *)
Theorem validate_error_codes intent parameters context e :
  In e (ValidationResult.errors (validate intent parameters context)) ->
  In (ValidationError.code e)
    ["MISSING_TABLE"; "MISSING_RECORDID"; "MISSING_FIELDS";
     "MISSING_WEBHOOKCONFIG"; "MISSING_ATTACHMENTDATA"; "INVALID_MAXRECORDS";
     "INVALID_WEBHOOK_URL"; "INVALID_ATTACHMENT_URL"; "TABLE_NAME_TOO_LONG";
     "INVALID_TABLE_NAME"; "INVALID_RECORD_ID"]
  /\ ValidationError.severity e = ERROR
  /\ forall context',
       generateSuggestions e context' <> [] ->
       In (ValidationError.code e)
         ["MISSING_TABLE"; "INVALID_TABLE_NAME"; "INVALID_WEBHOOK_URL"].
Proof.
  intros Hin.
  assert (In (ValidationError.code e)
            ["MISSING_TABLE"; "MISSING_RECORDID"; "MISSING_FIELDS";
             "MISSING_WEBHOOKCONFIG"; "MISSING_ATTACHMENTDATA";
             "INVALID_MAXRECORDS"; "INVALID_WEBHOOK_URL";
             "INVALID_ATTACHMENT_URL"; "TABLE_NAME_TOO_LONG";
             "INVALID_TABLE_NAME"; "INVALID_RECORD_ID"]
          /\ ValidationError.severity e = ERROR) as [Hcode Hseverity].
  { apply validate_errors in Hin as [(rule & Hrule & Hin)|Hin].
    - apply rules_of_inv in Hrule as (Hkind & _ & _).
      apply check_inv in Hin as [(Ht & _ & ->)|(Ht & _ & ->)];
        cbn [ValidationError.code ValidationError.severity error];
        (split; [|reflexivity]);
        cbn in Hkind;
        repeat (destruct Hkind as [[= Hp Ht']|Hkind];
                [rewrite <- Hp; cbn; auto 15; congruence|]);
        contradiction.
    - apply additional_codes in Hin as [Hcode Hseverity].
      split; [|exact Hseverity]. cbn in Hcode |- *. intuition auto 15. }
  split; [exact Hcode|]. split; [exact Hseverity|].
  intros context'. unfold generateSuggestions.
  cbn in Hcode.
  repeat (destruct Hcode as [<-|Hcode]; [cbn; auto; congruence|]).
  contradiction.
Qed.

End Parameters.
(** ** The intent mapper *)

Section Mapper.
Import RegExp IntentMapper.

(** X23.  The two tables from intent to tool, the one of
    [IntentMapper.getToolName] and the one of the tool's
    [executeCorrespondingTool], agree: both send every intent to its own
    value, so the tool is "unknown" for the intent [unknown] only, and no
    two intents share a tool. *)
Theorem getToolName_agrees intent :
  getToolName intent = intent_value intent
  /\ NaturalLanguageTool.toolName intent = Some (intent_value intent)
  /\ (getToolName intent = "unknown" <-> intent = UNKNOWN)
  /\ forall other, getToolName other = getToolName intent -> other = intent.
Proof.
  assert (forall i, getToolName i = intent_value i) as Hname
    by (intros i; destruct i; reflexivity).
  assert (forall a b, intent_value a = intent_value b -> a = b) as Hinj.
  { intros a b H. apply intent_is_eq. unfold intent_is. rewrite H.
    apply String.eqb_refl. }
  split; [apply Hname|]. split; [destruct intent; reflexivity|]. split.
  - rewrite Hname. split; [|intros ->; reflexivity].
    intros H. apply Hinj. exact H.
  - intros other. rewrite !Hname. apply Hinj.
Qed.

(** *** What a scan changes *)


(** A pattern at rest that does not match stays as it is. *)
Lemma test_rest pattern query :
  lastIndex pattern = 0%nat -> fst (test pattern query) = false ->
  snd (test pattern query) = pattern.
Proof.
  unfold test, exec. intros Hrest.
  destruct (seek _ None query) as [[p t]|];
    [destruct (search _ _ p t _) as [[b y]|]|];
    cbn [fst snd]; try discriminate; intros _;
    destruct pattern as [r g i l]; cbn in Hrest |- *; subst l;
    destruct g; reflexivity.
Qed.


Lemma test_patterns_rest patterns query :
  Forall (fun pattern => lastIndex pattern = 0%nat) patterns ->
  fst (test_patterns patterns query) = false ->
  snd (test_patterns patterns query) = patterns.
Proof.
  induction 1 as [|pattern others Hrest _ IH]; [reflexivity|].
  cbn [test_patterns]. pose proof (test_rest pattern query Hrest) as Hp.
  destruct (test pattern query) as [hit pattern']. cbn [fst snd] in Hp.
  destruct hit; [discriminate|].
  destruct (test_patterns others query) as [found others'].
  cbn [fst snd] in IH |- *. intros Hfound.
  rewrite Hp, IH by auto. reflexivity.
Qed.


Lemma scan_rest entries query :
  Forall (fun entry =>
            Forall (fun pattern => lastIndex pattern = 0%nat) (snd entry))
    entries ->
  fst (scan entries query) = None ->
  snd (scan entries query) = entries.
Proof.
  induction 1 as [|[intent patterns] others Hrest _ IH]; [reflexivity|].
  cbn [scan]. cbn [snd] in Hrest.
  pose proof (test_patterns_rest patterns query Hrest) as Hp.
  destruct (test_patterns patterns query) as [hit patterns'].
  cbn [fst snd] in Hp. destruct hit; [discriminate|].
  destruct (scan others query) as [found others'].
  cbn [fst snd] in IH |- *. intros Hfound.
  rewrite Hp, IH by auto. reflexivity.
Qed.

(** The intents no call of [mapIntent] answers. *)
Abbreviation never_mapped :=
  [GET_RECORD; GET_WEBHOOK_PAYLOADS; DELETE_TABLE; UPDATE_TABLE;
   DELETE_FIELD; UPDATE_FIELD; BATCH_UPSERT_RECORDS; CREATE_VIEW;
   GET_VIEW_METADATA; GET_TABLE_VIEWS; CREATE_BASE; CREATE_REPORT;
   DATA_INSIGHTS; OPTIMIZE_WORKFLOW; SMART_SCHEMA_DESIGN; DATA_QUALITY_AUDIT;
   PREDICTIVE_ANALYTICS; NATURAL_LANGUAGE_QUERY; SMART_DATA_TRANSFORMATION;
   AUTOMATION_RECOMMENDATIONS].





(** X25.  A call that no pattern answers leaves a mapper at rest as it is:
    all its expressions are back at index 0.  So a query that the context
    rules or the keyword rules answer gets the same answer from a mapper at
    rest however often it is asked; only an answer from a pattern moves the
    mapper. *)
Theorem mapIntent_at_rest query semanticAnalysis context mapper :
  at_rest mapper ->
  fst (scan (intentPatterns mapper) query) = None ->
  let mapped := mapIntent query semanticAnalysis context mapper in
  snd mapped = mapper
  /\ mapIntent query semanticAnalysis context (snd mapped) = mapped
  /\ fst mapped
     = match by_context query context with
       | Some intent => intent
       | None => by_keywords query
       end.
Proof.
  intros Hrest Hnone. cbv zeta.
  assert (mapIntent query semanticAnalysis context mapper
          = (match by_context query context with
             | Some intent => intent
             | None => by_keywords query
             end, mapper)) as Hmapped.
  { unfold mapIntent.
    pose proof (scan_rest (intentPatterns mapper) query Hrest Hnone) as Hs.
    destruct (scan (intentPatterns mapper) query) as [found patterns'].
    cbn [fst snd] in Hnone, Hs. subst found patterns'.
    destruct mapper. reflexivity. }
  rewrite Hmapped. cbn [fst snd]. rewrite Hmapped. auto.
Qed.

Lemma new_at_rest : at_rest IntentMapper.new.
Proof.
  unfold at_rest. cbn [intentPatterns IntentMapper.new].
  repeat (constructor; [repeat (constructor; [reflexivity|])|]);
    repeat constructor.
Qed.

End Mapper.
(** ** The tool *)

Section Tool.
Import NaturalLanguageTool.



End Tool.
(** ** The validators *)

Section Validators.
Import RegExp.

(** *** Anchored patterns *)

Lemma m_bol_inv ic k x z :
  m ic Bol k x = Some z -> prev x = None /\ k x = Some z.
Proof. cbn [m]. destruct (prev x); [discriminate|auto]. Qed.

Lemma m_eol_inv ic k x z :
  m ic Eol k x = Some z -> rest x = "" /\ k x = Some z.
Proof. cbn [m]. destruct (rest x); [auto|discriminate]. Qed.

Lemma m_class_inv ic negated items k x z :
  m ic (Class negated items) k x = Some z ->
  exists c t, rest x = String c t /\ in_class ic negated items c = true
              /\ k (step c t x) = Some z.
Proof. cbn [m]. apply one_inv. Qed.

Lemma m_chr_inv ic a k x z :
  m ic (Chr a) k x = Some z ->
  exists c t, rest x = String c t /\ chr_eq ic a c = true
              /\ k (step c t x) = Some z.
Proof. cbn [m]. apply one_inv. Qed.

(** What a loop over a class reads is made of the class. *)
Lemma star_class_reads ic greedy negated items k x z :
  m ic (Star greedy (Class negated items)) k x = Some z ->
  exists y read,
    k y = Some z /\ rest x = read ++ rest y
    /\ pos y = (pos x + String.length read)%nat
    /\ Js.every (in_class ic negated items) read = true.
Proof.
  cbn [m]. intros H.
  apply (repeat_inv greedy _ k
           (fun x y => exists read,
                rest x = read ++ rest y
                /\ pos y = (pos x + String.length read)%nat
                /\ Js.every (in_class ic negated items) read = true))
    in H as (y & H & read & Hread & Hpos & Hclass);
    [exists y, read; auto| | |].
  - intros x'. exists "". cbn. auto with arith.
  - intros x1 x2 x3 (u & Hu & Hpu & Hcu) (v & Hv & Hpv & Hcv).
    exists (u ++ v).
    rewrite Hu, Hv, str_app_assoc, every_app, Hcu, Hcv, str_length_app.
    repeat split; lia.
  - intros k' x' z' H'. apply one_inv in H' as (c & t & Hrest & Hc & H').
    exists (step c t x'). split; [exact H'|]. exists (String c "").
    split; [exact Hrest|]. cbn. rewrite Hc. split; [lia|reflexivity].
Qed.

(** A greedy loop over a class reads an input made of the class to its
    end. *)
Lemma repeat_class_all p k :
  (forall y, rest y = "" -> is_Some (k y)) ->
  forall str x fuel,
    rest x = str -> Js.every p str = true ->
    (String.length str <= fuel)%nat ->
    is_Some (repeat true (one p) k fuel x).
Proof.
  intros Hk str. induction str as [|c t IH];
    intros x fuel Hrest Hall Hfuel.
  - destruct fuel as [|fuel]; cbn [repeat]; [auto|].
    unfold one at 1. rewrite Hrest. cbn [orelse]. auto.
  - destruct fuel as [|fuel]; [cbn in Hfuel; lia|]. cbn [repeat].
    unfold one at 1. rewrite Hrest.
    cbn in Hall. apply andb_prop in Hall as [-> Hall].
    cbn [pos step]. rewrite (proj2 (Nat.ltb_lt _ _) (Nat.lt_succ_diag_r _)).
    assert (String.length t <= fuel)%nat as Hle by (cbn in Hfuel; lia).
    destruct (IH (step c t x) fuel eq_refl Hall Hle) as [z Hz].
    rewrite Hz. cbn. eauto.
Qed.

Lemma star_class_all ic negated items k x :
  (forall y, rest y = "" -> is_Some (k y)) ->
  Js.every (in_class ic negated items) (rest x) = true ->
  is_Some (m ic (Star true (Class negated items)) k x).
Proof.
  intros Hk Hall. cbn [m].
  apply (repeat_class_all _ k Hk (rest x)); [reflexivity|exact Hall|lia].
Qed.

(** An anchored pattern matches at the start or nowhere. *)
Lemma search_bol_later ic r c :
  forall t i, search ic (Seq Bol r) (Some c) t i = None.
Proof.
  intros t. revert c. induction t as [|c' t IH]; intros c i; cbn [search];
    unfold match_at; cbn [m prev]; [reflexivity|apply IH].
Qed.

Lemma test_bol r str :
  fst (test (re (Seq Bol r)) str)
  = match match_at false (Seq Bol r) None str 0 with
    | Some _ => true
    | None => false
    end.
Proof.
  unfold test, exec, re. cbn [global ignoreCase source lastIndex seek].
  destruct str as [|c t]; cbn [search];
    destruct (match_at false (Seq Bol r) None _ 0); try reflexivity.
  rewrite search_bol_later. reflexivity.
Qed.

Lemma test_i_bol r str :
  fst (test (re_i (Seq Bol r)) str)
  = match match_at true (Seq Bol r) None str 0 with
    | Some _ => true
    | None => false
    end.
Proof.
  unfold test, exec, re_i. cbn [global ignoreCase source lastIndex seek].
  destruct str as [|c t]; cbn [search];
    destruct (match_at true (Seq Bol r) None _ 0); try reflexivity.
  rewrite search_bol_later. reflexivity.
Qed.

(** *** Names *)

(** X27.  The two name checks of the validation engine, character by
    character.  A record id passes exactly when it is not empty and made
    of the letters a to z and A to Z and the digits; a table name passes
    exactly when it starts with a letter (a to z, A to Z, or one of the
    seven accented letters) and goes on with letters, digits, white space,
    underscores and hyphens. *)
Theorem name_patterns str :
  fst (test ValidationEngine.recordIdPattern str)
  = match str with
    | "" => false
    | _ =>
        Js.every
          (in_class false false
             [CRange "a" "z"; CRange "A" "Z"; CRange "0" "9"]) str
    end
  /\ fst (test ValidationEngine.tableNamePattern str)
     = match str with
       | "" => false
       | String c t =>
           in_class false false
             (CRange "a" "z" :: CRange "A" "Z" :: letters_es) c
           && Js.every
                (in_class false false
                   (CRange "a" "z" :: CRange "A" "Z" :: CRange "0" "9"
                    :: letters_es ++ [CSpace; CChar "_"; CChar "-"])) t
       end.
Proof.
  assert (forall y : MState,
            rest y = "" -> is_Some (m false (Seq Eol Eps) Some y)) as Hend.
  { intros y Hy. cbn [m]. rewrite Hy. eauto. }
  split.
  - unfold ValidationEngine.recordIdPattern, Cat, Plus. cbn [fold_right].
    rewrite test_bol. unfold match_at.
    destruct (m false _ Some _) as [y|] eqn:Hm.
    + rewrite m_seq in Hm. apply m_bol_inv in Hm as [_ Hm].
      rewrite !m_seq in Hm.
      apply m_class_inv in Hm as (c & t & Hrest & Hc & Hm).
      apply star_class_reads in Hm as (y1 & read & Hm & Hread & _ & Hall).
      rewrite m_seq in Hm. apply m_eol_inv in Hm as [Hend1 _].
      cbn [rest step] in Hrest, Hread. subst str t.
      rewrite Hend1, str_app_nil_r. cbn [Js.every].
      rewrite Hc, Hall. reflexivity.
    + destruct str as [|c t]; [reflexivity|].
      destruct (Js.every _ (String c t)) eqn:Hall; [|reflexivity].
      exfalso. cbn [Js.every] in Hall. apply andb_prop in Hall as [Hc Hall].
      rewrite m_seq in Hm. cbn [m prev] in Hm.
      unfold one at 1 in Hm. cbn [rest] in Hm. rewrite Hc in Hm.
      match type of Hm with
      | repeat true ?iter ?k ?fuel ?x = None =>
          assert (String.length t <= fuel)%nat as Hle by (cbn; lia);
          destruct (repeat_class_all _ k Hend t x fuel eq_refl Hall Hle)
            as [z Hz]
      end.
      discriminate (eq_trans (eq_sym Hz) Hm).
  - unfold ValidationEngine.tableNamePattern, Cat. cbn [fold_right].
    rewrite test_bol. unfold match_at.
    destruct (m false _ Some _) as [y|] eqn:Hm.
    + rewrite m_seq in Hm. apply m_bol_inv in Hm as [_ Hm].
      rewrite !m_seq in Hm.
      apply m_class_inv in Hm as (c & t & Hrest & Hc & Hm).
      rewrite m_seq in Hm.
      apply star_class_reads in Hm as (y1 & read & Hm & Hread & _ & Hall).
      rewrite m_seq in Hm. apply m_eol_inv in Hm as [Hend1 _].
      cbn [rest step] in Hrest, Hread. subst str t.
      rewrite Hend1, str_app_nil_r, Hc, Hall. reflexivity.
    + destruct str as [|c t]; [reflexivity|].
      destruct (in_class false false _ c) eqn:Hc; [|reflexivity].
      destruct (Js.every _ t) eqn:Hall; [|reflexivity].
      exfalso. rewrite m_seq in Hm. cbn [m prev] in Hm.
      unfold one at 1 in Hm. cbn [rest] in Hm. rewrite Hc in Hm.
      match type of Hm with
      | repeat true ?iter ?k ?fuel ?x = None =>
          assert (String.length t <= fuel)%nat as Hle by (cbn; lia);
          destruct (repeat_class_all _ k Hend t x fuel eq_refl Hall Hle)
            as [z Hz]
      end.
      discriminate (eq_trans (eq_sym Hz) Hm).
Qed.

End Validators.
(** *** Webhook addresses *)

Section Urls.
Import RegExp ValidationEngine.

Lemma m_alt_inv ic a b k x z :
  m ic (Alt a b) k x = Some z ->
  m ic a k x = Some z \/ m ic b k x = Some z.
Proof. cbn [m]. apply orelse_inv. Qed.

Lemma m_dot_inv ic k x z :
  m ic Dot k x = Some z ->
  exists c t, rest x = String c t /\ Js.is_line_terminator c = false
              /\ k (step c t x) = Some z.
Proof.
  cbn [m]. intros H. apply one_inv in H as (c & t & Hrest & Hc & H).
  apply negb_true_iff in Hc. eauto.
Qed.

(** Letters are read in either case, other characters as they are. *)
Lemma chr_eq_letter (a c : ascii) :
  existsb (Ascii.eqb a) ["h"; "t"; "p"; "s"; ":"; "/"]%char = true ->
  chr_eq true a c = Ascii.eqb (Js.lower c) a.
Proof.
  intros Ha. cbn [existsb] in Ha.
  repeat (apply orb_prop in Ha as [Ha|Ha];
          [apply Ascii.eqb_eq in Ha; subst a;
           destruct c as [[] [] [] [] [] [] [] []]; vm_compute; reflexivity|]).
  discriminate.
Qed.

Lemma first_class c :
  in_class true true
    [CSpace; CChar "/"; CChar "$"; CChar "."; CChar "?"; CChar "#"] c
  = negb (Js.is_space c
          || existsb (Ascii.eqb c) ["/"; "$"; "."; "?"; "#"]%char).
Proof. destruct c as [[] [] [] [] [] [] [] []]; vm_compute; reflexivity. Qed.

Lemma no_space_class c :
  in_class true true [CSpace] c = negb (Js.is_space c).
Proof. destruct c as [[] [] [] [] [] [] [] []]; vm_compute; reflexivity. Qed.

Abbreviation after_scheme :=
  (Seq (Lit "://")
     (Seq (Class true [CSpace; CChar "/"; CChar "$"; CChar "."; CChar "?";
                       CChar "#"])
        (Seq Dot (Seq (Star true (Class true [CSpace])) (Seq Eol Eps))))).

Abbreviation addressed c d tail :=
  (Js.is_space c || existsb (Ascii.eqb c) ["/"; "$"; "."; "?"; "#"]%char
   = false
   /\ Js.is_line_terminator d = false
   /\ Js.every (fun a => negb (Js.is_space a)) tail = true).

Lemma after_scheme_inv x z :
  m true after_scheme Some x = Some z ->
  exists c d tail,
    rest x = "://" ++ String c (String d tail) /\ addressed c d tail.
Proof.
  cbn [Lit]. intros H. rewrite !m_seq in H.
  apply m_chr_inv in H as (c1 & t1 & Hr1 & Hc1 & H).
  apply m_chr_inv in H as (c2 & t2 & Hr2 & Hc2 & H).
  rewrite ?m_seq in H.
  apply m_chr_inv in H as (c3 & t3 & Hr3 & Hc3 & H).
  rewrite ?m_seq in H.
  apply m_class_inv in H as (c & t4 & Hr4 & Hc & H).
  rewrite ?m_seq in H.
  apply m_dot_inv in H as (d & t5 & Hr5 & Hd & H).
  rewrite ?m_seq in H.
  apply star_class_reads in H as (y & tail & H & Hr6 & _ & Htail).
  rewrite m_seq in H. apply m_eol_inv in H as [Hend _].
  rewrite chr_eq_letter in Hc1, Hc2, Hc3 by reflexivity.
  apply Ascii.eqb_eq in Hc1, Hc2, Hc3.
  assert (forall a, Js.lower a = ":"%char -> a = ":"%char) as Hcolon
    by (intros [[] [] [] [] [] [] [] []]; vm_compute; congruence).
  assert (forall a, Js.lower a = "/"%char -> a = "/"%char) as Hslash
    by (intros [[] [] [] [] [] [] [] []]; vm_compute; congruence).
  apply Hcolon in Hc1. apply Hslash in Hc2. apply Hslash in Hc3.
  cbn [rest step] in Hr2, Hr3, Hr4, Hr5, Hr6. subst.
  rewrite Hend, str_app_nil_r in Hr1.
  exists c, d, tail. split.
  - exact Hr1.
  - rewrite first_class in Hc. apply negb_true_iff in Hc.
    split; [exact Hc|]. split; [exact Hd|].
    apply (every_impl _ _ _ (fun a Ha => eq_trans (eq_sym (no_space_class a)) Ha)),
      Htail.
Qed.

Lemma after_scheme_matches x c d tail :
  rest x = "://" ++ String c (String d tail) -> addressed c d tail ->
  is_Some (m true after_scheme Some x).
Proof.
  intros Hrest (Hc & Hd & Htail).
  cbn [Lit]. rewrite !m_seq.
  cbn [m]. unfold one at 1. rewrite Hrest. rewrite !str_app_cons.
  change ("" ++ String c (String d tail)) with (String c (String d tail)).
  change (chr_eq true ":" ":") with true. cbn iota.
  unfold one at 1. cbn [rest step].
  change (chr_eq true "/" "/") with true. cbn iota.
  unfold one at 1. cbn [rest step]. cbn iota.
  unfold one at 1. cbn [rest step]. rewrite first_class, Hc. cbn [negb].
  unfold one at 1. cbn [rest step]. rewrite Hd. cbn [negb].
  assert (forall y : MState,
            rest y = "" -> is_Some (m true (Seq Eol Eps) Some y)) as Hend.
  { intros y Hy. cbn [m]. rewrite Hy. eauto. }
  apply (repeat_class_all _ _ Hend tail); [reflexivity| |lia].
  apply (every_impl (fun a => negb (Js.is_space a))); [|exact Htail].
  intros a Ha. rewrite no_space_class. exact Ha.
Qed.

(** X28.  [isValidUrl] accepts exactly the strings made of [http] or
    [https] in any mix of cases, then [://], then one character that is
    neither white space nor one of [/ $ . ? #], then one character that is
    no line break, then any number of characters that are not white
    space.  So an address needs at least two characters after [://], and
    no host is looked at beyond its first character. *)
Theorem isValidUrl_shape url :
  isValidUrl url = true <->
  exists scheme c d tail,
    url = scheme ++ "://" ++ String c (String d tail)
    /\ (Js.toLowerCase scheme = "http" \/ Js.toLowerCase scheme = "https")
    /\ (Js.is_space c
        || existsb (Ascii.eqb c) ["/"; "$"; "."; "?"; "#"]%char) = false
    /\ Js.is_line_terminator d = false
    /\ Js.every (fun c => negb (Js.is_space c)) tail = true.
Proof.
  unfold isValidUrl, Cat, Opt. cbn [fold_right]. rewrite test_i_bol.
  unfold match_at. split.
  - destruct (m true _ Some _) as [z|] eqn:Hm; [intros _|discriminate].
    rewrite m_seq in Hm. apply m_bol_inv in Hm as [_ Hm].
    cbn [Lit] in Hm. rewrite !m_seq in Hm.
    apply m_chr_inv in Hm as (c1 & t1 & Hr1 & Hc1 & Hm).
    apply m_chr_inv in Hm as (c2 & t2 & Hr2 & Hc2 & Hm).
    apply m_chr_inv in Hm as (c3 & t3 & Hr3 & Hc3 & Hm).
    rewrite ?m_seq in Hm.
    apply m_chr_inv in Hm as (c4 & t4 & Hr4 & Hc4 & Hm).
    rewrite chr_eq_letter in Hc1, Hc2, Hc3, Hc4 by reflexivity.
    apply Ascii.eqb_eq in Hc1, Hc2, Hc3, Hc4.
    cbn [rest step] in Hr1, Hr2, Hr3, Hr4. subst url t1 t2 t3.
    rewrite m_seq in Hm. apply m_alt_inv in Hm as [Hm|Hm].
    + apply m_chr_inv in Hm as (c5 & t5 & Hr5 & Hc5 & Hm).
      rewrite chr_eq_letter in Hc5 by reflexivity.
      apply Ascii.eqb_eq in Hc5. cbn [rest step] in Hr5. subst t4.
      apply after_scheme_inv in Hm as (c & d & tail & Hrest & Hok).
      cbn [rest step] in Hrest. subst t5.
      exists (String c1 (String c2 (String c3 (String c4 (String c5 ""))))),
        c, d, tail.
      split; [reflexivity|]. split; [|exact Hok].
      right. cbn. rewrite Hc1, Hc2, Hc3, Hc4, Hc5. reflexivity.
    + cbn [m] in Hm.
      apply after_scheme_inv in Hm as (c & d & tail & Hrest & Hok).
      cbn [rest step] in Hrest. subst t4.
      exists (String c1 (String c2 (String c3 (String c4 "")))), c, d, tail.
      split; [reflexivity|]. split; [|exact Hok].
      left. cbn. rewrite Hc1, Hc2, Hc3, Hc4. reflexivity.
  - intros (scheme & c & d & tail & -> & Hscheme & Hok).
    assert (exists c1 c2 c3 c4 more,
               scheme = String c1 (String c2 (String c3 (String c4 more)))
               /\ chr_eq true "h" c1 = true /\ chr_eq true "t" c2 = true
               /\ chr_eq true "t" c3 = true /\ chr_eq true "p" c4 = true
               /\ (more = ""
                   \/ exists c5, more = String c5 ""
                                 /\ chr_eq true "s" c5 = true))
      as (c1 & c2 & c3 & c4 & more & -> & Hc1 & Hc2 & Hc3 & Hc4 & Hmore).
    { assert (exists tail', Js.toLowerCase scheme = "http" ++ tail'
                            /\ (tail' = "" \/ tail' = "s"))
        as (tail' & H & Htail')
        by (destruct Hscheme as [->| ->]; eexists; split;
            [reflexivity|auto|reflexivity|auto]).
      destruct scheme as [|c1 [|c2 [|c3 [|c4 more]]]]; try discriminate H.
      injection H as H1 H2 H3 H4 H.
      exists c1, c2, c3, c4, more. split; [reflexivity|].
      rewrite !chr_eq_letter by reflexivity.
      rewrite H1, H2, H3, H4. repeat split.
      destruct Htail' as [->| ->].
      - left. destruct more; [reflexivity|discriminate H].
      - right. destruct more as [|c5 [|? ?]]; try discriminate H.
        injection H as H. exists c5. split; [reflexivity|].
        rewrite chr_eq_letter by reflexivity. rewrite H. reflexivity. }
    rewrite (str_app_cons c1), (str_app_cons c2), (str_app_cons c3),
      (str_app_cons c4).
    enough (is_Some
              (m true
                 (Seq Bol
                    (Seq (Lit "http") (Seq (Alt (Chr "s") Eps) after_scheme)))
                 Some
                 {| prev := None;
                    rest := String c1
                              (String c2
                                 (String c3
                                    (String c4
                                       (more ++ "://"
                                        ++ String c (String d tail)))));
                    pos := 0; caps := [] |})) as [z ->] by reflexivity.
    cbn [Lit]. rewrite !m_seq. cbn [m prev].
    unfold one at 1. cbn [rest step]. rewrite Hc1.
    unfold one at 1. cbn [rest step]. rewrite Hc2.
    unfold one at 1. cbn [rest step]. rewrite Hc3.
    unfold one at 1. cbn [rest step]. rewrite Hc4.
    destruct Hmore as [->|(c5 & -> & Hc5)].
    + change ("" ++ "://" ++ String c (String d tail))
        with ("://" ++ String c (String d tail)).
      unfold one at 1. cbn [rest step]. rewrite !str_app_cons.
      change (chr_eq true "s" ":") with false. cbn iota. cbn [orelse].
      apply (after_scheme_matches _ c d tail); [reflexivity|exact Hok].
    + rewrite str_app_cons.
      change ("" ++ "://" ++ String c (String d tail))
        with ("://" ++ String c (String d tail)).
      unfold one at 1. cbn [rest step]. rewrite Hc5.
      match goal with
      | |- is_Some (orelse (?k ?x) _) =>
          destruct (after_scheme_matches x c d tail eq_refl Hok) as [z Hz];
          change (k x) with (m true after_scheme Some x)
      end.
      rewrite Hz. cbn. eauto.
Qed.

End Urls.
(** ** Patterns that a normalized query cannot match *)

Section Unreachable.
Import RegExp.

Lemma all_chars_all a : In a all_chars.
Proof.
  unfold all_chars. rewrite <- (ascii_nat_embedding a).
  apply in_map, in_seq. pose proof (nat_ascii_bounded a). lia.
Qed.

Lemma search_none ic r (Q : ascii -> bool) :
  (forall p str i, Js.every Q str = true -> match_at ic r p str i = None) ->
  forall str p i, Js.every Q str = true -> search ic r p str i = None.
Proof.
  intros Hr str. induction str as [|c str IH]; intros p i Hstr;
    cbn [search]; rewrite (Hr _ _ _ Hstr); [reflexivity|].
  cbn in Hstr. apply andb_prop in Hstr as [_ Hstr]. apply IH, Hstr.
Qed.

Lemma seek_every (Q : ascii -> bool) n :
  forall p str p' str',
    seek n p str = Some (p', str') -> Js.every Q str = true ->
    Js.every Q str' = true.
Proof.
  induction n as [|n IH]; intros p str p' str' H Hstr; cbn in H.
  - injection H as <- <-. exact Hstr.
  - destruct str as [|c str]; [discriminate|].
    cbn in Hstr. apply andb_prop in Hstr as [_ Hstr]. eauto.
Qed.

(** An expression that needs a character outside the allowed ones matches
    nowhere in an input made of allowed ones. *)
Lemma needs_none allowed ic r :
  needs allowed ic r = true ->
  forall k x, Js.every allowed (rest x) = true -> m ic r k x = None.
Proof.
  unfold needs.
  induction r as [|c| |negated items|a IHa b IHb|a IHa b IHb|greedy a IHa
                 |n a IHa| | |];
    cbn [needs_other]; intros Hr k x Hx; try discriminate.
  - cbn [m]. unfold one. destruct (rest x) as [|a t]; [reflexivity|].
    cbn in Hx. apply andb_prop in Hx as [Ha _].
    destruct (chr_eq ic c a) eqn:Hc; [|reflexivity].
    apply negb_true_iff in Hr.
    assert (existsb (chr_eq ic c) (List.filter allowed all_chars) = true)
      as Hin; [|congruence].
    apply existsb_exists. exists a. split; [|exact Hc].
    apply filter_In. split; [apply all_chars_all|exact Ha].
  - cbn [m]. destruct (needs_other _ ic a); [apply IHa; auto|].
    destruct (m ic a (m ic b k) x) as [z|] eqn:Hm; [|reflexivity].
    apply m_follows in Hm as (y & Hm & read & Hread & _).
    rewrite Hread, every_app in Hx. apply andb_prop in Hx as [_ Hy].
    rewrite (IHb Hr k y Hy) in Hm. discriminate.
  - cbn [m]. destruct (needs_other _ ic a); [|discriminate].
    rewrite (IHa eq_refl), (IHb Hr) by assumption. reflexivity.
  - cbn [m]. apply IHa; assumption.
Qed.

Lemma test_needs allowed rx str :
  needs allowed (ignoreCase rx) (source rx) = true ->
  Js.every allowed str = true ->
  fst (test rx str) = false.
Proof.
  intros Hr Hstr. unfold test, exec.
  destruct (seek _ None str) as [[p' str']|] eqn:Hseek; [|reflexivity].
  rewrite (search_none (ignoreCase rx) (source rx) allowed);
    [reflexivity| |].
  - intros p s i Hs. unfold match_at.
    apply (needs_none allowed); assumption.
  - exact (seek_every _ _ _ _ _ _ Hseek Hstr).
Qed.

(** X29.  Fifteen of the intent patterns hold an accented letter, and
    [processQuery] never sees them match: it hands [mapIntent] the
    normalized query, in which no accented letter is left.  Wherever such a
    pattern's [lastIndex] stands, [test] on a normalized query is false.
    They are the patterns listed, by intent in the order of the table: the
    questions that open with the accented forms of "que" and "quienes", the
    forms with the accented verb for "add", and the batch forms with the
    accented word for "multiple" or "operation". *)
Theorem accented_patterns_unreachable query :
  let normalized := NaturalLanguageProcessor.normalizeQuery query in
  let accented (rx : RegExp.t) :=
    needs NaturalLanguageProcessor.plain (ignoreCase rx) (source rx) in
  (forall rx i,
      accented rx = true ->
      fst (test (set_lastIndex i rx) normalized) = false)
  /\ flat_map (fun entry => map (fun _ => fst entry)
                              (List.filter accented (snd entry)))
       IntentMapper.initializePatterns
     = [LIST_BASES; CREATE_RECORD; LIST_TABLES; LIST_TABLES; LIST_WEBHOOKS;
        CREATE_TABLE; CREATE_FIELD; LIST_FIELD_TYPES; BATCH_CREATE_RECORDS;
        BATCH_CREATE_RECORDS; BATCH_UPDATE_RECORDS; BATCH_DELETE_RECORDS;
        BATCH_DELETE_RECORDS; UPLOAD_ATTACHMENT; LIST_COLLABORATORS].
Proof.
  cbv zeta. split.
  - intros rx i Hrx.
    apply (test_needs NaturalLanguageProcessor.plain); [exact Hrx|].
    apply normalizeQuery_every_plain.
  - vm_compute. reflexivity.
Qed.

End Unreachable.
(** ** The entities of the semantic analysis *)

Section Entities.
Import RegExp SemanticAnalyzer.

Lemma dedupe_from_In seen xs x :
  In x (Js.dedupe_from seen xs) -> In x xs /\ Js.mem x seen = false.
Proof.
  revert seen. induction xs as [|y xs IH]; intros seen; cbn [Js.dedupe_from];
    [intros []|].
  destruct (Js.mem y seen) eqn:Hy.
  - intros H. apply IH in H as [H Hseen]. split; [right; exact H|exact Hseen].
  - intros [->|H]; [split; [left; reflexivity|exact Hy]|].
    apply IH in H as [H Hseen]. split; [right; exact H|].
    unfold Js.mem in Hseen. cbn [existsb] in Hseen.
    apply orb_false_elim in Hseen as [_ Hseen]. exact Hseen.
Qed.

Lemma dedupe_from_NoDup seen xs : List.NoDup (Js.dedupe_from seen xs).
Proof.
  revert seen. induction xs as [|y xs IH]; intros seen; cbn [Js.dedupe_from];
    [constructor|].
  destruct (Js.mem y seen); [apply IH|].
  constructor; [|apply IH].
  intros H. apply dedupe_from_In in H as [_ H].
  unfold Js.mem in H. cbn [existsb] in H. rewrite String.eqb_refl in H.
  discriminate.
Qed.

(** *** Matches are pieces of the input *)

Lemma search_at ic r :
  forall str p i b y,
    search ic r p str i = Some (b, y) ->
    exists skipped p' str',
      str = skipped ++ str' /\ b = (i + String.length skipped)%nat
      /\ match_at ic r p' str' b = Some y.
Proof.
  intros str. induction str as [|c str IH]; intros p i b y; cbn [search];
    destruct (match_at ic r p _ i) eqn:Hm; intros H;
    try discriminate;
    try (injection H as <- <-; exists ""; eexists _, _;
         split; [reflexivity|]; split; [cbn; lia|eassumption]).
  apply IH in H as (skipped & p' & str' & -> & -> & H).
  exists (String c skipped). eexists _, _.
  split; [reflexivity|]. split; [cbn; lia|eassumption].
Qed.

Lemma substring_middle a b c :
  substring (String.length a) (String.length b) (a ++ b ++ c) = b.
Proof.
  induction a as [|x a IH]; cbn [String.length].
  - change ("" ++ b ++ c) with (b ++ c).
    induction b as [|y b IHb]; cbn [String.length].
    + apply substring_none.
    + rewrite str_app_cons. cbn [substring]. rewrite IHb. reflexivity.
  - rewrite str_app_cons. cbn [substring]. exact IH.
Qed.

(** If every match of [r] reads a text with property [P], the matches of a
    global search are texts with property [P]. *)
Lemma matches_from_texts ic r (P : string -> Prop) :
  (forall p str b y,
      match_at ic r p str b = Some y ->
      exists read, str = read ++ rest y
                   /\ pos y = (b + String.length read)%nat /\ P read) ->
  forall fuel p str i,
    Forall (fun found => P (matched found)) (matches_from fuel ic r p str i).
Proof.
  intros Hr. induction fuel as [|fuel IH]; intros p str i;
    cbn [matches_from]; [constructor|].
  destruct (search ic r p str i) as [[b y]|] eqn:Hs; [|constructor].
  apply search_at in Hs as (skipped & p' & str' & -> & -> & Hm).
  apply Hr in Hm as (read & -> & Hpos & Hread).
  assert (P (matched (mk_match i (skipped ++ read ++ rest y)
                        (i + String.length skipped) y))) as Hhit.
  { unfold mk_match. cbn [matched]. rewrite Hpos.
    replace (i + String.length skipped - i)%nat
      with (String.length skipped) by lia.
    replace (i + String.length skipped + String.length read
             - (i + String.length skipped))%nat
      with (String.length read) by lia.
    rewrite substring_middle. exact Hread. }
  destruct (_ <? _)%nat; [constructor; [exact Hhit|apply IH]|].
  destruct (rest y); constructor; try exact Hhit; try constructor.
  apply IH.
Qed.

(** The matches of a global search in an input made of allowed characters
    are made of allowed characters. *)
Lemma matches_from_every (Q : ascii -> bool) ic r :
  forall fuel p str i,
    Js.every Q str = true ->
    Forall (fun found => Js.every Q (matched found) = true)
      (matches_from fuel ic r p str i).
Proof.
  induction fuel as [|fuel IH]; intros p str i Hstr;
    cbn [matches_from]; [constructor|].
  destruct (search ic r p str i) as [[b y]|] eqn:Hs; [|constructor].
  assert (Js.every Q (matched (mk_match i str b y)) = true) as Hhit
    by (apply every_substring, Hstr).
  apply search_suffix in Hs as (skipped & p' & str' & -> & Hm).
  apply match_at_follows in Hm as (read & -> & _).
  rewrite !every_app in Hstr.
  apply andb_prop in Hstr as [_ Hstr]. apply andb_prop in Hstr as [_ Hy].
  destruct (_ <? _)%nat; [constructor; [exact Hhit|apply IH, Hy]|].
  destruct (rest y) as [|c rest'] eqn:Hrest; constructor; try exact Hhit;
    try constructor.
  apply IH. cbn in Hy. apply andb_prop in Hy as [_ Hy]. exact Hy.
Qed.

Lemma m_wordb_inv ic k x z : m ic WordB k x = Some z -> k x = Some z.
Proof. cbn [m]. destruct (xorb _ _); [auto|discriminate]. Qed.

(** *** The three entity patterns *)

Abbreviation identifier_start :=
  (in_class false false (CRange "a" "z" :: letters_es ++ [CChar "_"])).

Abbreviation identifier_part :=
  (in_class false false
     (CRange "a" "z" :: CRange "A" "Z" :: CRange "0" "9"
      :: letters_es ++ [CChar "_"])).

Abbreviation lower_word c :=
  (Js.between 97 122 c || Js.is_digit c || Ascii.eqb c "_").

(** A pattern that opens with a capital letter matches nowhere in an input
    without capital letters. *)
Lemma capital_none r p str i :
  Js.every NaturalLanguageProcessor.plain str = true ->
  match_at false (Seq WordB (Seq (Class false [CRange "A" "Z"]) r)) p str i
  = None.
Proof.
  intros Hstr. unfold match_at.
  destruct (m false _ Some _) as [y|] eqn:Hm; [exfalso|reflexivity].
  rewrite m_seq in Hm. apply m_wordb_inv in Hm. rewrite m_seq in Hm.
  apply m_class_inv in Hm as (c & t & Hrest & Hc & _).
  cbn [rest] in Hrest. subst str. cbn in Hstr.
  apply andb_prop in Hstr as [Hplain _]. revert Hplain Hc.
  destruct c as [[] [] [] [] [] [] [] []]; vm_compute; congruence.
Qed.

Lemma identifier_read p str b y :
  match_at false
    (Seq WordB
       (Seq (Class false (CRange "a" "z" :: letters_es ++ [CChar "_"]))
          (Seq (Star true
                  (Class false
                     (CRange "a" "z" :: CRange "A" "Z" :: CRange "0" "9"
                      :: letters_es ++ [CChar "_"])))
             (Seq WordB Eps)))) p str b = Some y ->
  exists read,
    str = read ++ rest y /\ pos y = (b + String.length read)%nat
    /\ Js.every identifier_part read = true.
Proof.
  unfold match_at. intros Hm.
  rewrite m_seq in Hm. apply m_wordb_inv in Hm. rewrite m_seq in Hm.
  apply m_class_inv in Hm as (c & t & Hrest & Hc & Hm).
  rewrite m_seq in Hm.
  apply star_class_reads in Hm as (y1 & read & Hm & Hread & Hpos & Hall).
  rewrite m_seq in Hm. apply m_wordb_inv in Hm. cbn [m] in Hm.
  injection Hm as <-. cbn [rest step pos] in Hrest, Hread, Hpos.
  subst str t. exists (String c read).
  split; [reflexivity|]. split; [cbn [String.length]; lia|].
  cbn [Js.every]. rewrite Hall, andb_true_r. revert Hc.
  destruct c as [[] [] [] [] [] [] [] []]; vm_compute; congruence.
Qed.

Lemma plain_identifier c :
  NaturalLanguageProcessor.plain c = true -> identifier_part c = true ->
  lower_word c = true.
Proof.
  destruct c as [[] [] [] [] [] [] [] []]; vm_compute; congruence.
Qed.

Lemma every_both (P Q R : ascii -> bool) str :
  (forall c, P c = true -> Q c = true -> R c = true) ->
  Js.every P str = true -> Js.every Q str = true -> Js.every R str = true.
Proof.
  intros HR. induction str as [|c str IH]; [reflexivity|].
  cbn [Js.every]. intros [Hp Hps]%andb_prop [Hq Hqs]%andb_prop.
  rewrite (HR c Hp Hq), (IH Hps Hqs). reflexivity.
Qed.

Lemma match_g_none rx str (Q : ascii -> bool) :
  (forall p s i, Js.every Q s = true ->
                 match_at (ignoreCase rx) (source rx) p s i = None) ->
  Js.every Q str = true -> match_g str rx = None.
Proof.
  intros Hr Hstr. unfold match_g, all_matches. cbn [matches_from].
  rewrite (search_none (ignoreCase rx) (source rx) Q Hr str None 0 Hstr).
  reflexivity.
Qed.

Lemma extractNamedEntities_checked query entity :
  In entity (extractNamedEntities query) ->
  (2 < String.length entity)%nat
  /\ isCommonWord (Js.toLowerCase entity) = false.
Proof.
  unfold extractNamedEntities, Js.dedupe.
  intros [Hin _]%dedupe_from_In.
  apply in_flat_map in Hin as (pattern & _ & Hin).
  destruct (match_g query pattern) as [matches|]; [|destruct Hin].
  apply list_elem_of_In, list_elem_of_filter in Hin as [Hin _].
  apply Is_true_true, andb_prop in Hin as [Hlong Hword].
  split; [apply Nat.ltb_lt, Hlong|apply negb_true_iff, Hword].
Qed.

Lemma capital_patterns_none str pattern :
  Js.every NaturalLanguageProcessor.plain str = true ->
  In pattern (firstn 2 entityPatterns) -> match_g str pattern = None.
Proof.
  intros Hplain [<-|[<-|[]]];
    apply (match_g_none _ _ NaturalLanguageProcessor.plain);
    try exact Hplain; intros p s i Hs; apply capital_none, Hs.
Qed.

Lemma match_g_In str rx found matches :
  match_g str rx = Some matches -> In found matches ->
  exists hit, In hit (all_matches rx str) /\ matched hit = found.
Proof.
  unfold match_g. destruct (all_matches rx str) as [|h hs] eqn:Hall;
    [discriminate|].
  intros [= <-] Hin. change (In found (map matched (h :: hs))) in Hin.
  apply in_map_iff in Hin as (hit & Hhit & Hin). eauto.
Qed.

Lemma identifiers_lower str entity matches :
  Js.every NaturalLanguageProcessor.plain str = true ->
  match_g str
    (re_g (Cat [WordB;
                Class false (CRange "a" "z" :: letters_es ++ [CChar "_"]);
                Star true
                  (Class false
                     (CRange "a" "z" :: CRange "A" "Z" :: CRange "0" "9"
                      :: letters_es ++ [CChar "_"]));
                WordB])) = Some matches ->
  In entity matches ->
  Js.every (fun c => lower_word c) entity = true.
Proof.
  intros Hplain Hg Hin.
  destruct (match_g_In _ _ _ _ Hg Hin) as (hit & Hhit & <-).
  unfold all_matches in Hhit.
  cbn [ignoreCase source re_g Cat fold_right] in Hhit.
  apply list_elem_of_In in Hhit.
  match type of Hhit with
  | _ ∈ matches_from ?fuel ?ic ?r ?p ?s ?i =>
      pose proof (matches_from_every NaturalLanguageProcessor.plain
                    ic r fuel p s i Hplain) as Hp;
      pose proof (matches_from_texts ic r
                    (fun read => Js.every identifier_part read = true)
                    identifier_read fuel p s i) as Hi
  end.
  rewrite Forall_forall in Hp, Hi.
  apply (every_both _ _ _ _ plain_identifier).
  - apply Hp, Hhit.
  - apply (Hi hit), Hhit.
Qed.

Lemma normalized_entities str entity :
  Js.every NaturalLanguageProcessor.plain str = true ->
  In entity (extractNamedEntities str) ->
  Js.every (fun c => lower_word c) entity = true.
Proof.
  intros Hplain. unfold extractNamedEntities, Js.dedupe.
  intros [Hin _]%dedupe_from_In.
  apply in_flat_map in Hin as (pattern & Hpattern & Hin).
  destruct (match_g str pattern) as [matches|] eqn:Hg; [|destruct Hin].
  apply list_elem_of_In, list_elem_of_filter in Hin as [_ Hin].
  apply list_elem_of_In in Hin.
  destruct Hpattern as [<-|[<-|[<-|[]]]].
  - rewrite (capital_patterns_none str _ Hplain (or_introl eq_refl)) in Hg.
    discriminate.
  - rewrite (capital_patterns_none str _ Hplain
               (or_intror (or_introl eq_refl))) in Hg.
    discriminate.
  - exact (identifiers_lower str entity matches Hplain Hg Hin).
Qed.

(** X30.  The entities of [extractNamedEntities] are distinct, longer than
    two characters and, in lower case, none of the common words.  In
    [processQuery] the analysis gets the normalized query; there the
    patterns for proper names and for acronyms never match, so every entity
    is an identifier in lower case: made of the letters a to z, the digits
    and the underscore. *)
Theorem entities_of_analysis :
  (forall query context,
      let entities := SemanticAnalysis.entities (analyze query context) in
      List.NoDup entities
      /\ forall entity, In entity entities ->
           (2 < String.length entity)%nat
           /\ isCommonWord (Js.toLowerCase entity) = false)
  /\ (forall query context,
        let normalized := NaturalLanguageProcessor.normalizeQuery query in
        (forall pattern, In pattern (firstn 2 entityPatterns) ->
                         match_g normalized pattern = None)
        /\ forall entity,
             In entity
               (SemanticAnalysis.entities (analyze normalized context)) ->
             Js.every (fun c => lower_word c) entity = true).
Proof.
  split.
  - intros query context. cbv zeta. split.
    + apply dedupe_from_NoDup.
    + intros entity. apply (extractNamedEntities_checked query entity).
  - intros query context. cbv zeta.
    pose proof (normalizeQuery_every_plain query) as Hplain. split.
    + intros pattern. apply (capital_patterns_none _ pattern Hplain).
    + intros entity. apply (normalized_entities _ entity Hplain).
Qed.

End Entities.
(** ** The theorems at concrete inputs *)

Section Instances.
Import ValidationEngine IntentMapper.

(** X15 at "asdkj qwoe": the pipeline completes with the intent [unknown],
    which needs neither a table nor a record id, and asks nothing. *)
Lemma processQuery_asks_nothing_witness :
  let env := quiet (fun _ => "2026-11-02") in
  let query := NaturalLanguageQuery.mk "asdkj qwoe" None None in
  let out := processQuery env query NaturalLanguageTool.processor in
  tryBlock env query NaturalLanguageTool.processor = (Ok (fst out), snd out)
  /\ ProcessedQuery.intent (fst out) = UNKNOWN
  /\ ProcessedQuery.clarifications (fst out) = [].
Proof.
  cbv zeta.
  assert (tryBlock (quiet (fun _ => "2026-11-02"))
            (NaturalLanguageQuery.mk "asdkj qwoe" None None)
            NaturalLanguageTool.processor
          = (Ok (fst (processQuery (quiet (fun _ => "2026-11-02"))
                        (NaturalLanguageQuery.mk "asdkj qwoe" None None)
                        NaturalLanguageTool.processor)),
             snd (processQuery (quiet (fun _ => "2026-11-02"))
                    (NaturalLanguageQuery.mk "asdkj qwoe" None None)
                    NaturalLanguageTool.processor))) as H
    by (vm_compute; reflexivity).
  split; [exact H|]. split; [vm_compute; reflexivity|].
  refine (proj1 (proj2 (processQuery_asks_nothing _ _ _ _ _ H _ _)));
    vm_compute; reflexivity.
Defined.

(** X16 at "asdkj qwoe": the turn is the last entry of the history of the
    session "default". *)
Lemma processQuery_records_witness :
  let env := quiet (fun _ => "2026-11-02") in
  let query := NaturalLanguageQuery.mk "asdkj qwoe" None None in
  let out := processQuery env query NaturalLanguageTool.processor in
  tryBlock env query NaturalLanguageTool.processor = (Ok (fst out), snd out)
  /\ exists context',
       ContextHandler.contexts (contextHandler (snd out)) !! "default"
       = Some context'
       /\ last (ConversationContext.previousQueries context')
          = Some (PreviousQuery.mk "asdkj qwoe" "unknown" None None).
Proof.
  cbv zeta.
  assert (tryBlock (quiet (fun _ => "2026-11-02"))
            (NaturalLanguageQuery.mk "asdkj qwoe" None None)
            NaturalLanguageTool.processor
          = (Ok (fst (processQuery (quiet (fun _ => "2026-11-02"))
                        (NaturalLanguageQuery.mk "asdkj qwoe" None None)
                        NaturalLanguageTool.processor)),
             snd (processQuery (quiet (fun _ => "2026-11-02"))
                    (NaturalLanguageQuery.mk "asdkj qwoe" None None)
                    NaturalLanguageTool.processor))) as H
    by (vm_compute; reflexivity).
  split; [exact H|].
  assert (0 <= ContextHandler.maxContextQueries
                 (contextHandler NaturalLanguageTool.processor))%Z as Hmax
    by (vm_compute; discriminate).
  destruct (processQuery_records _ _ _ _ _ H Hmax)
    as (context' & Hstored & Hlast & _).
  exists context'. split; [exact Hstored|].
  rewrite Hlast. vm_compute. reflexivity.
Defined.

(** X18 after "listar registros en tareas" for the session "s1": the
    session has a current table, and keeps one through a later call. *)
Lemma currentTable_sticks_witness :
  let env := quiet (fun _ => "2026-11-02") in
  let first :=
    NaturalLanguageQuery.mk "listar registros en tareas" (Some "u1")
      (Some "s1") in
  let second :=
    NaturalLanguageQuery.mk "asdkj qwoe" (Some "u1") (Some "s1") in
  let p := snd (processQuery env first NaturalLanguageTool.processor) in
  (exists context,
      ContextHandler.contexts (contextHandler p) !! "s1" = Some context
      /\ Js.truthy (ConversationContext.currentTable context) = true)
  /\ exists context',
       ContextHandler.contexts
         (contextHandler (snd (processQuery env second p))) !! "s1"
       = Some context'
       /\ Js.truthy (ConversationContext.currentTable context') = true.
Proof.
  cbv zeta.
  set (env := quiet (fun _ => "2026-11-02")).
  set (p := snd (processQuery env
                   (NaturalLanguageQuery.mk "listar registros en tareas"
                      (Some "u1") (Some "s1"))
                   NaturalLanguageTool.processor)).
  set (second := NaturalLanguageQuery.mk "asdkj qwoe" (Some "u1") (Some "s1")).
  destruct (ContextHandler.contexts (contextHandler p) !! "s1")
    as [context|] eqn:Hcontext; [|vm_compute in Hcontext; discriminate].
  assert (Js.truthy (ConversationContext.currentTable context) = true)
    as Htable.
  { vm_compute in Hcontext. injection Hcontext as <-. reflexivity. }
  split; [exists context; split; [reflexivity|exact Htable]|].
  exact (proj1 (currentTable_sticks "s1" [(env, second)] p context
                  Hcontext Htable)).
Defined.

(** X19 at a query that asks for 500 records: the limit is cut at 100. *)
Lemma maxRecords_bounds_witness :
  let env := quiet (fun _ => "2026-11-02") in
  let context := ContextHandler.createNewContext "s1" "u1" in
  let entities :=
    processRelativeValues env
      (extractEntities "listar 500 registros de tareas" LIST_RECORDS context)
      "Listar 500 registros de Tareas" in
  QueryParameters.maxRecords
    (buildQueryParameters LIST_RECORDS entities context) = Some 100%Z
  /\ (1 <= 100 <= 100)%Z.
Proof.
  cbv zeta.
  assert (QueryParameters.maxRecords
            (buildQueryParameters LIST_RECORDS
               (processRelativeValues (quiet (fun _ => "2026-11-02"))
                  (extractEntities "listar 500 registros de tareas"
                     LIST_RECORDS (ContextHandler.createNewContext "s1" "u1"))
                  "Listar 500 registros de Tareas")
               (ContextHandler.createNewContext "s1" "u1"))
          = Some 100%Z) as H by (vm_compute; reflexivity).
  split; [exact H|].
  exact (proj1 (maxRecords_bounds _ _ _ _ _ _ H)).
Defined.

(** X22 at the validation of [list_records] without a table: the one error
    has the code for a missing table. *)
Lemma validate_error_codes_witness :
  let context := ContextHandler.createNewContext "s1" "u1" in
  let parameters :=
    buildQueryParameters LIST_RECORDS ExtractedEntities.empty context in
  let e :=
    ValidationError.mk "table" "El nombre de la tabla es requerido"
      "MISSING_TABLE" ERROR in
  In e (ValidationResult.errors (validate LIST_RECORDS parameters context))
  /\ ValidationError.severity e = ERROR.
Proof.
  cbv zeta.
  assert (In (ValidationError.mk "table" "El nombre de la tabla es requerido"
                "MISSING_TABLE" ERROR)
            (ValidationResult.errors
               (validate LIST_RECORDS
                  (buildQueryParameters LIST_RECORDS ExtractedEntities.empty
                     (ContextHandler.createNewContext "s1" "u1"))
                  (ContextHandler.createNewContext "s1" "u1")))) as H
    by (vm_compute; left; reflexivity).
  split; [exact H|].
  exact (proj1 (proj2 (validate_error_codes _ _ _ _ H))).
Defined.


(** X25 at "asdkj qwoe" on a new mapper: no pattern answers, and the mapper
    is left as it is. *)
Lemma mapIntent_at_rest_witness :
  let context := ContextHandler.createNewContext "s1" "u1" in
  let analysis := SemanticAnalyzer.analyze "asdkj qwoe" context in
  fst (scan (intentPatterns IntentMapper.new) "asdkj qwoe") = None
  /\ snd (mapIntent "asdkj qwoe" analysis context IntentMapper.new)
     = IntentMapper.new.
Proof.
  cbv zeta.
  assert (fst (scan (intentPatterns IntentMapper.new) "asdkj qwoe") = None)
    as H by (vm_compute; reflexivity).
  split; [exact H|].
  exact (proj1 (mapIntent_at_rest "asdkj qwoe" _ _ IntentMapper.new
                  new_at_rest H)).
Defined.

End Instances.
